(** * The mind-map editor's graph, layout, fold, history and persistence core

    A shallow embedding of the parts of [python-flowchart-editor.py],
    [flowchart/advanced.py] and [flowchart/save_functions.py] that decide
    the properties stated about the editor: the cascade delete, the
    descendant traversal, the subtree-width aggregation of the automatic
    layout, folding, the bounded undo/redo log and the JSON save/open pair.

    Python objects are identified by a natural number (their identity);
    attributes of node objects live in a store indexed by identity, the
    scene is the list that [scene.items()] enumerates.  Calls into Qt that
    only repaint ([update], [centerOn], [fitInView]) are left out. *)

From stdpp Require Import gmap strings list pretty.
From Stdlib Require Import ZArith Lia.
From Stdlib Require Qcanon.

(** ** Data model *)

(** The identity of a [FlowchartNode] object. *)
Definition node := nat.

(** The attributes of a [FlowchartNode].  [is_folded] and
    [children_visibility] are created on first assignment, so they are
    optional ([hasattr]).  A colour is kept as its [name()], the
    [#rrggbb] string.  What only painting and selection read ([height],
    [shape_type], the [connections] list, [image], [link]) is left out. *)
Record FlowchartNode := mkNode {
  node_type : string;
  node_text : string;
  pos_x : Z;
  pos_y : Z;
  width : Z;
  color : string;
  visible : bool;
  is_folded : option bool;
  children_visibility : option (list (node * bool))
}.

(** A [FlowchartConnection]: its identity, the two node objects it
    references, its colour, pen width and visibility. *)
Record FlowchartConnection := mkConn {
  conn_id : nat;
  start_node : node;
  end_node : node;
  conn_color : string;
  pen_width : Z;
  conn_visible : bool
}.

(** What a scene holds: nodes, connections, and the dashed
    [QGraphicsLineItem] shown while a connection is being drawn. *)
Inductive item :=
| INode (n : node)
| IConn (c : FlowchartConnection)
| ILine.

Definition scene := list item.

(** The store of node objects. *)
Definition store := node -> FlowchartNode.

Definition set_attr (h : store) (n : node) (a : FlowchartNode) : store :=
  fun m => if decide (m = n) then a else h m.

Definition is_node (n : node) (it : item) : bool :=
  match it with
  | INode m => bool_decide (m = n)
  | _ => false
  end.

(** [node.scene()] is not [None]: the node is one of the scene's items. *)
Definition in_scene (sc : scene) (n : node) : bool := existsb (is_node n) sc.

(** [scene.removeItem(node)] *)
Definition remove_node (n : node) (sc : scene) : scene :=
  filter (fun it => is_node n it = false) sc.

(** Answers of a [QMessageBox]. *)
Inductive StandardButton := Yes | No | Cancel | Save | Discard.

#[global] Instance StandardButton_eq_dec : EqDecision StandardButton.
Proof. solve_decision. Defined.

(** A hashable Python value used as a dictionary key. *)
Inductive pykey :=
| KNone
| KNum (z : Z)
| KStr (s : string).

#[global] Instance pykey_eq_dec : EqDecision pykey.
Proof. solve_decision. Defined.

(** Exceptions that the modelled code can raise. *)
Inductive exn :=
| RecursionError
| AttributeError (attr : string)
| KeyError (key : pykey)
| IndexError
| TypeError
| OSError
| JSONDecodeError.

(** A call either returns or raises. *)
Inductive outcome (A : Type) :=
| Returned (a : A)
| Raised (e : exn).
Arguments Returned {A} a.
Arguments Raised {A} e.

(** ** Graph model: descendants and cascade delete *)

Module Graph.

(** The loop body of [getAllChildNodes]: for each connection of the scene
    that starts at [self], the end node followed by what the recursive
    call [rec] returns for it. *)
Fixpoint collect (rec : node -> option (list node)) (self : node)
    (its : list item) : option (list node) :=
  match its with
  | [] => Some []
  | IConn c :: rest =>
      if decide (start_node c = self) then
        match rec (end_node c) with
        | None => None
        | Some sub =>
            match collect rec self rest with
            | None => None
            | Some more => Some (end_node c :: sub ++ more)
            end
        end
      else collect rec self rest
  | _ :: rest => collect rec self rest
  end.

(** [FlowchartNode.getAllChildNodes].  The recursion carries no visited
    set; [fuel] bounds the depth of the call stack, and [None] is the
    call that does not come back within it (Python's [RecursionError]). *)
Fixpoint getAllChildNodes (fuel : nat) (sc : scene) (self : node)
    : option (list node) :=
  match fuel with
  | O => None
  | S f =>
      if in_scene sc self then collect (getAllChildNodes f sc) self sc
      else Some []
  end.

(** [FlowchartNode.get_child_nodes] *)
Definition get_child_nodes (sc : scene) (self : node) : list node :=
  if in_scene sc self then
    omap (fun it => match it with
                    | IConn c => if decide (start_node c = self)
                                 then Some (end_node c) else None
                    | _ => None
                    end) sc
  else [].

(** The test of the first loop of [deleteNode]: a connection whose start
    or end is [self] or one of [nodes_to_delete]. *)
Definition incident (self : node) (nodes_to_delete : list node) (it : item)
    : bool :=
  match it with
  | IConn c =>
      bool_decide (start_node c = self) || bool_decide (end_node c = self)
      || bool_decide (start_node c ∈ nodes_to_delete)
      || bool_decide (end_node c ∈ nodes_to_delete)
  | _ => false
  end.

(** The second loop of [deleteNode]. *)
Definition remove_children (nodes_to_delete : list node) (sc : scene) : scene :=
  foldl (fun s n => if in_scene s n then remove_node n s else s)
        sc nodes_to_delete.

(** [FlowchartNode.deleteNode]; [reply] is the answer to the confirmation
    dialog. *)
Definition deleteNode (fuel : nat) (reply : StandardButton) (sc : scene)
    (self : node) : outcome scene :=
  match reply with
  | Yes =>
      match getAllChildNodes fuel sc self with
      | None => Raised RecursionError
      | Some nodes_to_delete =>
          if in_scene sc self then
            let sc1 := filter (fun it => incident self nodes_to_delete it = false) sc in
            let sc2 := remove_children nodes_to_delete sc1 in
            Returned (remove_node self sc2)
          else Returned sc
      end
  | _ => Returned sc
  end.

(** A node reachable from [n] along outgoing connections.  The traversal
    only looks for connections of a node that is in the scene. *)
Inductive reach (sc : scene) : node -> node -> Prop :=
| reach_child n c :
    INode n ∈ sc -> IConn c ∈ sc -> start_node c = n ->
    reach sc n (end_node c)
| reach_desc n c m :
    INode n ∈ sc -> IConn c ∈ sc -> start_node c = n ->
    reach sc (end_node c) m ->
    reach sc n m.

(** What [deleteNode n] is meant to take out: [n] and its descendants. *)
Definition removed (sc : scene) (n m : node) : Prop := m = n \/ reach sc n m.

(** A graph without directed cycle: some rank decreases along every
    connection of the scene. *)
Definition ranked (sc : scene) (rank : node -> nat) : bool :=
  forallb (fun it => match it with
                     | IConn c => rank (end_node c) <? rank (start_node c)
                     | _ => true
                     end) sc.

(** Two nodes wired into a cycle. *)
Definition cyc : scene :=
  [INode 0; INode 1; IConn (mkConn 10 0 1 "#e6a173" 2%Z true);
   IConn (mkConn 11 1 0 "#e6a173" 2%Z true)].

(** A diamond: 0 -> 1, 0 -> 2, 1 -> 3, 2 -> 3. *)
Definition diamond : scene :=
  [INode 0; INode 1; INode 2; INode 3;
   IConn (mkConn 10 0 1 "#e6a173" 2%Z true); IConn (mkConn 11 0 2 "#e6a173" 2%Z true);
   IConn (mkConn 12 1 3 "#e6a173" 2%Z true); IConn (mkConn 13 2 3 "#e6a173" 2%Z true)].

End Graph.

(** ** Layout engine: subtree width *)

Module Layout.

(** [self.horizontal_spacing] *)
Definition horizontal_spacing : Z := 100.

(** [AutoLayoutAlgorithm._get_children] *)
Definition _get_children (sc : scene) (n : node) : list node :=
  omap (fun it => match it with
                  | IConn c => if decide (start_node c = n)
                               then Some (end_node c) else None
                  | _ => None
                  end) sc.

(** [sum(self._calculate_tree_width(child, level+1, visited) for child in
    children)]: the calls are made from left to right on the one shared
    [visited] set, so each call sees what the calls before it added. *)
Fixpoint sum_widths (rec : node -> gset node -> option (Z * gset node))
    (acc : Z) (children : list node) (visited : gset node)
    : option (Z * gset node) :=
  match children with
  | [] => Some (acc, visited)
  | child :: rest =>
      match rec child visited with
      | None => None
      | Some (w, visited1) => sum_widths rec (acc + w)%Z rest visited1
      end
  end.

(** [AutoLayoutAlgorithm._calculate_tree_width], returning the width and
    the [visited] set as the call leaves it.  The visited guard makes the
    recursion finite; [fuel] only makes the definition structural
    ([_calculate_tree_width_returns] shows how much is enough). *)
Fixpoint _calculate_tree_width (fuel : nat) (h : store) (sc : scene)
    (n : node) (visited : gset node) : option (Z * gset node) :=
  match fuel with
  | O => None
  | S f =>
      if decide (n ∈ visited) then Some (width (h n), visited)
      else
        let visited := {[n]} ∪ visited in
        let children := _get_children sc n in
        match children with
        | [] => Some (width (h n), visited)
        | _ :: _ =>
            match sum_widths (_calculate_tree_width f h sc) 0%Z children visited with
            | None => None
            | Some (total_width, visited') =>
                let total_width :=
                  if bool_decide (1 < length children)
                  then (total_width
                        + horizontal_spacing * (Z.of_nat (length children) - 1))%Z
                  else total_width in
                Some (Z.max (width (h n)) total_width, visited')
            end
        end
  end.

(** The nodes that some connection of the scene ends at. *)
Definition end_nodes (sc : scene) : gset node :=
  list_to_set (omap (fun it => match it with
                               | IConn c => Some (end_node c)
                               | _ => None
                               end) sc).

(** [self._calculate_tree_width(root)], with [visited] defaulting to a
    fresh set. *)
Definition tree_width (h : store) (sc : scene) (n : node) : option Z :=
  fst <$> _calculate_tree_width (S (S (size (end_nodes sc)))) h sc n ∅.

Definition sum_list_Z (ws : list Z) : Z := foldr Z.add 0%Z ws.

(** The graph below a node is a tree when no node is met twice on the way
    down.  [tree_below] returns the nodes of that tree, or [None] when
    some node is shared (or [fuel] is smaller than the depth). *)
Fixpoint disjoint_union (rec : node -> option (gset node))
    (children : list node) (acc : gset node) : option (gset node) :=
  match children with
  | [] => Some acc
  | child :: rest =>
      match rec child with
      | None => None
      | Some s => if decide (s ## acc) then disjoint_union rec rest (acc ∪ s)
                  else None
      end
  end.

Fixpoint tree_below (fuel : nat) (sc : scene) (n : node) : option (gset node) :=
  match fuel with
  | O => None
  | S f => disjoint_union (tree_below f sc) (_get_children sc n) {[n]}
  end.

(** A store in which every node is an unfolded, visible "leaf" node of
    the minimal width 120, except node 4, whose text makes it 300 wide. *)
Definition plain : FlowchartNode :=
  mkNode "leaf" "" 0 0 120 "#d3d3d3" true None None.

Definition widths : store :=
  fun n => if decide (n = 4) then mkNode "leaf" "a long text" 0 0 300 "#d3d3d3" true None None
           else plain.

Definition link (i s e : nat) : item := IConn (mkConn i s e "#e6a173" 2 true).

(** A tree: 0 -> 1, 0 -> 2, 1 -> 3, 3 -> 4. *)
Definition tree5 : scene :=
  [INode 0; INode 1; INode 2; INode 3; INode 4;
   link 10 0 1; link 11 0 2; link 12 1 3; link 13 3 4].

(** A node with two parents: 0 -> 1, 0 -> 2, 1 -> 3, 2 -> 3, 3 -> 4. *)
Definition shared : scene :=
  [INode 0; INode 1; INode 2; INode 3; INode 4;
   link 10 0 1; link 11 0 2; link 12 1 3; link 13 2 3; link 14 3 4].

End Layout.

(** ** Fold engine *)

Module Fold.

Definition set_visible (b : bool) (a : FlowchartNode) : FlowchartNode :=
  mkNode (node_type a) (node_text a) (pos_x a) (pos_y a) (width a) (color a)
         b (is_folded a) (children_visibility a).

Definition set_is_folded (b : bool) (a : FlowchartNode) : FlowchartNode :=
  mkNode (node_type a) (node_text a) (pos_x a) (pos_y a) (width a) (color a)
         (visible a) (Some b) (children_visibility a).

Definition set_children_visibility (d : list (node * bool)) (a : FlowchartNode)
    : FlowchartNode :=
  mkNode (node_type a) (node_text a) (pos_x a) (pos_y a) (width a) (color a)
         (visible a) (is_folded a) (Some d).

(** [d[k] = v] on a Python dict: an existing key keeps its place. *)
Fixpoint dict_set (k : node) (v : bool) (d : list (node * bool))
    : list (node * bool) :=
  match d with
  | [] => [(k, v)]
  | (k', v') :: rest =>
      if decide (k' = k) then (k, v) :: rest else (k', v') :: dict_set k v rest
  end.

(** The inner loop of [_collapse_node] and [_expand_node]: every
    connection of the scene from [n] to [child] is shown or hidden. *)
Definition set_conn_visible (n child : node) (b : bool) (sc : scene) : scene :=
  map (fun it => match it with
                 | IConn c =>
                     if decide (start_node c = n /\ end_node c = child)
                     then IConn (mkConn (conn_id c) (start_node c) (end_node c)
                                        (conn_color c) (pen_width c) b)
                     else it
                 | _ => it
                 end) sc.

(** The editor state that folding touches: the node objects and the
    scene. *)
Definition world : Type := store * scene.

Section Qt.

(** [FlowchartNode] derives from [QGraphicsItem] and defines no
    [setBrush] of its own; what the call [node.setBrush(...)] does is
    decided by PyQt5, outside this repository: it returns, or it raises
    [AttributeError]. *)
Variable setBrush : outcome unit.

(** One turn of the loop of [_collapse_node]. *)
Definition collapse_child (n : node) (w : world) (child : node) : world :=
  let '(h, sc) := w in
  let d := default [] (children_visibility (h n)) in
  let h1 := set_attr h n (set_children_visibility
                            (dict_set child (visible (h child)) d) (h n)) in
  let h2 := set_attr h1 child (set_visible false (h1 child)) in
  (h2, set_conn_visible n child false sc).

(** [KeyboardShortcutManager._collapse_node] *)
Definition _collapse_node (n : node) (child_nodes : list node) (w : world)
    : world * outcome unit :=
  let '(h, sc) := w in
  let w0 : world := (set_attr h n (set_children_visibility [] (h n)), sc) in
  let '(h1, sc1) := foldl (collapse_child n) w0 child_nodes in
  let h2 := set_attr h1 n (set_is_folded true (h1 n)) in
  ((h2, sc1), setBrush).

(** One turn of the loop of [_expand_node]. *)
Definition expand_child (n : node) (w : world) (entry : node * bool) : world :=
  let '(h, sc) := w in
  let '(child, was_visible) := entry in
  (set_attr h child (set_visible was_visible (h child)),
   set_conn_visible n child true sc).

(** [KeyboardShortcutManager._expand_node] *)
Definition _expand_node (n : node) (child_nodes : list node) (w : world)
    : world * outcome unit :=
  let '(h1, sc1) :=
    match children_visibility (w.1 n) with
    | Some d => foldl (expand_child n) w d
    | None => w
    end in
  let h2 := set_attr h1 n (set_is_folded false (h1 n)) in
  ((h2, sc1), setBrush).

(** The first loop of [_fold_all_levels]. *)
Definition show_descendant (h : store) (child : node) : store :=
  let h1 := set_attr h child (set_visible true (h child)) in
  match is_folded (h1 child) with
  | Some true => set_attr h1 child (set_is_folded false (h1 child))
  | _ => h1
  end.

(** The last loop of [_fold_all_levels]. *)
Definition mark_folded (sc : scene) (h : store) (child : node) : store :=
  match Graph.get_child_nodes sc child with
  | [] => h
  | _ :: _ => set_attr h child (set_is_folded true (h child))
  end.

(** [KeyboardShortcutManager._fold_all_levels]; [fuel] is the stack depth
    allowed to [getAllChildNodes]. *)
Definition _fold_all_levels (fuel : nat) (n : node) (w : world)
    : world * outcome unit :=
  let '(h, sc) := w in
  match Graph.getAllChildNodes fuel sc n with
  | None => (w, Raised RecursionError)
  | Some all_descendants =>
      let h1 := foldl show_descendant h all_descendants in
      let direct_children := Graph.get_child_nodes sc n in
      match _collapse_node n direct_children (h1, sc) with
      | (w2, Raised e) => (w2, Raised e)
      | ((h2, sc2), Returned _) =>
          ((foldl (mark_folded sc2) h2 direct_children, sc2), Returned tt)
      end
  end.

(** [KeyboardShortcutManager._toggle_fold_node]; [reply] answers the
    three-way question, when it is asked. *)
Definition _toggle_fold_node (fuel : nat) (reply : StandardButton) (n : node)
    (w : world) : world * outcome unit :=
  let '(h, sc) := w in
  let child_nodes := Graph.get_child_nodes sc n in
  match child_nodes with
  | [] => (w, Returned tt)
  | _ :: _ =>
      let folded := default false (is_folded (h n)) in
      match Graph.getAllChildNodes fuel sc n with
      | None => (w, Raised RecursionError)
      | Some all_descendants =>
          let ask := bool_decide (length child_nodes < length all_descendants)
                     && negb folded in
          if ask && bool_decide (reply = Cancel) then (w, Returned tt)
          else if ask && bool_decide (reply = Yes) then _fold_all_levels fuel n w
          else if folded then _expand_node n child_nodes w
          else _collapse_node n child_nodes w
      end
  end.

(** [FlowchartNode.foldAllLevels] and [FlowchartNode.toggleFold]: the
    main window always has its [shortcut_manager]. *)
Definition foldAllLevels (fuel : nat) (n : node) (w : world) : world * outcome unit :=
  _fold_all_levels fuel n w.

Definition toggleFold (fuel : nat) (reply : StandardButton) (n : node) (w : world)
    : world * outcome unit :=
  _toggle_fold_node fuel reply n w.

End Qt.

(** The scenario: root A = 0 with children B = 1 and C = 2, and D = 3 the
    child of B; everything is visible and nothing was ever folded. *)
Definition fresh : FlowchartNode :=
  mkNode "leaf" "" 0 0 120 "#d3d3d3" true None None.

Definition scenario : world :=
  (fun _ => fresh,
   [INode 0; INode 1; INode 2; INode 3;
    IConn (mkConn 10 0 1 "#e6a173" 2 true);
    IConn (mkConn 11 0 2 "#e6a173" 2 true);
    IConn (mkConn 12 1 3 "#e6a173" 2 true)]).

End Fold.

(** ** The editor: history log *)

Module Editor.

(** [NODE_TYPES], updated with [extensions.EXTENDED_NODE_TYPES]: the
    default colour of each node type, as [QColor.name()] prints it. *)
Definition NODE_TYPES : gmap string string :=
  list_to_map
    [("中心主题", "#00b097"); ("主要分支", "#87cefa"); ("次要分支", "#ffb6c1");
     ("叶子节点", "#d3d3d3"); ("备注", "#ffff99");
     ("菱形", "#ffdab9"); ("六边形", "#add8e6"); ("平行四边形", "#98fb98");
     ("文档", "#fffacd"); ("椭圆", "#dda0dd")].

(** The entries of a [delete_items] record. *)
Record ConnData := mkConnData {
  cd_start_node_id : nat;
  cd_end_node_id : nat;
  cd_color : string
}.

Inductive ItemData :=
| NodeData (node_id : nat) (type text : string) (pos : Z * Z)
           (node_color : string) (connections : list ConnData)
| ConnectionData (c : ConnData).

(** The entries of a [change_line_style] record. *)
Record StyleData := mkStyleData {
  connection_id : nat;
  old_color : string;
  old_width : Z;
  new_color : string;
  new_width : Z
}.

(** A history record: the dictionaries passed to [addHistory], by their
    ["type"]. *)
Inductive HistoryRecord :=
| add_node (node_id : nat) (type text : string) (pos : Z * Z)
           (parent_node_id : option nat)
| delete_items (items : list ItemData)
| change_line_style (connections : list StyleData).

(** What the status bar shows. *)
Inductive message :=
| msg_ready
| msg_nothing_to_undo
| msg_nothing_to_redo
| msg_undone
| msg_redone
| msg_new
| msg_opened (path : string)
| msg_saved (path : string).

(** The [QMessageBox.critical] boxes of the open and save paths. *)
Inductive dialog :=
| critical_open (e : exn)
| critical_save (e : exn).

(** The state of a [FlowchartEditor] window.  [nodes] holds the node
    objects, [items] is [self.scene.items()] (the item added last comes
    first), [next_id] the identity of the next object created. *)
Record FlowchartEditor := mkEditor {
  nodes : store;
  items : scene;
  next_id : nat;
  current_file : option string;
  is_modified : bool;
  history : list HistoryRecord;
  history_index : Z;
  central_index : nat;
  status : message;
  dialogs : list dialog
}.

Definition set_nodes (h : store) (e : FlowchartEditor) : FlowchartEditor :=
  mkEditor h (items e) (next_id e) (current_file e) (is_modified e)
           (history e) (history_index e) (central_index e) (status e) (dialogs e).

Definition set_items (sc : scene) (e : FlowchartEditor) : FlowchartEditor :=
  mkEditor (nodes e) sc (next_id e) (current_file e) (is_modified e)
           (history e) (history_index e) (central_index e) (status e) (dialogs e).

Definition set_next_id (n : nat) (e : FlowchartEditor) : FlowchartEditor :=
  mkEditor (nodes e) (items e) n (current_file e) (is_modified e)
           (history e) (history_index e) (central_index e) (status e) (dialogs e).

Definition set_current_file (f : option string) (e : FlowchartEditor)
    : FlowchartEditor :=
  mkEditor (nodes e) (items e) (next_id e) f (is_modified e)
           (history e) (history_index e) (central_index e) (status e) (dialogs e).

(** [setModified] (the window title is not modelled). *)
Definition setModified (b : bool) (e : FlowchartEditor) : FlowchartEditor :=
  mkEditor (nodes e) (items e) (next_id e) (current_file e) b
           (history e) (history_index e) (central_index e) (status e) (dialogs e).

Definition set_history (l : list HistoryRecord) (e : FlowchartEditor)
    : FlowchartEditor :=
  mkEditor (nodes e) (items e) (next_id e) (current_file e) (is_modified e)
           l (history_index e) (central_index e) (status e) (dialogs e).

Definition set_history_index (i : Z) (e : FlowchartEditor) : FlowchartEditor :=
  mkEditor (nodes e) (items e) (next_id e) (current_file e) (is_modified e)
           (history e) i (central_index e) (status e) (dialogs e).

Definition set_central_index (i : nat) (e : FlowchartEditor) : FlowchartEditor :=
  mkEditor (nodes e) (items e) (next_id e) (current_file e) (is_modified e)
           (history e) (history_index e) i (status e) (dialogs e).

(** [self.statusBar().showMessage] *)
Definition showMessage (m : message) (e : FlowchartEditor) : FlowchartEditor :=
  mkEditor (nodes e) (items e) (next_id e) (current_file e) (is_modified e)
           (history e) (history_index e) (central_index e) m (dialogs e).

Definition show_dialog (d : dialog) (e : FlowchartEditor) : FlowchartEditor :=
  mkEditor (nodes e) (items e) (next_id e) (current_file e) (is_modified e)
           (history e) (history_index e) (central_index e) (status e)
           (dialogs e ++ [d]).

(** [self.scene.addItem] *)
Definition addItem (it : item) (e : FlowchartEditor) : FlowchartEditor :=
  set_items (it :: items e) e.

(** The window as [__init__] leaves it. *)
Definition initial : FlowchartEditor :=
  mkEditor (fun _ => mkNode "" "" 0 0 120 "" true None None) [] 1 None false
           [] (-1) 0 msg_ready [].

(** [self.max_history] *)
Definition max_history : nat := 20.

(** [l[:k]] on a Python list: a negative [k] counts from the end. *)
Definition slice_to {A} (k : Z) (l : list A) : list A :=
  if bool_decide (0 <= k)%Z then take (Z.to_nat k) l
  else take (Z.to_nat (Z.of_nat (length l) + k)) l.

(** [l[i]] on a Python list: a negative [i] counts from the end, an
    index out of range raises [IndexError]. *)
Definition getitem {A} (l : list A) (i : Z) : outcome A :=
  let j := if bool_decide (0 <= i)%Z then i else (Z.of_nat (length l) + i)%Z in
  if bool_decide (0 <= j)%Z then
    match l !! Z.to_nat j with
    | Some x => Returned x
    | None => Raised IndexError
    end
  else Raised IndexError.

(** [FlowchartEditor.addHistory] *)
Definition addHistory (data : HistoryRecord) (e : FlowchartEditor)
    : FlowchartEditor :=
  let h1 := if bool_decide (history_index e < Z.of_nat (length (history e)) - 1)%Z
            then slice_to (history_index e + 1) (history e)
            else history e in
  let h2 := h1 ++ [data] in
  let h3 := if bool_decide (max_history < length h2) then drop 1 h2 else h2 in
  set_history_index (Z.of_nat (length h3) - 1) (set_history h3 e).

(** Statements of a method: they change the editor and return or raise;
    what was changed before an exception stays changed. *)
Definition M (A : Type) : Type := FlowchartEditor -> FlowchartEditor * outcome A.

Definition ret {A} (a : A) : M A := fun e => (e, Returned a).

Definition raise {A} (x : exn) : M A := fun e => (e, Raised x).

Definition bind {A B} (m : M A) (k : A -> M B) : M B :=
  fun e => match m e with
           | (e1, Returned a) => k a e1
           | (e1, Raised x) => (e1, Raised x)
           end.

Definition modify (f : FlowchartEditor -> FlowchartEditor) : M unit :=
  fun e => (f e, Returned tt).

Definition and_then {A} (m : M unit) (k : M A) : M A := bind m (fun _ => k).

(** [for x in l: body(x)] *)
Fixpoint for_each {A} (l : list A) (body : A -> M unit) : M unit :=
  match l with
  | [] => ret tt
  | x :: rest => and_then (body x) (for_each rest body)
  end.

(** [try: m  except Exception as e: handler(e)] *)
Definition try_except (m : M unit) (handler : exn -> M unit) : M unit :=
  fun e => match m e with
           | (e1, Returned a) => (e1, Returned a)
           | (e1, Raised x) => handler x e1
           end.

(** [FlowchartEditor.newFlowchart]; [confirm] answers the question asked
    when there are unsaved changes.  The class has no [saveFlowchart], so
    answering [Save] raises. *)
Definition newFlowchart (ask_save : bool) (confirm : StandardButton) : M bool :=
  fun e =>
    let ask := ask_save && is_modified e && negb (bool_decide (items e = [])) in
    if ask && bool_decide (confirm = Save) then
      (e, Raised (AttributeError "saveFlowchart"))
    else if ask && bool_decide (confirm = Cancel) then (e, Returned false)
    else
      (showMessage msg_new
         (set_central_index 1
            (setModified false
               (set_history_index (-1)
                  (set_history [] (set_current_file None (set_items [] e)))))),
       Returned true).

Section Collaborators.

(** [QFontMetrics(font).width(text)] *)
Variable metrics_width : string -> Z.

(** The colour a new connection gets from the hash of its end points. *)
Variable connection_color : node -> node -> string.

(** The answer to the confirmation dialog of [deleteNode], by the node
    it asks about. *)
Variable reply : node -> StandardButton.

(** The stack depth allowed to [getAllChildNodes]. *)
Variable fuel : nat.

(** [FlowchartNode(node_type, text, pos)] *)
Definition new_FlowchartNode (type text : string) (pos : Z * Z)
    : outcome FlowchartNode :=
  match NODE_TYPES !! type with
  | None => Raised (KeyError (KStr type))
  | Some c =>
      Returned (mkNode type text pos.1 pos.2
                       (Z.max 120 (metrics_width text + 40)) c true None None)
  end.

(** Create a node object and add it to the scene; [node_color] is the
    colour assigned between the two, if any.  The identity of the new
    object is taken from a counter, so that no two objects ever share one;
    Python's [id()] only tells apart the objects that are alive, and may
    give a new object the identity of one that was freed. *)
Definition create_node (type text : string) (pos : Z * Z)
    (node_color : option string) : M node :=
  fun e =>
    match new_FlowchartNode type text pos with
    | Raised x => (e, Raised x)
    | Returned a =>
        let n := next_id e in
        let a := match node_color with
                 | Some c => mkNode (node_type a) (node_text a) (pos_x a) (pos_y a)
                                    (width a) c (visible a) (is_folded a)
                                    (children_visibility a)
                 | None => a
                 end in
        (addItem (INode n) (set_nodes (set_attr (nodes e) n a) (set_next_id (S n) e)),
         Returned n)
    end.

(** [conn = FlowchartConnection(start, end)], an optional colour put on
    it, then [self.scene.addItem(conn)]. *)
Definition create_connection (s t : node) (conn_color : option string) : M unit :=
  modify (fun e =>
    let c := mkConn (next_id e) s t
                    (default (connection_color s t) conn_color) 2 true in
    addItem (IConn c) (set_next_id (S (next_id e)) e)).

(** [for item in self.scene.items(): if isinstance(item, FlowchartNode)
    and id(item) == node_id: item.deleteNode(); break] *)
Definition find_and_delete (node_id : nat) : M unit :=
  fun e =>
    if in_scene (items e) node_id then
      match Graph.deleteNode fuel (reply node_id) (items e) node_id with
      | Returned sc => (set_items sc e, Returned tt)
      | Raised x => (e, Raised x)
      end
    else (e, Returned tt).

(** [FlowchartConnection.deleteConnection] on the first connection of
    the scene between the two recorded identities. *)
Fixpoint remove_first_connection (s t : nat) (sc : scene) : scene :=
  match sc with
  | [] => []
  | IConn c :: rest =>
      if decide (start_node c = s /\ end_node c = t) then rest
      else IConn c :: remove_first_connection s t rest
  | it :: rest => it :: remove_first_connection s t rest
  end.

(** The styling loop shared by undo and redo of [change_line_style]: the
    first connection with the recorded identity gets the colour and the
    width. *)
Fixpoint restyle (cid : nat) (c : string) (w : Z) (sc : scene) : scene :=
  match sc with
  | [] => []
  | IConn k :: rest =>
      if decide (conn_id k = cid)
      then IConn (mkConn (conn_id k) (start_node k) (end_node k) c w
                         (conn_visible k)) :: rest
      else IConn k :: restyle cid c w rest
  | it :: rest => it :: restyle cid c w rest
  end.

(** The first loop of the [delete_items] branch of [undo]: the recorded
    nodes are created anew; [restored] maps the recorded identity to the
    new node. *)
Fixpoint restore_nodes (its : list ItemData) (restored : gmap nat node)
    : M (gmap nat node) :=
  match its with
  | [] => ret restored
  | NodeData node_id type text pos node_color _ :: rest =>
      bind (create_node type text pos (Some node_color))
           (fun n => restore_nodes rest (<[node_id := n]> restored))
  | ConnectionData _ :: rest => restore_nodes rest restored
  end.

(** [if start_node and end_node and start_node != end_node: ...] *)
Definition reconnect (s t : option node) (c : string) : M unit :=
  match s, t with
  | Some s, Some t => if decide (s = t) then ret tt
                      else create_connection s t (Some c)
  | _, _ => ret tt
  end.

(** The second loop of the [delete_items] branch of [undo]. *)
Definition restore_connections (its : list ItemData) (restored : gmap nat node)
    : M unit :=
  for_each its (fun it =>
    match it with
    | NodeData _ _ _ _ _ conns =>
        for_each conns (fun cd =>
          reconnect (restored !! cd_start_node_id cd)
                    (restored !! cd_end_node_id cd) (cd_color cd))
    | ConnectionData cd =>
        fun e =>
          let scene_node i := if in_scene (items e) i then Some i else None in
          reconnect (scene_node (cd_start_node_id cd))
                    (scene_node (cd_end_node_id cd)) (cd_color cd) e
    end).

(** The branches of [undo], by the type of the record. *)
Definition undo_record (data : HistoryRecord) : M unit :=
  match data with
  | add_node node_id _ _ _ _ => find_and_delete node_id
  | delete_items its =>
      bind (restore_nodes its ∅) (restore_connections its)
  | change_line_style cs =>
      for_each cs (fun cd => modify (fun e =>
        set_items (restyle (connection_id cd) (old_color cd)
                           (old_width cd) (items e)) e))
  end.

(** [FlowchartEditor.undo] *)
Definition undo : M unit :=
  fun e =>
    if bool_decide (history_index e < 0)%Z then
      (showMessage msg_nothing_to_undo e, Returned tt)
    else
      match getitem (history e) (history_index e) with
      | Raised x => (e, Raised x)
      | Returned data =>
          and_then (undo_record data)
          (and_then (modify (fun e => set_history_index (history_index e - 1) e))
          (and_then (modify (setModified true))
               (modify (showMessage msg_undone)))) e
      end.

(** The branches of [redo], by the type of the record. *)
Definition redo_record (data : HistoryRecord) : M unit :=
  match data with
  | add_node _ type text pos parent =>
      bind (create_node type text pos None) (fun n =>
        match parent with
        | Some p =>
            fun e =>
              if negb (bool_decide (p = 0)) && in_scene (items e) p
              then create_connection p n None e
              else (e, Returned tt)
        | None => ret tt
        end)
  | delete_items its =>
      for_each its (fun it =>
        match it with
        | NodeData node_id _ _ _ _ _ => find_and_delete node_id
        | ConnectionData cd =>
            modify (fun e =>
              set_items (remove_first_connection
                           (cd_start_node_id cd) (cd_end_node_id cd)
                           (items e)) e)
        end)
  | change_line_style cs =>
      for_each cs (fun cd => modify (fun e =>
        set_items (restyle (connection_id cd) (new_color cd)
                           (new_width cd) (items e)) e))
  end.

(** [FlowchartEditor.redo] (the class defines it twice, with the same
    body). *)
Definition redo : M unit :=
  fun e =>
    if bool_decide (Z.of_nat (length (history e)) - 1 <= history_index e)%Z then
      (showMessage msg_nothing_to_redo e, Returned tt)
    else
      let e := set_history_index (history_index e + 1) e in
      match getitem (history e) (history_index e) with
      | Raised x => (e, Raised x)
      | Returned data =>
          and_then (redo_record data)
          (and_then (modify (setModified true))
               (modify (showMessage msg_redone))) e
      end.

End Collaborators.

(** The reachable states of the log: the index lies between -1 and the
    last entry, and there are at most [max_history] entries. *)
Definition history_ok (e : FlowchartEditor) : Prop :=
  (-1 <= history_index e < Z.of_nat (length (history e)))%Z /\
  length (history e) <= max_history.

(** Nothing but [addHistory], the index moves of [undo] and [redo], and
    the resets of new and open touches the log. *)
Definition keeps_log {A} (m : M A) : Prop :=
  forall e, history (m e).1 = history e /\
            history_index (m e).1 = history_index e.

(** A statement that leaves the log within its bounds. *)
Definition keeps_ok {A} (m : M A) : Prop :=
  forall e, history_ok e -> history_ok (m e).1.

(** The document and the log are the same in two states of the editor
    (the status bar may differ). *)
Definition same_document (e e' : FlowchartEditor) : Prop :=
  nodes e' = nodes e /\ items e' = items e /\ next_id e' = next_id e /\
  current_file e' = current_file e /\ is_modified e' = is_modified e /\
  history e' = history e /\ history_index e' = history_index e /\
  dialogs e' = dialogs e.

(** The editor after the user added one node, of identity 5. *)
Definition one_node : FlowchartEditor :=
  mkEditor (fun _ => mkNode "主要分支" "idea" 250 250 120 "#87cefa" true None None)
           [INode 5] 6 None true
           [add_node 5 "主要分支" "idea" (250, 250)%Z None] 0 1 msg_ready [].

(** Collaborators for the examples: seven pixels a character, one
    colour for every new connection. *)
Definition text_metrics (text : string) : Z := (7 * Z.of_nat (String.length text))%Z.

Definition hashed_color (s t : node) : string := "#e6a173".

(** The record of the [k]-th node added by the user. *)
Definition added (k : nat) : HistoryRecord :=
  add_node k "主要分支" (pretty k) (250, 250)%Z None.

End Editor.

(** ** Persistence: save and open *)

Module Persist.
Import Editor.

(** What [json.load] returns and [json.dump] takes.  A dictionary is the
    list of its entries, without repeated keys.  Coordinates are
    integers here: save and open only copy them.  The text of the file
    is not modelled: what [json.dump] wrote is what [json.load] reads
    back. *)
Inductive json :=
| JNull
| JBool (b : bool)
| JNum (z : Z)
| JStr (s : string)
| JArr (l : list json)
| JObj (l : list (string * json)).

(** [k in d] and [d[k]] on a parsed value. *)
Fixpoint assoc (k : string) (l : list (string * json)) : option json :=
  match l with
  | [] => None
  | (k', v) :: rest => if decide (k' = k) then Some v else assoc k rest
  end.

Definition subscript (j : json) (k : string) : outcome json :=
  match j with
  | JObj l => match assoc k l with
              | Some v => Returned v
              | None => Raised (KeyError (KStr k))
              end
  | _ => Raised TypeError
  end.

Definition contains (j : json) (k : string) : bool :=
  match j with
  | JObj l => bool_decide (is_Some (assoc k l))
  | _ => false
  end.

(** [for x in j]: a list gives its elements, a dictionary its keys, a
    string its characters; nothing else can be iterated. *)
Definition iter (j : json) : outcome (list json) :=
  match j with
  | JArr l => Returned l
  | JObj l => Returned (map (fun p => JStr p.1) l)
  | JStr s => Returned (map (fun ch => JStr (String ch EmptyString))
                            (String.list_ascii_of_string s))
  | _ => Raised TypeError
  end.

(** Values of the wrong type make the Qt constructors raise.
    Coordinates are kept as the integers of the file; [QPointF] holds
    doubles, which round integers beyond 2^53. *)
Definition as_number (j : json) : outcome Z :=
  match j with
  | JNum z => Returned z
  | JBool b => Returned (if b then 1 else 0)%Z
  | _ => Raised TypeError
  end.

Definition as_str (j : json) : outcome string :=
  match j with
  | JStr s => Returned s
  | _ => Raised TypeError
  end.

(** The value as a dictionary key; lists and dictionaries cannot be
    hashed. *)
Definition to_key (j : json) : outcome pykey :=
  match j with
  | JNull => Returned KNone
  | JBool b => Returned (KNum (if b then 1 else 0))
  | JNum z => Returned (KNum z)
  | JStr s => Returned (KStr s)
  | JArr _ | JObj _ => Raised TypeError
  end.

(** The [nodes] dictionary of the open path. *)
Fixpoint dict_get (k : pykey) (d : list (pykey * node)) : option node :=
  match d with
  | [] => None
  | (k', n) :: rest => if decide (k' = k) then Some n else dict_get k rest
  end.

Fixpoint dict_put (k : pykey) (n : node) (d : list (pykey * node))
    : list (pykey * node) :=
  match d with
  | [] => [(k, n)]
  | (k', n') :: rest =>
      if decide (k' = k) then (k, n) :: rest else (k', n') :: dict_put k n rest
  end.

(** *** Save *)

Definition node_record (id : string) (a : FlowchartNode) : json :=
  JObj [("id", JStr id); ("type", JStr (node_type a)); ("text", JStr (node_text a));
        ("x", JNum (pos_x a)); ("y", JNum (pos_y a)); ("color", JStr (color a))].

Definition conn_record (s t : string) (c : FlowchartConnection) : json :=
  JObj [("start", JStr s); ("end", JStr t); ("color", JStr (conn_color c));
        ("width", JNum (pen_width c))].

(** One turn of the first loop of [save_flowchart]; the state is
    [node_id], [node_to_id] and [data["nodes"]]. *)
Definition collect_node (h : store) (st : nat * gmap node string * list json)
    (it : item) : nat * gmap node string * list json :=
  match it with
  | INode n =>
      let '(node_id, node_to_id, out) := st in
      let node_id := S node_id in
      (node_id, <[n := pretty node_id]> node_to_id,
       out ++ [node_record (pretty node_id) (h n)])
  | _ => st
  end.

(** One turn of the second loop; [out] is [data["connections"]]. *)
Definition collect_conn (node_to_id : gmap node string) (out : list json)
    (it : item) : list json :=
  match it with
  | IConn c =>
      match node_to_id !! start_node c, node_to_id !! end_node c with
      | Some s, Some t => out ++ [conn_record s t c]
      | _, _ => out
      end
  | _ => out
  end.

(** The [data] that [save_flowchart] hands to [json.dump]. *)
Definition collect_data (h : store) (sc : scene) : json :=
  let '(_, node_to_id, ns) := foldl (collect_node h) (0, ∅, []) sc in
  JObj [("nodes", JArr ns);
        ("connections", JArr (foldl (collect_conn node_to_id) [] sc))].

Definition ends_with (suffix s : string) : bool :=
  String.prefix (String.rev suffix) (String.rev s).

(** The [try] block of [save_flowchart], for a current file [path];
    [write] is what opening the file for writing and [json.dump] do.
    The result is the value returned and the file written. *)
Definition save_to (path : string) (write : outcome unit)
    : M (bool * option (string * json)) :=
  fun e =>
    let data := collect_data (nodes e) (items e) in
    match write with
    | Returned _ =>
        (showMessage (msg_saved path) (setModified false e),
         Returned (true, Some (path, data)))
    | Raised x => (show_dialog (critical_save x) e, Returned (false, None))
    end.

(** [save_functions.save_flowchart_as]; [dialog_path] is what the file
    dialog returns, empty when it is cancelled. *)
Definition save_flowchart_as (dialog_path : string) (write : outcome unit)
    : M (bool * option (string * json)) :=
  fun e =>
    if bool_decide (dialog_path = "") then (e, Returned (false, None))
    else
      let file_path := if ends_with ".flow" dialog_path then dialog_path
                       else String.append dialog_path ".flow" in
      save_to file_path write (set_current_file (Some file_path) e).

(** [save_functions.save_flowchart] *)
Definition save_flowchart (dialog_path : string) (write : outcome unit)
    : M (bool * option (string * json)) :=
  fun e =>
    match current_file e with
    | None => save_flowchart_as dialog_path write e
    | Some path =>
        if bool_decide (path = "") then save_flowchart_as dialog_path write e
        else save_to path write e
    end.

(** *** Open *)

Definition lift {A} (o : outcome A) : M A := fun e => (e, o).

Section Collaborators.

Variable metrics_width : string -> Z.
Variable connection_color : node -> node -> string.

(** [NODE_TYPES[node_type]] looks the parsed value up as a key. *)
Definition type_key (type : json) : outcome string :=
  match type with
  | JStr t => Returned t
  | _ => match to_key type with
         | Returned k => Raised (KeyError k)
         | Raised err => Raised err
         end
  end.

(** [if "color" in node_data: node.color = QColor(node_data["color"])].
    The colour is kept as the string of the file, and only a string is
    taken; [QColor] also takes a number, and turns a colour name, or a
    string that names no colour, into its own [#rrggbb]. *)
Definition loaded_color (node_data : json) : outcome (option string) :=
  if contains node_data "color" then
    match subscript node_data "color" with
    | Raised err => Raised err
    | Returned c => match as_str c with
                    | Raised err => Raised err
                    | Returned c => Returned (Some c)
                    end
    end
  else Returned None.

(** [FlowchartNode(type, text, pos)] on parsed values, the optional
    colour, and [self.scene.addItem(node)]. *)
Definition add_loaded_node (type text : json) (x y : Z) (node_data : json)
    : M node :=
  bind (lift (as_str text)) (fun text =>
  bind (lift (type_key type)) (fun t =>
  bind (lift (new_FlowchartNode metrics_width t text (x, y))) (fun _ =>
  bind (lift (loaded_color node_data)) (fun c =>
  create_node metrics_width t text (x, y) c)))).

(** One turn of the node loop of [FlowchartEditor.openFlowchart]. *)
Definition load_node (loaded : list (pykey * node)) (node_data : json)
    : M (list (pykey * node)) :=
  bind (lift (subscript node_data "pos_x")) (fun x =>
  bind (lift (subscript node_data "pos_y")) (fun y =>
  bind (lift (as_number x)) (fun x =>
  bind (lift (as_number y)) (fun y =>
  bind (lift (subscript node_data "type")) (fun type =>
  bind (lift (subscript node_data "text")) (fun text =>
  bind (add_loaded_node type text x y node_data) (fun n =>
  bind (lift (subscript node_data "id")) (fun id =>
  bind (lift (to_key id)) (fun k =>
  ret (dict_put k n loaded)))))))))).

Fixpoint load_nodes (l : list json) (loaded : list (pykey * node))
    : M (list (pykey * node)) :=
  match l with
  | [] => ret loaded
  | node_data :: rest =>
      bind (load_node loaded node_data) (load_nodes rest)
  end.

(** [key in nodes], on a parsed value. *)
Definition lookup_loaded (loaded : list (pykey * node)) (j : json)
    : outcome (option node) :=
  match to_key j with
  | Returned k => Returned (dict_get k loaded)
  | Raised err => Raised err
  end.

(** The colour and the width put on a loaded connection by
    [FlowchartEditor.openFlowchart]: the width is only looked at when
    there is a colour.  The width is kept as the integer of the file;
    [QPen.setWidth] leaves the pen as it is for a width below 0 or above
    32767, and raises beyond the range of a C int. *)
Definition loaded_style (s t : node) (conn_data : json) : outcome (string * Z) :=
  if contains conn_data "color" then
    match subscript conn_data "color" with
    | Raised err => Raised err
    | Returned c =>
        match as_str c with
        | Raised err => Raised err
        | Returned c =>
            if contains conn_data "width" then
              match subscript conn_data "width" with
              | Raised err => Raised err
              | Returned w =>
                  match as_number w with
                  | Raised err => Raised err
                  | Returned w => Returned (c, w)
                  end
              end
            else Returned (c, 2%Z)
        end
    end
  else Returned (connection_color s t, 2%Z).

(** One turn of the connection loop of [FlowchartEditor.openFlowchart]. *)
Definition load_connection (loaded : list (pykey * node)) (conn_data : json)
    : M unit :=
  bind (lift (subscript conn_data "start_id")) (fun s =>
  bind (lift (lookup_loaded loaded s)) (fun s =>
  match s with
  | None => ret tt
  | Some s =>
      bind (lift (subscript conn_data "end_id")) (fun t =>
      bind (lift (lookup_loaded loaded t)) (fun t =>
      match t with
      | None => ret tt
      | Some t =>
          bind (lift (loaded_style s t conn_data)) (fun cw =>
          modify (fun e =>
            addItem (IConn (mkConn (next_id e) s t cw.1 cw.2 true))
                    (set_next_id (S (next_id e)) e)))
      end))
  end)).

(** The [try] block of [FlowchartEditor.openFlowchart]; [contents] is
    what opening the file and [json.load] give. *)
Definition open_body (file_path : string) (contents : outcome json) : M unit :=
  and_then (modify (set_items []))
  (bind (lift contents) (fun data =>
   and_then (modify (set_current_file (Some file_path)))
  (bind (lift (subscript data "nodes")) (fun l =>
   bind (lift (iter l)) (fun l =>
   bind (load_nodes l []) (fun loaded =>
   bind (lift (subscript data "connections")) (fun l =>
   bind (lift (iter l)) (fun l =>
   and_then (for_each l (load_connection loaded))
  (and_then (modify (fun e => set_history_index (-1) (set_history [] e)))
  (and_then (modify (setModified false))
  (and_then (modify (set_central_index 1))
            (modify (showMessage (msg_opened file_path)))))))))))))).

(** [FlowchartEditor.openFlowchart], the method of the class.  [confirm]
    answers the question asked when there are unsaved changes,
    [file_path] is what the file dialog returns.  The class has no
    [saveFlowchart] (it is defined after the module-level function of
    the same file, inside it), so answering [Save] raises. *)
Definition openFlowchart (confirm : StandardButton) (file_path : string)
    (contents : outcome json) : M unit :=
  fun e =>
    let ask := is_modified e && negb (bool_decide (items e = [])) in
    if ask && bool_decide (confirm = Save) then
      (e, Raised (AttributeError "saveFlowchart"))
    else if ask && bool_decide (confirm = Cancel) then (e, Returned tt)
    else if bool_decide (file_path = "") then (e, Returned tt)
    else
      try_except (open_body file_path contents)
                 (fun err => modify (show_dialog (critical_open err))) e.

(** The module-level function [openFlowchart] at the end of
    [python-flowchart-editor.py], which no caller reaches: it reads the
    keys that [save_flowchart] writes, and parses the file before it
    clears the scene. *)
Definition load_node_function (loaded : list (pykey * node)) (node_data : json)
    : M (list (pykey * node)) :=
  bind (lift (subscript node_data "type")) (fun type =>
  bind (lift (subscript node_data "text")) (fun text =>
  bind (lift (subscript node_data "x")) (fun x =>
  bind (lift (subscript node_data "y")) (fun y =>
  bind (lift (as_number x)) (fun x =>
  bind (lift (as_number y)) (fun y =>
  bind (add_loaded_node type text x y node_data) (fun n =>
  bind (lift (subscript node_data "id")) (fun id =>
  bind (lift (to_key id)) (fun k =>
  ret (dict_put k n loaded)))))))))).

Fixpoint load_nodes_function (l : list json) (loaded : list (pykey * node))
    : M (list (pykey * node)) :=
  match l with
  | [] => ret loaded
  | node_data :: rest =>
      bind (load_node_function loaded node_data) (load_nodes_function rest)
  end.

(** Here the width is looked at whether or not there is a colour. *)
Definition loaded_style_function (s t : node) (conn_data : json)
    : outcome (string * Z) :=
  match (if contains conn_data "color" then
           match subscript conn_data "color" with
           | Raised err => Raised err
           | Returned c => as_str c
           end
         else Returned (connection_color s t)) with
  | Raised err => Raised err
  | Returned c =>
      if contains conn_data "width" then
        match subscript conn_data "width" with
        | Raised err => Raised err
        | Returned w => match as_number w with
                        | Raised err => Raised err
                        | Returned w => Returned (c, w)
                        end
        end
      else Returned (c, 2%Z)
  end.

Definition load_connection_function (loaded : list (pykey * node))
    (conn_data : json) : M unit :=
  bind (lift (subscript conn_data "start")) (fun s =>
  bind (lift (lookup_loaded loaded s)) (fun s =>
  match s with
  | None => ret tt
  | Some s =>
      bind (lift (subscript conn_data "end")) (fun t =>
      bind (lift (lookup_loaded loaded t)) (fun t =>
      match t with
      | None => ret tt
      | Some t =>
          bind (lift (loaded_style_function s t conn_data)) (fun cw =>
          modify (fun e =>
            addItem (IConn (mkConn (next_id e) s t cw.1 cw.2 true))
                    (set_next_id (S (next_id e)) e)))
      end))
  end)).

Definition open_body_function (file_path : string) (contents : outcome json)
    : M unit :=
  bind (lift contents) (fun data =>
  and_then (modify (set_items []))
  (bind (lift (subscript data "nodes")) (fun l =>
   bind (lift (iter l)) (fun l =>
   bind (load_nodes_function l []) (fun loaded =>
   bind (lift (subscript data "connections")) (fun l =>
   bind (lift (iter l)) (fun l =>
   and_then (for_each l (load_connection_function loaded))
  (and_then (modify (set_current_file (Some file_path)))
  (and_then (modify (fun e => set_history_index (-1) (set_history [] e)))
  (and_then (modify (setModified false))
  (and_then (modify (set_central_index 1))
            (modify (showMessage (msg_opened file_path)))))))))))))).

Definition openFlowchart_function (confirm : StandardButton) (file_path : string)
    (contents : outcome json) : M bool :=
  fun e =>
    let ask := is_modified e && negb (bool_decide (items e = [])) in
    if ask && bool_decide (confirm = Save) then
      (e, Raised (AttributeError "saveFlowchart"))
    else if ask && bool_decide (confirm = Cancel) then (e, Returned false)
    else if bool_decide (file_path = "") then (e, Returned false)
    else
      match open_body_function file_path contents e with
      | (e1, Returned _) => (e1, Returned true)
      | (e1, Raised err) => (show_dialog (critical_open err) e1, Returned false)
      end.

End Collaborators.

(** [isinstance(item, FlowchartNode)] *)
Definition is_FlowchartNode (it : item) : bool :=
  match it with
  | INode _ => true
  | _ => false
  end.

(** A document with two nodes and a connection between them, saved in
    [map.flow]. *)
Definition two_nodes : FlowchartEditor :=
  mkEditor (fun n => if decide (n = 1)
                     then mkNode "中心主题" "plan" 0 0 120 "#00b097" true None None
                     else mkNode "主要分支" "idea" 200 0 120 "#87cefa" true None None)
           [IConn (mkConn 3 1 2 "#e6a173" 2 true); INode 2; INode 1] 4
           (Some "map.flow") true [added 1; added 2] 1 1 msg_ready [].

End Persist.

(** ** Fold engine: double click and expand all *)

Module FoldMore.
Import Fold Editor.

(** [advanced.extend_node_mouse_double_click_event]: Ctrl and double
    click folds or unfolds one level, without a question.  The main window
    always has its [shortcut_manager]. *)
Definition extend_node_mouse_double_click_event (setBrush : outcome unit)
    (n : node) (w : world) : world * outcome unit :=
  match Graph.get_child_nodes w.2 n with
  | [] => (w, Returned tt)
  | child_nodes =>
      if default false (is_folded (w.1 n))
      then _expand_node setBrush n child_nodes w
      else _collapse_node setBrush n child_nodes w
  end.

(** One turn of the loop of [FlowchartNode.expandAllLevels]. *)
Definition expand_descendant (h : store) (child : node) : store :=
  let h1 := set_attr h child (set_visible true (h child)) in
  match is_folded (h1 child) with
  | Some _ => set_attr h1 child (set_is_folded false (h1 child))
  | None => h1
  end.

(** [FlowchartNode.expandAllLevels].  [self.scene().update()] raises on a
    node that is in no scene. *)
Definition expandAllLevels (fuel : nat) (n : node) : M unit :=
  fun e =>
    match Graph.getAllChildNodes fuel (items e) n with
    | None => (e, Raised RecursionError)
    | Some all_descendants =>
        let h1 := foldl expand_descendant (nodes e) all_descendants in
        let h2 := set_attr h1 n (set_is_folded false (h1 n)) in
        let e1 := set_nodes h2 e in
        if in_scene (items e) n then (setModified true e1, Returned tt)
        else (e1, Raised (AttributeError "update"))
    end.

End FoldMore.

(** ** Line style *)

Module Style.
Import Editor.

(** The connection object of identity [cid], as the scene has it. *)
Fixpoint find_connection (cid : nat) (sc : scene) : option FlowchartConnection :=
  match sc with
  | [] => None
  | IConn k :: rest =>
      if decide (conn_id k = cid) then Some k else find_connection cid rest
  | _ :: rest => find_connection cid rest
  end.

(** One turn of the loop of [setLineStyle] over the selected
    connections, given by their identities: the style the connection has
    is recorded, then the new one is put on it.  The selected items are
    items of the scene. *)
Definition style_one (c : string) (w : Z) (st : scene * list StyleData)
    (cid : nat) : scene * list StyleData :=
  match find_connection cid st.1 with
  | Some k =>
      (restyle cid c w st.1,
       st.2 ++ [mkStyleData cid (conn_color k) (pen_width k) c w])
  | None => st
  end.

(** The accepted branch of [FlowchartEditor.setLineStyle], for the
    colour and the width chosen in the dialog: the loop, [addHistory] and
    [setModified(True)].  (The text then put on the status bar is not
    among the messages modelled.) *)
Definition apply_line_style (selected : list nat) (c : string) (w : Z)
    (e : FlowchartEditor) : FlowchartEditor :=
  let st := foldl (style_one c w) (items e, []) selected in
  setModified true (addHistory (change_line_style st.2) (set_items st.1 e)).

End Style.

(** ** The window title *)

Module Title.

(** What [FlowchartEditor.setModified] does to the window title:
    [title.endswith('*')], [f"{title} *"], [title.endswith(' *')] and
    [title[:-2]]. *)
Definition setModified_title (modified : bool) (title : string) : string :=
  if modified && negb (Persist.ends_with "*" title) then title +:+ " *"
  else if negb modified && Persist.ends_with " *" title
       then String.substring 0 (String.length title - 2) title
       else title.

End Title.

(** ** Automatic layout *)

Module AutoLayout.
Import Layout Qcanon.









End AutoLayout.

(** ** Invariants of the scene *)

Module Inv.
Import Editor.

(** No connection of the scene hangs loose: both its ends are nodes of
    the scene. *)
Definition attached (sc : scene) : bool :=
  forallb (fun it => match it with
                     | IConn c => in_scene sc (start_node c)
                                  && in_scene sc (end_node c)
                     | _ => true
                     end) sc.

(** A statement run from a state in [P] ends in a state in [Q] when it
    returns and in a state in [R] when it raises. *)
Definition triple {A} (P : FlowchartEditor -> Prop) (m : M A)
    (Q : A -> FlowchartEditor -> Prop) (R : FlowchartEditor -> Prop) : Prop :=
  forall e, P e -> match m e with
                   | (e1, Returned a) => Q a e1
                   | (e1, Raised _) => R e1
                   end.

(** The nodes that the open path has met are in the scene, and no
    connection hangs loose. *)
Definition loaded_ok (loaded : list (pykey * node)) (e : FlowchartEditor) : Prop :=
  attached (items e) = true /\
  forall k n, Persist.dict_get k loaded = Some n -> INode n ∈ items e.

(** An entry of a [delete_items] record for a connection that was
    selected and deleted by itself; a connection joins two different
    nodes. *)
Definition deleted_connection (it : ItemData) : Prop :=
  match it with
  | ConnectionData cd => cd_start_node_id cd <> cd_end_node_id cd
  | NodeData _ _ _ _ _ _ => False
  end.

(** The start, the end and the colour of the recorded connections whose
    two ends are nodes of the scene. *)
Definition restorable (sc : scene) (its : list ItemData)
    : list (nat * nat * string) :=
  omap (fun it => match it with
                  | ConnectionData cd =>
                      if in_scene sc (cd_start_node_id cd)
                         && in_scene sc (cd_end_node_id cd)
                      then Some (cd_start_node_id cd, cd_end_node_id cd, cd_color cd)
                      else None
                  | NodeData _ _ _ _ _ _ => None
                  end) its.

(** The two-node document after its connection was selected and
    deleted. *)
Definition unlinked : FlowchartEditor :=
  mkEditor (fun n => if decide (n = 1)
                     then mkNode "中心主题" "plan" 0 0 120 "#00b097" true None None
                     else mkNode "主要分支" "idea" 200 0 120 "#87cefa" true None None)
           [INode 2; INode 1] 4 (Some "map.flow") true
           [delete_items [ConnectionData (mkConnData 1 2 "#e6a173")]]
           0 1 msg_ready [].

(** Two nodes wired into a cycle, with the log at the record [data]. *)
Definition cyclic (data : HistoryRecord) (index : Z) : FlowchartEditor :=
  mkEditor (fun _ => mkNode "主要分支" "idea" 250 250 120 "#87cefa" true None None)
           Graph.cyc 12 None true [data] index 1 msg_ready [].

End Inv.

(** * Properties *)

(** ** Scene membership *)

Lemma in_scene_elem sc n : in_scene sc n = true <-> INode n ∈ sc.
Proof.
  unfold in_scene. rewrite existsb_exists. split.
  - intros (it & Hin & Hit). apply list_elem_of_In in Hin.
    destruct it; simpl in Hit; try discriminate.
    apply bool_decide_eq_true in Hit. by subst.
  - intros Hin. exists (INode n). split; [by apply list_elem_of_In|].
    simpl. by apply bool_decide_eq_true.
Qed.

Lemma elem_of_remove_node it n sc :
  it ∈ remove_node n sc <-> it ∈ sc /\ it <> INode n.
Proof.
  unfold remove_node. rewrite list_elem_of_filter. split.
  - intros [Hn Hin]. split; [done|]. intros ->. simpl in Hn.
    rewrite bool_decide_eq_true_2 in Hn; done.
  - intros [Hin Hne]. split; [|done]. destruct it; simpl; try done.
    apply bool_decide_eq_false. congruence.
Qed.

(** ** Descendants and cascade delete *)

Section GraphFacts.
Import Graph.

(** What one pass of the loop of [getAllChildNodes] gathers. *)
Lemma collect_complete rec self its ds c :
  collect rec self its = Some ds ->
  IConn c ∈ its -> start_node c = self ->
  exists sub, rec (end_node c) = Some sub /\ end_node c ∈ ds /\
              forall m, m ∈ sub -> m ∈ ds.
Proof.
  revert ds. induction its as [|it rest IH]; intros ds Hc Hin Hs.
  - by apply elem_of_nil in Hin.
  - apply elem_of_cons in Hin as [<-|Hin].
    + simpl in Hc. rewrite decide_True in Hc by done.
      destruct (rec (end_node c)) as [sub|]; [|done].
      destruct (collect rec self rest) as [more|]; [|done].
      injection Hc as <-. exists sub. split; [done|]. split.
      * apply list_elem_of_here.
      * intros m Hm. apply list_elem_of_further, elem_of_app. by left.
    + destruct it as [k|c'|]; simpl in Hc; try by apply IH.
      destruct (decide (start_node c' = self)); [|by apply IH].
      destruct (rec (end_node c')) as [sub'|]; [|done].
      destruct (collect rec self rest) as [more|] eqn:Hmore; [|done].
      injection Hc as <-.
      destruct (IH more eq_refl Hin Hs) as (sub & Hr & He & Hsub).
      exists sub. split; [done|]. split.
      * apply list_elem_of_further, elem_of_app. by right.
      * intros m Hm. apply list_elem_of_further, elem_of_app. right. by apply Hsub.
Qed.

Lemma collect_sound rec self its ds m :
  collect rec self its = Some ds -> m ∈ ds ->
  exists c sub, IConn c ∈ its /\ start_node c = self /\
                rec (end_node c) = Some sub /\ (m = end_node c \/ m ∈ sub).
Proof.
  revert ds. induction its as [|it rest IH]; intros ds Hc Hm.
  - injection Hc as <-. by apply elem_of_nil in Hm.
  - assert (Hrest : forall ds', collect rec self rest = Some ds' -> m ∈ ds' ->
      exists c sub, IConn c ∈ it :: rest /\ start_node c = self /\
                    rec (end_node c) = Some sub /\ (m = end_node c \/ m ∈ sub)).
    { intros ds' H1 H2. destruct (IH ds' H1 H2) as (c & sub & ? & ? & ? & ?).
      exists c, sub. split; [by apply list_elem_of_further|done]. }
    destruct it as [k|c'|]; simpl in Hc; try by eapply Hrest.
    destruct (decide (start_node c' = self)) as [Hs|]; [|by eapply Hrest].
    destruct (rec (end_node c')) as [sub'|] eqn:Hr; [|done].
    destruct (collect rec self rest) as [more|] eqn:Hmore; [|done].
    injection Hc as <-.
    apply elem_of_cons in Hm as [->|Hm].
    + exists c', sub'. split; [apply list_elem_of_here|]. auto.
    + apply elem_of_app in Hm as [Hm|Hm].
      * exists c', sub'. split; [apply list_elem_of_here|]. auto.
      * by eapply Hrest.
Qed.

Lemma collect_total rec self its :
  (forall c, IConn c ∈ its -> start_node c = self -> is_Some (rec (end_node c))) ->
  is_Some (collect rec self its).
Proof.
  induction its as [|it rest IH]; intros Hall; [by eexists|].
  assert (is_Some (collect rec self rest)) as [more Hmore].
  { apply IH. intros c Hin. apply Hall. by apply list_elem_of_further. }
  destruct it as [k|c|]; simpl; try by eexists.
  destruct (decide (start_node c = self)) as [Hs|]; [|by eexists].
  destruct (Hall c (list_elem_of_here _ _) Hs) as [sub ->].
  rewrite Hmore. by eexists.
Qed.

(** When the traversal comes back, it has gathered exactly the nodes
    reachable along outgoing connections. *)
Lemma getAllChildNodes_reach fuel sc n ds :
  getAllChildNodes fuel sc n = Some ds ->
  forall m, m ∈ ds <-> reach sc n m.
Proof.
  revert n ds. induction fuel as [|f IH]; intros n ds Hg m; [done|].
  simpl in Hg. destruct (in_scene sc n) eqn:Hn.
  - apply in_scene_elem in Hn. split.
    + intros Hm.
      destruct (collect_sound _ _ _ _ _ Hg Hm) as (c & sub & Hc & Hs & Hr & [->|Hsub]).
      * by apply reach_child.
      * eapply reach_desc; [done..|]. by apply (IH _ _ Hr).
    + intros Hreach. destruct Hreach as [n c H1 H2 H3 | n c m H1 H2 H3 H4].
      * destruct (collect_complete _ _ _ _ _ Hg H2 H3) as (sub & _ & He & _). done.
      * destruct (collect_complete _ _ _ _ _ Hg H2 H3) as (sub & Hr & _ & Hsub).
        apply Hsub. by apply (IH _ _ Hr).
  - injection Hg as <-. split; [by intros ?%elem_of_nil|].
    intros Hreach. assert (INode n ∈ sc) as Hin by (by destruct Hreach).
    apply in_scene_elem in Hin. congruence.
Qed.

Lemma ranked_conn sc rank c :
  ranked sc rank = true -> IConn c ∈ sc ->
  (rank (end_node c) < rank (start_node c))%nat.
Proof.
  unfold ranked. rewrite forallb_forall. intros Hall Hin.
  apply list_elem_of_In in Hin. specialize (Hall _ Hin). simpl in Hall.
  by apply Nat.ltb_lt.
Qed.

(** On a graph without cycle the traversal comes back: a call stack as
    deep as the rank of the node is enough. *)
Lemma getAllChildNodes_ranked_returns rank sc fuel n :
  ranked sc rank = true -> (rank n < fuel)%nat ->
  is_Some (getAllChildNodes fuel sc n).
Proof.
  intros Hr. revert n. induction fuel as [|f IH]; intros n Hlt; [lia|].
  simpl. destruct (in_scene sc n); [|by eexists].
  apply collect_total. intros c Hin Hs. apply IH.
  pose proof (ranked_conn _ _ _ Hr Hin). subst n. lia.
Qed.

Lemma elem_of_remove_children it ds sc :
  it ∈ remove_children ds sc <-> it ∈ sc /\ forall d, d ∈ ds -> it <> INode d.
Proof.
  unfold remove_children. revert sc.
  induction ds as [|d ds IH]; intros sc; simpl.
  - split; [|tauto]. intros H. split; [done|]. by intros d ?%elem_of_nil.
  - rewrite IH. destruct (in_scene sc d) eqn:Hd.
    + rewrite elem_of_remove_node. split.
      * intros [[H1 H2] H3]. split; [done|].
        intros d' [->|?]%elem_of_cons; auto.
      * intros [H1 H2]. split; [split|]; [done|..].
        -- apply H2, list_elem_of_here.
        -- intros d' Hd'. by apply H2, list_elem_of_further.
    + split.
      * intros [H1 H3]. split; [done|].
        intros d' [->|?]%elem_of_cons; auto.
        intros ->. apply in_scene_elem in H1. congruence.
      * intros [H1 H2]. split; [done|].
        intros d' Hd'. by apply H2, list_elem_of_further.
Qed.

Lemma incident_false self ds c :
  incident self ds (IConn c) = false <->
  start_node c <> self /\ end_node c <> self /\
  (start_node c ∉ ds) /\ (end_node c ∉ ds).
Proof.
  simpl. rewrite !orb_false_iff, !bool_decide_eq_false. tauto.
Qed.

(** What is left in the scene once a confirmed [deleteNode] returned. *)
Lemma deleteNode_scene fuel sc n ds :
  getAllChildNodes fuel sc n = Some ds -> INode n ∈ sc ->
  exists sc', deleteNode fuel Yes sc n = Returned sc' /\
    forall it, (it ∈ sc' <-> it ∈ sc /\
       match it with
       | INode m => ~ removed sc n m
       | IConn c => ~ removed sc n (start_node c) /\ ~ removed sc n (end_node c)
       | ILine => True
       end).
Proof.
  intros Hg Hn. unfold deleteNode. rewrite Hg.
  pose proof (getAllChildNodes_reach _ _ _ _ Hg) as Hreach.
  apply in_scene_elem in Hn. rewrite Hn. eexists. split; [done|]. intros it.
  rewrite elem_of_remove_node, elem_of_remove_children, list_elem_of_filter.
  unfold removed. destruct it as [m|c|].
  - split.
    + intros [[[_ H1] H2] H3]. split; [done|]. intros [->|Hm]; [done|].
      apply Hreach in Hm. by apply (H2 m).
    + intros [H1 H2]. split; [split; [by split|]|].
      * intros d Hd [= ->]. apply H2. right. by apply Hreach.
      * intros [= ->]. apply H2. by left.
  - rewrite incident_false. split.
    + intros [[[(Ha & Hb & Hc & Hd) H1] _] _]. split; [done|].
      rewrite <- !Hreach. tauto.
    + intros [H1 [H2 H3]]. rewrite <- !Hreach in H2, H3.
      split; [split; [split; [tauto|done]|]|]; by intros.
  - split; [tauto|]. intros [H1 _]. split; [split; [by split|]|]; by intros.
Qed.

(** C1, as amended: on a graph without directed cycle, once the user has
    confirmed the dialog, [deleteNode n] returns a scene from which [n],
    every node reachable from [n] along outgoing connections and every
    connection that starts or ends at one of them are gone; no connection
    left references a removed node, nothing is added, and every other
    node is kept. *)
Theorem deleteNode_cascade rank fuel sc n :
  ranked sc rank = true -> (rank n < fuel)%nat -> INode n ∈ sc ->
  exists sc', deleteNode fuel Yes sc n = Returned sc' /\
    (forall m, removed sc n m -> INode m ∉ sc') /\
    (forall c, removed sc n (start_node c) \/ removed sc n (end_node c) ->
               IConn c ∉ sc') /\
    (forall c, IConn c ∈ sc' ->
               ~ removed sc n (start_node c) /\ ~ removed sc n (end_node c)) /\
    (forall it, it ∈ sc' -> it ∈ sc) /\
    (forall m, INode m ∈ sc -> ~ removed sc n m -> INode m ∈ sc').
Proof.
  intros Hr Hlt Hn.
  destruct (getAllChildNodes_ranked_returns rank sc fuel n Hr Hlt) as [ds Hds].
  destruct (deleteNode_scene _ _ _ _ Hds Hn) as (sc' & Hdel & Hsc).
  exists sc'. split; [done|]. repeat split.
  - intros m Hm Hin. apply Hsc in Hin. tauto.
  - intros c Hc Hin. apply Hsc in Hin. tauto.
  - apply Hsc in H. tauto.
  - apply Hsc in H. tauto.
  - intros it Hin. apply Hsc in Hin. tauto.
  - intros m Hin Hm. apply Hsc. tauto.
Qed.

(** The cascade on the diamond: deleting node 1 takes node 3 with it. *)
Lemma deleteNode_cascade_witness :
  exists sc', deleteNode 5 Yes diamond 1 = Returned sc' /\
    (forall m, removed diamond 1 m -> INode m ∉ sc') /\
    (forall c, removed diamond 1 (start_node c) \/ removed diamond 1 (end_node c) ->
               IConn c ∉ sc') /\
    (forall c, IConn c ∈ sc' ->
               ~ removed diamond 1 (start_node c) /\ ~ removed diamond 1 (end_node c)) /\
    (forall it, it ∈ sc' -> it ∈ diamond) /\
    (forall m, INode m ∈ diamond -> ~ removed diamond 1 m -> INode m ∈ sc').
Proof.
  apply (deleteNode_cascade (fun m => 4 - m) 5 diamond 1).
  - reflexivity.
  - simpl. lia.
  - apply list_elem_of_further, list_elem_of_here.
Defined.

(** C1 as stated fails: a declined confirmation leaves the node in the
    scene, and on a cycle the call raises before anything is removed. *)
Lemma deleteNode_keeps_node :
  (deleteNode 5 No diamond 1 = Returned diamond /\ INode 1 ∈ diamond) /\
  (forall fuel, deleteNode fuel Yes cyc 0 = Raised RecursionError).
Proof.
  split.
  - split; [reflexivity|]. apply list_elem_of_further, list_elem_of_here.
  - assert (forall fuel, getAllChildNodes fuel cyc 0 = None /\
                         getAllChildNodes fuel cyc 1 = None) as Hcyc.
    { induction fuel as [|f [IH0 IH1]]; [done|].
      split; simpl; [by rewrite IH1|by rewrite IH0]. }
    intros fuel. unfold deleteNode. by rewrite (proj1 (Hcyc fuel)).
Qed.

(** C5: the descendant traversal has no visited set.  On two nodes wired
    into a cycle it never comes back, whatever the depth allowed, and on
    a diamond it walks the shared node twice. *)
Theorem getAllChildNodes_no_cycle_guard :
  (forall fuel, getAllChildNodes fuel cyc 0 = None /\
                getAllChildNodes fuel cyc 1 = None) /\
  getAllChildNodes 4 diamond 0 = Some [1; 3; 2; 3].
Proof.
  split; [|reflexivity].
  induction fuel as [|f [IH0 IH1]]; [done|].
  split; simpl; [by rewrite IH1|by rewrite IH0].
Qed.

End GraphFacts.

(** ** Subtree width *)

Section LayoutFacts.
Import Layout.

Lemma children_end_nodes sc n c : c ∈ _get_children sc n -> c ∈ end_nodes sc.
Proof.
  unfold _get_children, end_nodes. rewrite elem_of_list_to_set, !list_elem_of_omap.
  intros (it & Hin & Hit). exists it. split; [done|].
  destruct it as [|k|]; try done. by destruct (decide (start_node k = n)).
Qed.

Lemma _calculate_tree_width_S f h sc n visited :
  _calculate_tree_width (S f) h sc n visited =
  if decide (n ∈ visited) then Some (width (h n), visited)
  else match _get_children sc n with
       | [] => Some (width (h n), {[n]} ∪ visited)
       | _ :: _ =>
           match sum_widths (_calculate_tree_width f h sc) 0%Z
                   (_get_children sc n) ({[n]} ∪ visited) with
           | None => None
           | Some (total_width, visited') =>
               Some (Z.max (width (h n))
                       (if bool_decide (1 < length (_get_children sc n))
                        then (total_width + horizontal_spacing
                              * (Z.of_nat (length (_get_children sc n)) - 1))%Z
                        else total_width), visited')
           end
       end.
Proof. reflexivity. Qed.

(** More fuel does not change a result. *)
Lemma sum_widths_mono (rec rec' : node -> gset node -> option (Z * gset node)) :
  (forall c v r, rec c v = Some r -> rec' c v = Some r) ->
  forall cs acc v r, sum_widths rec acc cs v = Some r ->
                     sum_widths rec' acc cs v = Some r.
Proof.
  intros Hrec. induction cs as [|c cs IH]; intros acc v r; simpl; [done|].
  destruct (rec c v) as [[w v1]|] eqn:Hc; [|done].
  rewrite (Hrec _ _ _ Hc). apply IH.
Qed.

Lemma _calculate_tree_width_mono h sc f f' n v r :
  (f <= f')%nat ->
  _calculate_tree_width f h sc n v = Some r ->
  _calculate_tree_width f' h sc n v = Some r.
Proof.
  revert f' n v r. induction f as [|f IH]; intros f' n v r Hle; [done|].
  destruct f' as [|f']; [lia|]. simpl.
  destruct (decide (n ∈ v)); [done|].
  destruct (_get_children sc n) as [|c cs]; [done|].
  destruct (sum_widths (_calculate_tree_width f h sc) 0 (c :: cs) ({[n]} ∪ v))
    as [[t v']|] eqn:Hs; [|done].
  assert (forall c' v0 r0, _calculate_tree_width f h sc c' v0 = Some r0 ->
            _calculate_tree_width f' h sc c' v0 = Some r0) as Hrec.
  { intros c' v0 r0. apply IH. lia. }
  by rewrite (sum_widths_mono _ _ Hrec _ _ _ _ Hs).
Qed.

(** The visited guard makes the recursion finite: each call that passes
    the guard marks a node that was not marked before. *)
Lemma sum_widths_returns sc (rec : node -> gset node -> option (Z * gset node)) bound :
  (forall c v, c ∈ end_nodes sc -> (size (end_nodes sc ∖ v) < bound)%nat ->
     exists w v', rec c v = Some (w, v') /\ v ⊆ v') ->
  forall cs acc v,
    (forall c, c ∈ cs -> c ∈ end_nodes sc) ->
    (size (end_nodes sc ∖ v) < bound)%nat ->
    exists t v', sum_widths rec acc cs v = Some (t, v') /\ v ⊆ v'.
Proof.
  intros Hrec. induction cs as [|c cs IH]; intros acc v Hcs Hv; simpl.
  - by exists acc, v.
  - destruct (Hrec c v) as (w & v1 & -> & Hsub); [apply Hcs, list_elem_of_here|done|].
    destruct (IH (acc + w)%Z v1) as (t & v' & -> & Hsub').
    + intros c' Hc'. by apply Hcs, list_elem_of_further.
    + eapply Nat.le_lt_trans; [|exact Hv]. apply subseteq_size. set_solver.
    + exists t, v'. split; [done|]. set_solver.
Qed.

Lemma _calculate_tree_width_inner sc h fuel n v :
  n ∈ end_nodes sc -> (size (end_nodes sc ∖ v) < fuel)%nat ->
  exists w v', _calculate_tree_width fuel h sc n v = Some (w, v') /\ v ⊆ v'.
Proof.
  revert n v. induction fuel as [|f IH]; intros n v Hn Hv; [lia|]. simpl.
  destruct (decide (n ∈ v)) as [Hin|Hnin]; [by eexists _, _|].
  destruct (_get_children sc n) as [|c cs] eqn:Hch.
  { eexists _, _. split; [done|]. set_solver. }
  assert (size (end_nodes sc ∖ ({[n]} ∪ v)) < size (end_nodes sc ∖ v))%nat as Hlt.
  { apply subset_size. set_solver. }
  destruct (sum_widths_returns sc (_calculate_tree_width f h sc) f IH
              (c :: cs) 0%Z ({[n]} ∪ v)) as (t & v' & -> & Hsub).
  - intros c' Hc'. apply (children_end_nodes sc n). by rewrite Hch.
  - lia.
  - eexists _, _. split; [done|]. set_solver.
Qed.

(** The width computation returns for every scene and every node. *)
Lemma _calculate_tree_width_returns h sc n :
  is_Some (tree_width h sc n).
Proof.
  unfold tree_width. rewrite _calculate_tree_width_S.
  rewrite decide_False by set_solver.
  destruct (_get_children sc n) as [|c cs] eqn:Hch; [by eexists|].
  destruct (sum_widths_returns sc (_calculate_tree_width (S (size (end_nodes sc))) h sc)
              (S (size (end_nodes sc)))
              (fun c v => _calculate_tree_width_inner sc h _ c v)
              (c :: cs) 0%Z ({[n]} ∪ ∅)) as (t & v' & Hs & Hsub).
  - intros c' Hc'. apply (children_end_nodes sc n). by rewrite Hch.
  - apply Nat.lt_succ_r, subseteq_size. set_solver.
  - rewrite Hs. by eexists.
Qed.

Lemma _calculate_tree_width_fuel h sc f1 f2 n v r1 r2 :
  _calculate_tree_width f1 h sc n v = Some r1 ->
  _calculate_tree_width f2 h sc n v = Some r2 -> r1 = r2.
Proof.
  intros H1 H2.
  apply (_calculate_tree_width_mono h sc f1 (f1 `max` f2)) in H1; [|lia].
  apply (_calculate_tree_width_mono h sc f2 (f1 `max` f2)) in H2; [|lia].
  congruence.
Qed.

(** A call on a fresh [visited] set, with whatever fuel it returned,
    gives the width that [tree_width] gives. *)
Lemma tree_width_of_call h sc f n w v :
  _calculate_tree_width f h sc n ∅ = Some (w, v) ->
  tree_width h sc n = Some w.
Proof.
  intros Hc. destruct (_calculate_tree_width_returns h sc n) as [w0 Hw0].
  rewrite Hw0. unfold tree_width in Hw0.
  destruct (_calculate_tree_width (S (S (size (end_nodes sc)))) h sc n ∅)
    as [[w1 v1]|] eqn:Hc1; [|done].
  injection Hw0 as <-.
  by injection (_calculate_tree_width_fuel _ _ _ _ _ _ _ _ Hc Hc1) as -> _.
Qed.

(** The spacing between siblings: nothing is added for a single child. *)
Lemma spacing_between (cs : list node) t :
  cs <> [] ->
  (if bool_decide (1 < length cs)
   then (t + horizontal_spacing * (Z.of_nat (length cs) - 1))%Z else t)
  = (t + horizontal_spacing * (Z.of_nat (length cs) - 1))%Z.
Proof.
  intros Hne. case_bool_decide as Hlen; [done|].
  destruct cs as [|c [|c' cs]]; simpl in *; [done|lia|lia].
Qed.

(** Below a tree node the shared [visited] set never stops a call: the
    children's calls return what they return on a fresh set, and mark
    exactly the nodes of their subtrees. *)
Lemma sum_widths_tree h sc f :
  (forall c Tc, tree_below f sc c = Some Tc ->
     exists w, forall v, v ## Tc ->
       _calculate_tree_width f h sc c v = Some (w, v ∪ Tc)) ->
  forall cs acc0 T, disjoint_union (tree_below f sc) cs acc0 = Some T ->
    acc0 ⊆ T /\
    exists ws,
      Forall2 (fun c w => exists v', _calculate_tree_width f h sc c ∅ = Some (w, v')) cs ws /\
      forall acc v, v ## T ∖ acc0 ->
        sum_widths (_calculate_tree_width f h sc) acc cs v
        = Some ((acc + sum_list_Z ws)%Z, v ∪ (T ∖ acc0)).
Proof.
  intros Hrec. induction cs as [|c cs IH]; intros acc0 T Hd; simpl in Hd.
  - injection Hd as <-. split; [done|]. exists []. split; [constructor|].
    intros acc v _. simpl. f_equal. f_equal; [lia|set_solver].
  - destruct (tree_below f sc c) as [s|] eqn:Hc; [|done].
    destruct (decide (s ## acc0)) as [Hdisj|]; [|done].
    destruct (IH _ _ Hd) as (Hsub & ws & Hws & Hsum).
    destruct (Hrec _ _ Hc) as (w & Hw).
    split; [set_solver|]. exists (w :: ws). split.
    + constructor; [|done]. eexists. apply Hw. set_solver.
    + intros acc v Hv. simpl.
      assert (v ## s) as Hvs by (clear -Hv Hsub Hdisj; set_solver).
      assert ((v ∪ s) ## T ∖ (acc0 ∪ s)) as Hvs' by (clear -Hv; set_solver).
      assert (v ∪ s ∪ T ∖ (acc0 ∪ s) = v ∪ T ∖ acc0) as Heq
        by (clear -Hsub Hdisj; apply set_eq; intros x;
            destruct (decide (x ∈ s)); set_solver).
      rewrite (Hw _ Hvs), (Hsum _ _ Hvs'), Heq. do 2 f_equal. lia.
Qed.

Lemma _calculate_tree_width_tree h sc fuel n T :
  tree_below fuel sc n = Some T ->
  exists w, forall v, v ## T ->
    _calculate_tree_width fuel h sc n v = Some (w, v ∪ T).
Proof.
  revert n T. induction fuel as [|f IH]; intros n T Ht; [done|].
  simpl in Ht.
  destruct (sum_widths_tree h sc f IH _ _ _ Ht) as (Hn & ws & _ & Hsum).
  destruct (_get_children sc n) as [|c cs] eqn:Hch.
  - injection Ht as <-. exists (width (h n)). intros v Hv.
    rewrite _calculate_tree_width_S, Hch, decide_False by set_solver.
    f_equal. f_equal. set_solver.
  - eexists. intros v Hv.
    rewrite _calculate_tree_width_S, Hch, decide_False by set_solver.
    rewrite Hsum by set_solver. f_equal. f_equal.
    clear -Hn. apply set_eq. intros x.
    destruct (decide (x = n)) as [->|]; set_solver.
Qed.

(** C6, as amended: where the graph below a node is a tree, the width
    computed for the node is its own width when it has no children, and
    otherwise the larger of its own width and the sum of the widths
    computed for its children plus the horizontal spacing times the number
    of children less one. *)
Theorem tree_width_aggregates h sc fuel n T :
  tree_below fuel sc n = Some T ->
  exists ws,
    Forall2 (fun c w => tree_width h sc c = Some w) (_get_children sc n) ws /\
    tree_width h sc n =
    Some (match _get_children sc n with
          | [] => width (h n)
          | _ :: _ =>
              Z.max (width (h n))
                    (sum_list_Z ws
                     + horizontal_spacing
                       * (Z.of_nat (length (_get_children sc n)) - 1))
          end).
Proof.
  intros Ht. destruct fuel as [|f]; [done|]. simpl in Ht.
  destruct (sum_widths_tree h sc f (_calculate_tree_width_tree h sc f) _ _ _ Ht)
    as (Hn & ws & Hws & Hsum).
  exists ws. split.
  - eapply Forall2_impl; [exact Hws|]. intros c w [v' Hc]. simpl in Hc.
    by apply tree_width_of_call in Hc.
  - destruct (_get_children sc n) as [|c cs] eqn:Hch.
    + apply (tree_width_of_call h sc (S f) n _ ({[n]} ∪ ∅)).
      by rewrite _calculate_tree_width_S, Hch, decide_False by set_solver.
    + eapply (tree_width_of_call h sc (S f) n).
      rewrite _calculate_tree_width_S, Hch, decide_False by set_solver.
      rewrite Hsum by set_solver.
      by rewrite spacing_between, Z.add_0_l by done.
Qed.

(** On the five-node tree, with node 4 three hundred wide. *)
Lemma tree_width_aggregates_witness :
  exists ws,
    Forall2 (fun c w => tree_width widths tree5 c = Some w)
            (_get_children tree5 0) ws /\
    tree_width widths tree5 0 =
    Some (match _get_children tree5 0 with
          | [] => width (widths 0)
          | _ :: _ =>
              Z.max (width (widths 0))
                    (sum_list_Z ws
                     + horizontal_spacing
                       * (Z.of_nat (length (_get_children tree5 0)) - 1))
          end).
Proof.
  apply (tree_width_aggregates widths tree5 5 0
           (list_to_set [0; 1; 2; 3; 4])).
  vm_compute. reflexivity.
Defined.

(** C6 as stated fails where a node has two parents: node 3 is reached
    through node 1 first, so below node 2 it counts for its own width
    only, and the width of node 0 is 520 where the widths computed for
    its children, 300 and 300, would give 700.  The second call on node 3
    returns 120 although node 3 has a child that is 300 wide. *)
Lemma tree_width_shared_child :
  _get_children shared 0 = [1; 2] /\
  tree_width widths shared 1 = Some 300%Z /\
  tree_width widths shared 2 = Some 300%Z /\
  tree_width widths shared 0 = Some 520%Z /\
  520%Z <> Z.max (width (widths 0))
                 (300 + 300 + horizontal_spacing * (2 - 1))%Z /\
  _get_children shared 3 = [4] /\
  tree_width widths shared 4 = Some 300%Z /\
  _calculate_tree_width 5 widths shared 3 {[1; 3; 4]}
  = Some (120%Z, {[1; 3; 4]}).
Proof. vm_compute. repeat split; congruence. Qed.

End LayoutFacts.

(** ** Fold all levels, then expand *)

Section FoldFacts.
Import Fold.

(** C4: in the scenario (A = 0 with children B = 1 and C = 2, D = 3 the
    child of B) [foldAllLevels] on A followed by [toggleFold] on A shows B
    and C again, but D was never hidden: [_fold_all_levels] makes every
    descendant visible and [_collapse_node] hides the direct children
    only.  This holds whether [setBrush] returns or raises, and whatever
    is answered to a question; B is marked folded when [setBrush]
    returns. *)
Theorem fold_all_then_toggle_shows_grandchild (setBrush : outcome unit)
    (f : nat) (reply : StandardButton) :
  let w1 := (foldAllLevels setBrush (3 + f) 0 scenario).1 in
  let w2 := (toggleFold setBrush (3 + f) reply 0 w1).1 in
  visible (w1.1 1) = false /\ visible (w1.1 2) = false /\
  visible (w1.1 3) = true /\
  visible (w2.1 1) = true /\ visible (w2.1 2) = true /\
  visible (w2.1 3) = true /\
  is_folded (w2.1 1) = match setBrush with
                       | Returned _ => Some true
                       | Raised _ => None
                       end.
Proof.
  destruct setBrush as [[]|e]; vm_compute; repeat split; reflexivity.
Qed.

End FoldFacts.

(** ** The history log *)

Section HistoryFacts.
Import Editor.

Variable metrics_width : string -> Z.
Variable connection_color : node -> node -> string.
Variable reply : node -> StandardButton.
Variable fuel : nat.

Lemma getitem_lookup {A} (l : list A) (i : Z) x :
  (0 <= i)%Z -> l !! Z.to_nat i = Some x -> getitem l i = Returned x.
Proof.
  intros Hi Hx. unfold getitem.
  rewrite (bool_decide_eq_true_2 (0 <= i)%Z Hi).
  rewrite (bool_decide_eq_true_2 (0 <= i)%Z Hi). by rewrite Hx.
Qed.

(** What [addHistory] leaves in the log. *)
Lemma addHistory_history data e :
  history_ok e ->
  history (addHistory data e)
  = (let l := take (Z.to_nat (history_index e + 1)) (history e) ++ [data] in
     drop (length l - max_history) l).
Proof.
  intros [Hidx Hlen]. unfold addHistory, max_history in *. simpl.
  set (l := take (Z.to_nat (history_index e + 1)) (history e) ++ [data]).
  assert ((if bool_decide (history_index e < Z.of_nat (length (history e)) - 1)%Z
           then slice_to (history_index e + 1) (history e)
           else history e) ++ [data] = l) as ->.
  { unfold l. f_equal. case_bool_decide.
    - unfold slice_to. by rewrite bool_decide_eq_true_2 by lia.
    - rewrite take_ge; [done|lia]. }
  assert (length l <= 21) as Hl.
  { unfold l. rewrite length_app, length_take. simpl. lia. }
  case_bool_decide.
  - by replace (length l - 20) with 1 by lia.
  - by replace (length l - 20) with 0 by lia.
Qed.

Lemma addHistory_index data e :
  history_index (addHistory data e)
  = (Z.of_nat (length (history (addHistory data e))) - 1)%Z.
Proof. reflexivity. Qed.

(** The log stays within its bounds. *)
Lemma addHistory_ok data e : history_ok e -> history_ok (addHistory data e).
Proof.
  intros Hok. pose proof (addHistory_history data e Hok) as Hh.
  destruct Hok as [Hidx Hlen]. unfold history_ok, max_history in *.
  rewrite addHistory_index, Hh. simpl.
  rewrite length_drop, length_app, length_take. simpl. lia.
Qed.

Lemma keeps_log_ret {A} (a : A) : keeps_log (ret a).
Proof. by intros e. Qed.

Lemma keeps_log_bind {A B} (m : M A) (k : A -> M B) :
  keeps_log m -> (forall a, keeps_log (k a)) -> keeps_log (bind m k).
Proof.
  intros Hm Hk e. unfold bind. specialize (Hm e).
  destruct (m e) as [e1 [a|x]]; simpl in *; [|done].
  destruct Hm as [Hm1 Hm2]. destruct (Hk a e1) as [H1 H2].
  split; congruence.
Qed.

Lemma keeps_log_and_then {A} (m : M unit) (k : M A) :
  keeps_log m -> keeps_log k -> keeps_log (and_then m k).
Proof. intros Hm Hk. apply keeps_log_bind; [done|by intros _]. Qed.

Lemma keeps_log_for_each {A} (l : list A) (body : A -> M unit) :
  (forall x, keeps_log (body x)) -> keeps_log (for_each l body).
Proof.
  intros Hb. induction l as [|x l IH]; simpl.
  - apply keeps_log_ret.
  - by apply keeps_log_and_then.
Qed.

Lemma keeps_log_modify (f : FlowchartEditor -> FlowchartEditor) :
  (forall e, history (f e) = history e /\ history_index (f e) = history_index e) ->
  keeps_log (modify f).
Proof. intros Hf e. apply Hf. Qed.

Lemma keeps_log_create_node type text pos c :
  keeps_log (create_node metrics_width type text pos c).
Proof.
  intros e. unfold create_node.
  by destruct (new_FlowchartNode metrics_width type text pos).
Qed.

Lemma keeps_log_create_connection s t c :
  keeps_log (create_connection connection_color s t c).
Proof. by apply keeps_log_modify. Qed.

Lemma keeps_log_find_and_delete n :
  keeps_log (find_and_delete reply fuel n).
Proof.
  intros e. unfold find_and_delete. destruct (in_scene (items e) n); [|done].
  by destruct (Graph.deleteNode fuel (reply n) (items e) n).
Qed.

Lemma keeps_log_restore_nodes its restored :
  keeps_log (restore_nodes metrics_width its restored).
Proof.
  revert restored. induction its as [|[n ty tx p c cs|cd] its IH];
    intros restored; simpl.
  - apply keeps_log_ret.
  - apply keeps_log_bind; [apply keeps_log_create_node|]. intros a. apply IH.
  - apply IH.
Qed.

Lemma keeps_log_reconnect s t c :
  keeps_log (reconnect connection_color s t c).
Proof.
  destruct s as [s|], t as [t|]; simpl; try apply keeps_log_ret.
  destruct (decide (s = t)); [apply keeps_log_ret|].
  apply keeps_log_create_connection.
Qed.

Lemma keeps_log_restore_connections its restored :
  keeps_log (restore_connections connection_color its restored).
Proof.
  apply keeps_log_for_each. intros [n ty tx p c cs|cd].
  - apply keeps_log_for_each. intros cd. apply keeps_log_reconnect.
  - intros e. apply keeps_log_reconnect.
Qed.

Lemma and_then_run {A} (m : M unit) (k : M A) e :
  and_then m k e = match m e with
              | (e1, Returned _) => k e1
              | (e1, Raised x) => (e1, Raised x)
              end.
Proof. reflexivity. Qed.

Lemma keeps_log_undo_record data :
  keeps_log (undo_record metrics_width connection_color reply fuel data).
Proof.
  destruct data as [n ty tx p par|its|cs]; simpl.
  - apply keeps_log_find_and_delete.
  - apply keeps_log_bind; [apply keeps_log_restore_nodes|].
    intros a. apply keeps_log_restore_connections.
  - apply keeps_log_for_each. intros cd. by apply keeps_log_modify.
Qed.

Lemma keeps_log_redo_record data :
  keeps_log (redo_record metrics_width connection_color reply fuel data).
Proof.
  destruct data as [n ty tx p par|its|cs]; simpl.
  - apply keeps_log_bind; [apply keeps_log_create_node|]. intros a.
    destruct par as [q|]; [|apply keeps_log_ret]. intros e1.
    destruct (negb (bool_decide (q = 0)) && in_scene (items e1) q); [|done].
    apply keeps_log_create_connection.
  - apply keeps_log_for_each. intros [n ty tx p c cs|cd].
    + apply keeps_log_find_and_delete.
    + by apply keeps_log_modify.
  - apply keeps_log_for_each. intros cd. by apply keeps_log_modify.
Qed.

(** [undo] leaves the entries alone and moves the index down by one, or
    not at all. *)
Lemma undo_log e :
  let e' := (undo metrics_width connection_color reply fuel e).1 in
  history e' = history e /\
  (history_index e' = history_index e \/
   (0 <= history_index e)%Z /\ history_index e' = (history_index e - 1)%Z).
Proof.
  unfold undo. case_bool_decide as Hneg; [by split; [|left]|].
  destruct (getitem (history e) (history_index e)) as [data|x]; [|by split; [|left]].
  rewrite and_then_run. destruct (keeps_log_undo_record data e) as [H1 H2].
  destruct (undo_record _ _ _ _ data e) as [e1 [[]|x]]; simpl in *.
  - split; [done|]. right. split; [lia|]. by rewrite H2.
  - split; [done|]. by left.
Qed.

(** [redo] leaves the entries alone and moves the index up by one, or not
    at all. *)
Lemma redo_log e :
  let e' := (redo metrics_width connection_color reply fuel e).1 in
  history e' = history e /\
  (history_index e' = history_index e \/
   (history_index e < Z.of_nat (length (history e)) - 1)%Z /\
   history_index e' = (history_index e + 1)%Z).
Proof.
  unfold redo. case_bool_decide as Hlast; [by split; [|left]|].
  set (e0 := set_history_index (history_index e + 1) e).
  assert (forall e1, history e1 = history e0 ->
                     history_index e1 = history_index e0 ->
            history e1 = history e /\
            (history_index e1 = history_index e \/
             (history_index e < Z.of_nat (length (history e)) - 1)%Z /\
             history_index e1 = (history_index e + 1)%Z)) as Hfin.
  { intros e1 H1 H2. split; [by rewrite H1|]. right. split; [lia|]. by rewrite H2. }
  destruct (getitem (history e0) (history_index e0)) as [data|x];
    [|by apply Hfin].
  rewrite and_then_run. destruct (keeps_log_redo_record data e0) as [H1 H2].
  destruct (redo_record _ _ _ _ data e0) as [e1 [[]|x]]; simpl in *;
    by apply Hfin.
Qed.

Lemma undo_ok e :
  history_ok e -> history_ok (undo metrics_width connection_color reply fuel e).1.
Proof.
  intros [Hidx Hlen]. destruct (undo_log e) as [Hh [Hi|[H0 Hi]]];
    unfold history_ok; rewrite Hh, Hi; split; (lia || done).
Qed.

Lemma redo_ok e :
  history_ok e -> history_ok (redo metrics_width connection_color reply fuel e).1.
Proof.
  intros [Hidx Hlen]. destruct (redo_log e) as [Hh [Hi|[H0 Hi]]];
    unfold history_ok; rewrite Hh, Hi; split; (lia || done).
Qed.

Lemma initial_ok : history_ok initial.
Proof. split; simpl; [lia|unfold max_history; lia]. Qed.

Lemma newFlowchart_ok ask_save confirm e :
  history_ok e -> history_ok (newFlowchart ask_save confirm e).1.
Proof.
  intros Hok. unfold newFlowchart.
  repeat (match goal with |- context [if ?b then _ else _] => destruct b end);
    try done.
  apply initial_ok.
Qed.

(** C7: after [addHistory], on any state of the log the editor can be
    in, the entries after the current index are gone and the new record
    is the last entry; at most twenty entries are kept, the oldest being
    dropped first; the index points at the new record, so that [redo]
    right afterwards only reports that there is nothing to redo.  Twenty
    five added nodes leave the records of the last twenty. *)
Theorem addHistory_truncates_and_caps data e :
  history_ok e ->
  let e' := addHistory data e in
  history e' = (let l := take (Z.to_nat (history_index e + 1)) (history e) ++ [data] in
                drop (length l - max_history) l) /\
  length (history e') <= 20 /\
  last (history e') = Some data /\
  history_index e' = (Z.of_nat (length (history e')) - 1)%Z /\
  getitem (history e') (history_index e') = Returned data /\
  redo metrics_width connection_color reply fuel e'
  = (showMessage msg_nothing_to_redo e', Returned tt) /\
  history_ok e' /\
  (let e25 := foldl (fun e k => addHistory (added k) e) initial (seq 1 25) in
   history e25 = map added (seq 6 20) /\ history_index e25 = 19%Z).
Proof.
  intros Hok e'.
  assert (history e'
          = drop (length (take (Z.to_nat (history_index e + 1)) (history e)
                          ++ [data]) - max_history)
                 (take (Z.to_nat (history_index e + 1)) (history e) ++ [data]))
    as Hh by exact (addHistory_history data e Hok).
  assert (history_ok e') as Hok' by exact (addHistory_ok data e Hok).
  assert (last (history e') = Some data) as Hlast.
  { rewrite Hh. destruct Hok as [Hidx Hlen]. unfold max_history in *.
    rewrite drop_app_le.
    - by rewrite last_snoc.
    - rewrite length_app, length_take. simpl. lia. }
  assert (history_index e' = (Z.of_nat (length (history e')) - 1)%Z) as Hidx'
    by reflexivity.
  assert (1 <= length (history e')) as Hlen'.
  { destruct (history e'); [done|simpl; lia]. }
  split; [exact Hh|]. split; [apply Hok'|]. split; [exact Hlast|].
  split; [exact Hidx'|]. split; [|split; [|split; [exact Hok'|]]].
  - apply getitem_lookup; [lia|].
    rewrite last_lookup in Hlast. rewrite <- Hlast. f_equal. lia.
  - unfold redo. rewrite bool_decide_eq_true_2; [done|lia].
  - vm_compute. split; reflexivity.
Qed.

(** C9: [undo] with the index below zero and [redo] with the index at the
    last record return without raising, put a message on the status bar,
    and change neither the graph nor the log. *)
Theorem undo_redo_at_boundaries e :
  ((history_index e < 0)%Z ->
   exists e', undo metrics_width connection_color reply fuel e = (e', Returned tt) /\
              status e' = msg_nothing_to_undo /\ same_document e e') /\
  ((history_index e = Z.of_nat (length (history e)) - 1)%Z ->
   exists e', redo metrics_width connection_color reply fuel e = (e', Returned tt) /\
              status e' = msg_nothing_to_redo /\ same_document e e').
Proof.
  split; intros Hidx.
  - exists (showMessage msg_nothing_to_undo e). unfold undo.
    rewrite bool_decide_eq_true_2 by done. by repeat split.
  - exists (showMessage msg_nothing_to_redo e). unfold redo.
    rewrite bool_decide_eq_true_2 by lia. by repeat split.
Qed.

(** Undoing the record of an added node that is in the scene, when the
    user confirms the dialog of [deleteNode] and the graph has no cycle:
    the node is taken out, nothing is put in, no object is created. *)
Lemma undo_add_node rank e n type text pos parent :
  (0 <= history_index e)%Z ->
  history e !! Z.to_nat (history_index e) = Some (add_node n type text pos parent) ->
  reply n = Yes -> Graph.ranked (items e) rank = true -> rank n < fuel ->
  INode n ∈ items e ->
  exists sc',
    undo metrics_width connection_color reply fuel e
    = (showMessage msg_undone
         (setModified true
            (set_history_index (history_index e - 1) (set_items sc' e))),
       Returned tt) /\
    (INode n ∉ sc') /\
    (forall it, it ∈ sc' -> it ∈ items e).
Proof.
  intros Hidx Hrec Hyes Hrank Hfuel Hin. unfold undo.
  rewrite bool_decide_eq_false_2 by lia.
  rewrite (getitem_lookup _ _ _ Hidx Hrec), and_then_run.
  unfold undo_record, find_and_delete.
  rewrite (proj2 (in_scene_elem _ _) Hin).
  destruct (getAllChildNodes_ranked_returns rank _ fuel n Hrank Hfuel) as [ds Hds].
  destruct (deleteNode_scene _ _ _ _ Hds Hin) as (sc' & Hdel & Hsc).
  rewrite Hyes, Hdel. exists sc'. split; [reflexivity|]. split.
  - intros Hn. apply Hsc in Hn as [_ Hn]. apply Hn. by left.
  - intros it Hit. by apply Hsc in Hit as [Hit _].
Qed.

(** Redoing the record of an added node creates a new node object, of
    the recorded type and text at the recorded position, and puts it in
    front of the scene, behind the connection to the parent if one is
    made.  The record is not touched: it keeps the identity of the node
    that was added first. *)
Lemma redo_add_node e n type text pos parent c :
  (0 <= history_index e + 1)%Z ->
  history e !! Z.to_nat (history_index e + 1) = Some (add_node n type text pos parent) ->
  NODE_TYPES !! type = Some c ->
  exists e2 front,
    redo metrics_width connection_color reply fuel e = (e2, Returned tt) /\
    history e2 = history e /\
    history_index e2 = (history_index e + 1)%Z /\
    items e2 = front ++ INode (next_id e) :: items e /\
    (forall m, INode m ∉ front) /\
    nodes e2 (next_id e)
    = mkNode type text pos.1 pos.2 (Z.max 120 (metrics_width text + 40)) c
             true None None.
Proof.
  intros Hidx Hrec Hty. unfold redo.
  apply lookup_lt_Some in Hrec as Hlt.
  rewrite bool_decide_eq_false_2 by lia.
  cbn [history history_index set_history_index].
  rewrite (getitem_lookup _ _ _ Hidx Hrec), and_then_run.
  unfold redo_record, bind, create_node, new_FlowchartNode. rewrite Hty.
  cbn [next_id set_history_index].
  assert (forall h, set_attr h (next_id e)
            (mkNode type text pos.1 pos.2 (Z.max 120 (metrics_width text + 40)) c
                    true None None) (next_id e)
          = mkNode type text pos.1 pos.2 (Z.max 120 (metrics_width text + 40)) c
                   true None None) as Hattr.
  { intros h. unfold set_attr. by rewrite decide_True. }
  assert (forall m, INode m ∉ ([] : list item)) as Hnil.
  { intros m Hm. by apply elem_of_nil in Hm. }
  destruct parent as [p|].
  - destruct (negb (bool_decide (p = 0)) && in_scene _ p).
    + eexists _, [IConn _]. split; [reflexivity|]. simpl.
      split; [done|]. split; [done|]. split; [done|].
      split; [|by apply Hattr].
      intros m Hm. by apply list_elem_of_singleton in Hm.
    + eexists _, []. split; [reflexivity|]. simpl.
      split; [done|]. split; [done|]. split; [done|].
      split; [done|by apply Hattr].
  - eexists _, []. split; [reflexivity|]. simpl.
    split; [done|]. split; [done|]. split; [done|].
    split; [done|by apply Hattr].
Qed.

(** C8: [redo] of an added node builds a new object and leaves the
    record with the identity of the first one.  So, with the dialog of
    [deleteNode] confirmed and no cycle in the graph: [undo] takes the
    added node out of the scene; [redo] puts a node of the recorded type
    and text at the recorded position, which is another object than the
    recorded one; and the next [undo] of the same record looks for the
    recorded identity, finds no such node, and returns with the message of
    a finished undo and the index moved back, while the node that [redo]
    made is still in the scene. *)
Theorem undo_after_redo_keeps_node rank e n type text pos parent c :
  (0 <= history_index e)%Z ->
  history e !! Z.to_nat (history_index e) = Some (add_node n type text pos parent) ->
  NODE_TYPES !! type = Some c ->
  reply n = Yes -> Graph.ranked (items e) rank = true -> rank n < fuel ->
  INode n ∈ items e -> n < next_id e ->
  exists e1 e2 e3,
    undo metrics_width connection_color reply fuel e = (e1, Returned tt) /\
    (INode n ∉ items e1) /\
    redo metrics_width connection_color reply fuel e1 = (e2, Returned tt) /\
    INode (next_id e) ∈ items e2 /\
    node_type (nodes e2 (next_id e)) = type /\
    node_text (nodes e2 (next_id e)) = text /\
    (pos_x (nodes e2 (next_id e)), pos_y (nodes e2 (next_id e))) = pos /\
    history e2 = history e /\ history_index e2 = history_index e /\
    undo metrics_width connection_color reply fuel e2 = (e3, Returned tt) /\
    status e3 = msg_undone /\
    history_index e3 = (history_index e - 1)%Z /\
    items e3 = items e2.
Proof.
  intros Hidx Hrec Hty Hyes Hrank Hfuel Hin Hold.
  destruct (undo_add_node rank e n type text pos parent Hidx Hrec Hyes Hrank Hfuel Hin)
    as (sc' & Hundo & Hn & Hsub).
  set (e1 := showMessage msg_undone
               (setModified true
                  (set_history_index (history_index e - 1) (set_items sc' e)))) in *.
  destruct (redo_add_node e1 n type text pos parent c)
    as (e2 & front & Hredo & Hh2 & Hi2 & Hit2 & Hfront & Hattr).
  { simpl. lia. }
  { simpl. by replace (history_index e - 1 + 1)%Z with (history_index e) by lia. }
  { done. }
  change (next_id e1) with (next_id e) in *. change (items e1) with sc' in *.
  change (history e1) with (history e) in *.
  assert (history_index e2 = history_index e) as Hi2'.
  { rewrite Hi2. simpl. lia. }
  assert (in_scene (items e2) n = false) as Hout.
  { destruct (in_scene (items e2) n) eqn:Hs; [|done].
    apply in_scene_elem in Hs. rewrite Hit2 in Hs.
    apply elem_of_app in Hs as [Hs|Hs]; [by apply Hfront in Hs|].
    apply elem_of_cons in Hs as [[= ->]|Hs]; [lia|done]. }
  exists e1, e2,
    (showMessage msg_undone
       (setModified true (set_history_index (history_index e2 - 1) e2))).
  split; [exact Hundo|]. split; [exact Hn|]. split; [exact Hredo|].
  split; [rewrite Hit2; apply elem_of_app; right; apply list_elem_of_here|].
  rewrite Hattr. cbn [node_type node_text pos_x pos_y].
  split; [done|]. split; [done|]. split; [by destruct pos|].
  split; [done|]. split; [done|]. split.
  - unfold undo. rewrite bool_decide_eq_false_2 by lia.
    rewrite Hh2, Hi2', (getitem_lookup _ _ _ Hidx Hrec), and_then_run.
    unfold undo_record, find_and_delete. rewrite Hout.
    unfold and_then, bind, modify. by rewrite Hi2'.
  - simpl. split; [done|]. split; [lia|done].
Qed.

End HistoryFacts.

Import Editor.

(** Two entries, the index moved back to the first by an [undo]: a new
    record replaces the second. *)
Lemma addHistory_truncates_and_caps_witness :
  let e := set_history_index 0 (addHistory (added 2) (addHistory (added 1) initial)) in
  let e' := addHistory (added 3) e in
  history e' = (let l := take (Z.to_nat (history_index e + 1)) (history e) ++ [added 3] in
                drop (length l - max_history) l) /\
  length (history e') <= 20 /\
  last (history e') = Some (added 3) /\
  history_index e' = (Z.of_nat (length (history e')) - 1)%Z /\
  getitem (history e') (history_index e') = Returned (added 3) /\
  redo text_metrics hashed_color (fun _ => Yes) 8 e'
  = (showMessage msg_nothing_to_redo e', Returned tt) /\
  history_ok e' /\
  (let e25 := foldl (fun e k => addHistory (added k) e) initial (seq 1 25) in
   history e25 = map added (seq 6 20) /\ history_index e25 = 19%Z).
Proof.
  apply (addHistory_truncates_and_caps text_metrics hashed_color (fun _ => Yes) 8
           (added 3)).
  split; simpl; [lia|unfold max_history; lia].
Defined.

(** At the start the log is empty: there is nothing to undo or redo. *)
Lemma undo_redo_at_boundaries_witness :
  (exists e', undo text_metrics hashed_color (fun _ => Yes) 8 initial = (e', Returned tt) /\
              status e' = msg_nothing_to_undo /\ same_document initial e') /\
  (exists e', redo text_metrics hashed_color (fun _ => Yes) 8 initial = (e', Returned tt) /\
              status e' = msg_nothing_to_redo /\ same_document initial e').
Proof.
  destruct (undo_redo_at_boundaries text_metrics hashed_color (fun _ => Yes) 8 initial)
    as [Hundo Hredo].
  split; [apply Hundo|apply Hredo]; simpl; lia.
Defined.

(** One added node, undone, redone and undone again. *)
Lemma undo_after_redo_keeps_node_witness :
  exists e1 e2 e3,
    undo text_metrics hashed_color (fun _ => Yes) 8 one_node = (e1, Returned tt) /\
    (INode 5 ∉ items e1) /\
    redo text_metrics hashed_color (fun _ => Yes) 8 e1 = (e2, Returned tt) /\
    INode (next_id one_node) ∈ items e2 /\
    node_type (nodes e2 (next_id one_node)) = "主要分支" /\
    node_text (nodes e2 (next_id one_node)) = "idea" /\
    (pos_x (nodes e2 (next_id one_node)), pos_y (nodes e2 (next_id one_node)))
    = (250, 250)%Z /\
    history e2 = history one_node /\ history_index e2 = history_index one_node /\
    undo text_metrics hashed_color (fun _ => Yes) 8 e2 = (e3, Returned tt) /\
    status e3 = msg_undone /\
    history_index e3 = (history_index one_node - 1)%Z /\
    items e3 = items e2.
Proof.
  apply (undo_after_redo_keeps_node text_metrics hashed_color (fun _ => Yes) 8
           (fun _ => 0) one_node 5 "主要分支" "idea" (250, 250)%Z None "#87cefa").
  - simpl. lia.
  - reflexivity.
  - reflexivity.
  - reflexivity.
  - reflexivity.
  - lia.
  - apply list_elem_of_here.
  - simpl. lia.
Defined.

(** The dialog of [deleteNode] also guards [undo]: when the user
    declines, the node stays in the scene although the index has moved
    back. *)
Lemma undo_declined_keeps_node :
  let e1 := (undo text_metrics hashed_color (fun _ => No) 8 one_node).1 in
  INode 5 ∈ items e1 /\ history_index e1 = (-1)%Z /\ status e1 = msg_undone.
Proof. vm_compute. split; [apply list_elem_of_here|done]. Qed.

(** ** Save and open *)

Section PersistFacts.
Import Persist.

Variable metrics_width : string -> Z.
Variable connection_color : node -> node -> string.

(** Every identity handed out by the first loop of [save_flowchart]
    belongs to a node of the scene and is the ["id"] of a record of
    [data["nodes"]]. *)
Lemma collect_node_ids h (sc its : list item) st :
  (forall it, it ∈ its -> it ∈ sc) ->
  (forall n s, st.1.2 !! n = Some s ->
               INode n ∈ sc /\ node_record s (h n) ∈ st.2) ->
  forall n s, (foldl (collect_node h) st its).1.2 !! n = Some s ->
              INode n ∈ sc /\ node_record s (h n) ∈ (foldl (collect_node h) st its).2.
Proof.
  revert st. induction its as [|it its IH]; intros st Hsub Hinv; [done|].
  simpl. apply IH.
  - intros it' Hit'. by apply Hsub, list_elem_of_further.
  - destruct it as [m| |]; try done. destruct st as [[k ids] out]. simpl in *.
    intros n s Hn. destruct (decide (m = n)) as [->|Hne].
    + rewrite lookup_insert_eq in Hn. injection Hn as <-. split.
      * apply Hsub, list_elem_of_here.
      * apply elem_of_app. right. apply list_elem_of_here.
    + rewrite lookup_insert_ne in Hn by done.
      destruct (Hinv n s Hn) as [H1 H2]. split; [done|].
      apply elem_of_app. by left.
Qed.

(** Every record of [data["connections"]] comes from a connection of
    the scene both of whose ends were given an identity. *)
Lemma collect_conn_records (ids : gmap node string) (sc its : list item)
    (P : json -> Prop) out :
  (forall c s t, IConn c ∈ sc -> ids !! start_node c = Some s ->
                 ids !! end_node c = Some t -> P (conn_record s t c)) ->
  (forall it, it ∈ its -> it ∈ sc) ->
  Forall P out -> Forall P (foldl (collect_conn ids) out its).
Proof.
  intros HP. revert out. induction its as [|it its IH]; intros out Hsub Hout; [done|].
  simpl. apply IH.
  - intros it' Hit'. by apply Hsub, list_elem_of_further.
  - destruct it as [|c|]; simpl; try done.
    destruct (ids !! start_node c) as [s|] eqn:Hs; [|done].
    destruct (ids !! end_node c) as [t|] eqn:Ht; [|done].
    apply Forall_app. split; [done|]. constructor; [|done].
    apply HP; [|done..]. apply Hsub, list_elem_of_here.
Qed.

Lemma keeps_ok_bind {A B} (m : M A) (k : A -> M B) :
  keeps_ok m -> (forall a, keeps_ok (k a)) -> keeps_ok (bind m k).
Proof.
  intros Hm Hk e Hok. unfold bind. specialize (Hm e Hok).
  destruct (m e) as [e1 [a|x]]; simpl in *; [|done]. by apply Hk.
Qed.

Lemma keeps_ok_lift {A} (o : outcome A) : keeps_ok (lift o).
Proof. by intros e. Qed.

Lemma keeps_ok_modify (f : FlowchartEditor -> FlowchartEditor) :
  (forall e, history_ok e -> history_ok (f e)) -> keeps_ok (modify f).
Proof. intros Hf e. apply Hf. Qed.

Lemma keeps_ok_for_each {A} (l : list A) (body : A -> M unit) :
  (forall x, keeps_ok (body x)) -> keeps_ok (for_each l body).
Proof.
  intros Hb. induction l as [|x l IH]; simpl; [by intros e|].
  apply keeps_ok_bind; [done|by intros _].
Qed.

Lemma keeps_ok_create_node type text pos c :
  keeps_ok (create_node metrics_width type text pos c).
Proof.
  intros e Hok. unfold create_node.
  by destruct (new_FlowchartNode metrics_width type text pos).
Qed.

Lemma keeps_ok_load_nodes l loaded :
  keeps_ok (load_nodes metrics_width l loaded).
Proof.
  revert loaded. induction l as [|node_data l IH]; intros loaded; simpl;
    [by intros e|].
  apply keeps_ok_bind; [|done]. unfold load_node, add_loaded_node.
  repeat (apply keeps_ok_bind; [try apply keeps_ok_lift|intros ?]);
    try apply keeps_ok_create_node; by intros e.
Qed.

Lemma keeps_ok_load_connection loaded conn_data :
  keeps_ok (load_connection connection_color loaded conn_data).
Proof.
  unfold load_connection.
  apply keeps_ok_bind; [apply keeps_ok_lift|intros js].
  apply keeps_ok_bind; [apply keeps_ok_lift|intros [s|]]; [|by intros e].
  apply keeps_ok_bind; [apply keeps_ok_lift|intros jt].
  apply keeps_ok_bind; [apply keeps_ok_lift|intros [t|]]; [|by intros e].
  apply keeps_ok_bind; [apply keeps_ok_lift|intros cw].
  by apply keeps_ok_modify.
Qed.

(** [openFlowchart] keeps the log within its bounds, whether it fails or
    not. *)
Lemma openFlowchart_ok confirm file_path contents e :
  history_ok e ->
  history_ok (openFlowchart metrics_width connection_color confirm file_path
                            contents e).1.
Proof.
  intros Hok. unfold openFlowchart.
  repeat (match goal with |- context [if ?b then _ else _] => destruct b end);
    try done.
  unfold try_except.
  assert (keeps_ok (open_body metrics_width connection_color file_path contents))
    as Hbody.
  { unfold open_body, and_then.
    repeat (apply keeps_ok_bind;
            [first [apply keeps_ok_lift | by apply keeps_ok_modify
                   | apply keeps_ok_load_nodes
                   | apply keeps_ok_for_each; intros ?;
                     apply keeps_ok_load_connection]
            |intros ?]).
    apply keeps_ok_modify. intros e1 _. apply initial_ok. }
  specialize (Hbody e Hok).
  by destruct (open_body _ _ _ _ e) as [e1 [[]|x]].
Qed.

(** C10: every connection record that [save_flowchart] writes comes from
    a connection of the scene whose two end nodes are nodes of the scene
    serialized in the same save, and its ["start"] and ["end"] are the
    ["id"] of the records of these two nodes in the ["nodes"] list of the
    same file. *)
Theorem saved_connections_reference_saved_nodes h sc :
  exists ns cs,
    collect_data h sc = JObj [("nodes", JArr ns); ("connections", JArr cs)] /\
    forall r, r ∈ cs ->
      exists c s t,
        r = conn_record s t c /\ IConn c ∈ sc /\
        INode (start_node c) ∈ sc /\ INode (end_node c) ∈ sc /\
        node_record s (h (start_node c)) ∈ ns /\
        node_record t (h (end_node c)) ∈ ns /\
        subscript r "start" = Returned (JStr s) /\
        subscript r "end" = Returned (JStr t) /\
        subscript (node_record s (h (start_node c))) "id" = Returned (JStr s) /\
        subscript (node_record t (h (end_node c))) "id" = Returned (JStr t).
Proof.
  unfold collect_data.
  pose proof (collect_node_ids h sc sc (0, ∅, [])) as Hids.
  destruct (foldl (collect_node h) (0, ∅, []) sc) as [[k ids] ns] eqn:Hloop.
  simpl in Hids. exists ns, (foldl (collect_conn ids) [] sc).
  split; [done|].
  assert (forall n s, ids !! n = Some s -> INode n ∈ sc /\ node_record s (h n) ∈ ns)
    as Hid.
  { apply Hids; [done|]. intros n s Hn. by rewrite lookup_empty in Hn. }
  apply Forall_forall.
  apply (collect_conn_records ids sc sc); [|done|constructor].
  intros c s t Hc Hs Ht. exists c, s, t.
  destruct (Hid _ _ Hs) as [? ?]. destruct (Hid _ _ Ht) as [? ?].
  by repeat split.
Qed.

Lemma collect_node_prefix h its st :
  exists more, (foldl (collect_node h) st its).2 = st.2 ++ more.
Proof.
  revert st. induction its as [|it its IH]; intros st; simpl.
  - exists []. by rewrite app_nil_r.
  - destruct (IH (collect_node h st it)) as [more ->].
    destruct it as [n| |]; try by exists more.
    destruct st as [[k ids] out]. simpl.
    eexists. by rewrite <- app_assoc.
Qed.

(** With a node in the scene, [data["nodes"]] starts with a record. *)
Lemma collect_node_first h its st :
  existsb is_FlowchartNode its = true ->
  exists s a rest,
    (foldl (collect_node h) st its).2 = st.2 ++ node_record s a :: rest.
Proof.
  revert st. induction its as [|it its IH]; intros st Hex; [done|].
  destruct it as [n| |]; simpl in *; try by apply IH.
  destruct st as [[k ids] out].
  destruct (collect_node_prefix h its
              (S k, <[n:=pretty (S k)]> ids, out ++ [node_record (pretty (S k)) (h n)]))
    as [more ->].
  simpl. exists (pretty (S k)), (h n), more. by rewrite <- app_assoc.
Qed.

(** Without a node, nothing is written. *)
Lemma collect_node_none h its st :
  existsb is_FlowchartNode its = false -> foldl (collect_node h) st its = st.
Proof.
  revert st. induction its as [|it its IH]; intros st Hex; [done|].
  destruct it as [n| |]; simpl in *; try done; by apply IH.
Qed.

Lemma collect_conn_none its out : foldl (collect_conn ∅) out its = out.
Proof.
  revert out. induction its as [|it its IH]; intros out; [done|].
  simpl. rewrite <- (IH out) at 2. f_equal.
  by destruct it as [|c|].
Qed.

(** C2: after a save to [map.flow], opening the file just written gives
    an empty scene, for every document: the scene is cleared, and as soon as
    there is a node, its record has no ["pos_x"] (save writes ["x"],
    ["y"], ["start"], ["end"]; the method reads ["pos_x"], ["pos_y"],
    ["start_id"], ["end_id"]), so that the method stops with an error
    box.  The module-level [openFlowchart] of the same file reads the
    keys that save writes: on the two-node document it builds two nodes of
    the saved type, text, position and colour, and the connection
    between them. *)
Theorem save_then_open_loses_document e confirm :
  let data := collect_data (nodes e) (items e) in
  let saved := save_to "map.flow" (Returned tt) e in
  let r := openFlowchart metrics_width connection_color confirm "map.flow"
                         (Returned data) saved.1 in
  saved.2 = Returned (true, Some ("map.flow", data)) /\
  r.2 = Returned tt /\
  items r.1 = [] /\
  dialogs r.1 = dialogs e ++
    (if existsb is_FlowchartNode (items e)
     then [critical_open (KeyError (KStr "pos_x"))] else []) /\
  (let data2 := collect_data (nodes two_nodes) (items two_nodes) in
   let saved2 := save_to "map.flow" (Returned tt) two_nodes in
   let r' := openFlowchart_function text_metrics hashed_color confirm "map.flow"
                                    (Returned data2) saved2.1 in
   r'.2 = Returned true /\
   items r'.1 = [IConn (mkConn 6 5 4 "#e6a173" 2 true); INode 5; INode 4] /\
   nodes r'.1 5 = nodes two_nodes 1 /\ nodes r'.1 4 = nodes two_nodes 2).
Proof.
  intros data saved r.
  set (e0 := showMessage (msg_saved "map.flow") (setModified false e)).
  assert (r = if existsb is_FlowchartNode (items e)
              then (show_dialog (critical_open (KeyError (KStr "pos_x")))
                      (set_current_file (Some "map.flow") (set_items [] e0)),
                    Returned tt)
              else (showMessage (msg_opened "map.flow")
                      (set_central_index 1 (setModified false
                         (set_history_index (-1) (set_history []
                            (set_current_file (Some "map.flow")
                               (set_items [] e0)))))),
                    Returned tt)) as ->.
  { unfold r, saved, save_to, openFlowchart. cbn [fst is_modified setModified showMessage].
    rewrite (bool_decide_eq_false_2 ("map.flow" = "")) by done.
    cbn [andb]. fold e0.
    unfold data, collect_data, try_except, open_body.
    destruct (existsb is_FlowchartNode (items e)) eqn:Hex.
    - destruct (collect_node_first (nodes e) (items e) (0, ∅, []) Hex)
        as (s & a & rest & Hns).
      destruct (foldl (collect_node (nodes e)) (0, ∅, []) (items e))
        as [[k ids] ns]. simpl in Hns. subst ns. reflexivity.
    - rewrite (collect_node_none (nodes e) (items e) _ Hex), collect_conn_none.
      reflexivity. }
  split; [done|]. split; [|split; [|split]].
  - by destruct (existsb _ _).
  - by destruct (existsb _ _).
  - destruct (existsb _ _); simpl; [done|by rewrite app_nil_r].
  - vm_compute. by repeat split.
Qed.

(** C3: when the file cannot be read or parsed, [openFlowchart] shows
    one error box and returns, the log and the current file are as
    before, but the scene is empty: it was cleared before the file was
    opened.  The module-level [openFlowchart] of the same file parses
    first and leaves the scene as it was. *)
Theorem openFlowchart_failure_clears_scene e err :
  let r := openFlowchart metrics_width connection_color Discard "missing.flow"
                         (Raised err) e in
  let r' := openFlowchart_function metrics_width connection_color Discard
                                   "missing.flow" (Raised err) e in
  r.2 = Returned tt /\
  dialogs r.1 = dialogs e ++ [critical_open err] /\
  items r.1 = [] /\
  history r.1 = history e /\ history_index r.1 = history_index e /\
  current_file r.1 = current_file e /\
  r'.2 = Returned false /\
  dialogs r'.1 = dialogs e ++ [critical_open err] /\
  items r'.1 = items e /\
  items two_nodes <> [].
Proof.
  unfold openFlowchart, openFlowchart_function.
  rewrite !(bool_decide_eq_false_2 (Discard = _)) by done.
  rewrite !andb_false_r. simpl. by repeat split.
Qed.

End PersistFacts.

(** ** More on the history log *)

Section HistoryMore.

Variable metrics_width : string -> Z.
Variable connection_color : node -> node -> string.
Variable reply : node -> StandardButton.
Variable fuel : nat.

(** X1: whatever records are passed to [addHistory] one after the other,
    starting from the empty log, the log holds the last twenty of them in
    order (all of them when there are fewer), and the index points at the
    last one. *)
Theorem addHistory_keeps_last_twenty (l : list HistoryRecord) :
  let e := foldl (fun e d => addHistory d e) initial l in
  history e = drop (length l - max_history) l /\
  length (history e) = min (length l) max_history /\
  history_index e = (Z.of_nat (length (history e)) - 1)%Z /\
  history_ok e.
Proof.
  induction l as [|d l IH] using rev_ind.
  - simpl. repeat split; try done; simpl; unfold max_history; lia.
  - rewrite foldl_app. cbn [foldl].
    set (e := foldl (fun e d => addHistory d e) initial l) in *.
    destruct IH as (Hh & Hlen & Hidx & Hok).
    assert (history (addHistory d e)
            = drop (length (l ++ [d]) - max_history) (l ++ [d])) as Hh'.
    { rewrite (addHistory_history d e Hok). cbv zeta.
      replace (Z.to_nat (history_index e + 1)) with (length (history e)) by lia.
      rewrite take_ge by lia. rewrite length_app, Hlen. simpl.
      rewrite Hh. unfold max_history in *. rewrite length_app. simpl.
      destruct (decide (length l < 20)) as [Hlt|Hge].
      - replace (length l - 20) with 0 by lia. simpl.
        replace (length l `min` 20 + 1 - 20) with 0 by lia.
        by replace (length l + 1 - 20) with 0 by lia.
      - replace (length l `min` 20 + 1 - 20) with 1 by lia.
        replace (length l + 1 - 20) with (1 + (length l - 20)) by lia.
        rewrite !drop_app_le by (rewrite ?length_drop; lia).
        by rewrite drop_drop, (Nat.add_comm (length l - 20) 1). }
    split; [exact Hh'|]. split; [|split; [reflexivity|by apply addHistory_ok]].
    rewrite Hh', length_drop, !length_app. simpl. unfold max_history. lia.
Qed.

(** Past its guard, [redo] always moves the index, also when it raises
    afterwards. *)
Lemma redo_moves e :
  (history_index e < Z.of_nat (length (history e)) - 1)%Z ->
  let e' := (redo metrics_width connection_color reply fuel e).1 in
  history e' = history e /\ history_index e' = (history_index e + 1)%Z.
Proof.
  intros Hlt. unfold redo. rewrite bool_decide_eq_false_2 by lia.
  set (e0 := set_history_index (history_index e + 1) e).
  destruct (getitem (history e0) (history_index e0)) as [data|x]; [|done].
  rewrite and_then_run. destruct (keeps_log_redo_record metrics_width connection_color reply fuel
              data e0) as [H1 H2].
  destruct (redo_record _ _ _ _ data e0) as [e1 [[]|x]]; simpl in *; by split.
Qed.

Lemma getitem_returned {A} (l : list A) (i : Z) x :
  (0 <= i)%Z -> getitem l i = Returned x -> (i < Z.of_nat (length l))%Z.
Proof.
  intros Hi. unfold getitem.
  rewrite (bool_decide_eq_true_2 (0 <= i)%Z Hi).
  rewrite (bool_decide_eq_true_2 (0 <= i)%Z Hi).
  destruct (l !! Z.to_nat i) eqn:Hl; [|done]. intros _.
  apply lookup_lt_Some in Hl. lia.
Qed.

(** X2: when [undo] returns normally from a record (index not below
    zero), the entries are as before and the index is one lower; [redo]
    right afterwards puts the index back on that record, whether or not
    [redo] itself raises, and leaves the entries alone. *)
Theorem redo_after_undo_index e e1 :
  (0 <= history_index e)%Z ->
  undo metrics_width connection_color reply fuel e = (e1, Returned tt) ->
  history e1 = history e /\
  history_index e1 = (history_index e - 1)%Z /\
  history (redo metrics_width connection_color reply fuel e1).1 = history e /\
  history_index (redo metrics_width connection_color reply fuel e1).1
  = history_index e.
Proof.
  intros Hidx Hundo.
  assert (history e1 = history e /\ history_index e1 = (history_index e - 1)%Z /\
          (history_index e < Z.of_nat (length (history e)))%Z) as (Hh & Hi & Hlt).
  { revert Hundo. unfold undo. rewrite bool_decide_eq_false_2 by lia.
    destruct (getitem (history e) (history_index e)) as [data|x] eqn:Hget; [|done].
    apply getitem_returned in Hget; [|done].
    rewrite and_then_run.
    destruct (keeps_log_undo_record metrics_width connection_color reply fuel
                data e) as [H1 H2].
    destruct (undo_record _ _ _ _ data e) as [e' [[]|x]]; [|done].
    simpl in *. intros [= <-]. simpl. repeat split; [done|lia|done]. }
  split; [done|]. split; [done|].
  destruct (redo_moves e1) as [H1 H2]; [rewrite Hh, Hi; lia|].
  split; [congruence|]. rewrite H2, Hi. lia.
Qed.

End HistoryMore.

(** One added node: undo, then redo. *)
Lemma redo_after_undo_index_witness :
  exists e1,
    history e1 = history one_node /\
    history_index e1 = (history_index one_node - 1)%Z /\
    history (redo text_metrics hashed_color (fun _ => Yes) 8 e1).1
    = history one_node /\
    history_index (redo text_metrics hashed_color (fun _ => Yes) 8 e1).1
    = history_index one_node.
Proof.
  eexists.
  apply (redo_after_undo_index text_metrics hashed_color (fun _ => Yes) 8 one_node).
  - simpl. lia.
  - reflexivity.
Defined.

(** ** More on descendants and delete *)

Section GraphMore.
Import Graph.

(** The list that [getAllChildNodes] builds: each direct child, in the
    order of [get_child_nodes], followed by what the recursive call
    returned for it. *)
Lemma collect_children rec self its ds :
  collect rec self its = Some ds ->
  exists subs,
    Forall2 (fun c sub => rec c = Some sub)
            (omap (fun it => match it with
                             | IConn c => if decide (start_node c = self)
                                          then Some (end_node c) else None
                             | _ => None
                             end) its) subs /\
    ds = mjoin (zip_with cons
                  (omap (fun it => match it with
                                   | IConn c => if decide (start_node c = self)
                                                then Some (end_node c) else None
                                   | _ => None
                                   end) its) subs).
Proof.
  revert ds. induction its as [|it its IH]; intros ds Hc; simpl in Hc.
  - injection Hc as <-. exists []. by split; [constructor|].
  - destruct it as [m|c|]; try (by apply IH). simpl.
    destruct (decide (start_node c = self)); [|by apply IH].
    destruct (rec (end_node c)) as [sub|] eqn:Hr; [|done].
    destruct (collect rec self its) as [more|]; [|done].
    injection Hc as <-. destruct (IH more eq_refl) as (subs & Hsubs & ->).
    exists (sub :: subs). split; [by constructor|done].
Qed.

Lemma getAllChildNodes_children fuel sc n ds :
  getAllChildNodes fuel sc n = Some ds ->
  exists subs,
    Forall2 (fun c sub => exists f, getAllChildNodes f sc c = Some sub)
            (get_child_nodes sc n) subs /\
    ds = mjoin (zip_with cons (get_child_nodes sc n) subs).
Proof.
  destruct fuel as [|f]; [done|]. simpl. unfold get_child_nodes.
  destruct (in_scene sc n).
  - intros Hc. destruct (collect_children _ _ _ _ Hc) as (subs & Hsubs & ->).
    exists subs. split; [|done].
    eapply Forall2_impl; [exact Hsubs|]. intros c sub Hsub. by exists f.
  - intros [= <-]. exists []. by split; [constructor|].
Qed.

Lemma getAllChildNodes_nil fuel sc c sub :
  getAllChildNodes fuel sc c = Some sub ->
  sub = [] <-> get_child_nodes sc c = [].
Proof.
  intros Hg. destruct (getAllChildNodes_children _ _ _ _ Hg) as (subs & Hsubs & ->).
  destruct Hsubs as [|c' sub' cs subs' H1 H2]; simpl; by split.
Qed.

(** X7: when [getAllChildNodes] returns, its list starts each direct
    child's part with that child, so it is at least as long as
    [get_child_nodes]; it is longer, which is when [_toggle_fold_node]
    asks which levels to fold, exactly when some direct child has a child
    of its own. *)
Theorem descendants_longer_than_children fuel sc n ds :
  getAllChildNodes fuel sc n = Some ds ->
  length (get_child_nodes sc n) <= length ds /\
  (length (get_child_nodes sc n) < length ds <->
   exists c, c ∈ get_child_nodes sc n /\ get_child_nodes sc c <> []).
Proof.
  intros Hg. destruct (getAllChildNodes_children _ _ _ _ Hg) as (subs & Hsubs & ->).
  clear Hg. induction Hsubs as [|c sub cs subs [f Hc] Hrest IH]; simpl.
  - split; [done|]. split; [lia|]. intros (c & Hc & _). by apply elem_of_nil in Hc.
  - destruct IH as [IH1 IH2]. rewrite length_app. split; [lia|].
    pose proof (getAllChildNodes_nil _ _ _ _ Hc) as Hnil. split.
    + intros Hlt. destruct sub as [|d sub].
      * simpl in Hlt. destruct IH2 as [IH2 _].
        destruct IH2 as (c' & Hc' & Hne); [lia|].
        exists c'. split; [by apply list_elem_of_further|done].
      * exists c. split; [apply list_elem_of_here|].
        intros Hn. by apply Hnil in Hn.
    + intros (c' & Hc' & Hne). apply elem_of_cons in Hc' as [->|Hc'].
      * destruct sub; [by destruct Hne; apply Hnil|simpl; lia].
      * destruct IH2 as [_ IH2]. specialize (IH2 (ex_intro _ c' (conj Hc' Hne))).
        lia.
Qed.

(** X8: once a confirmed [deleteNode] has returned, the node is not in
    the scene, and calling [deleteNode] on it again, whatever is answered,
    returns the scene as it is. *)
Theorem deleteNode_again fuel sc n sc' :
  deleteNode fuel Yes sc n = Returned sc' ->
  (INode n ∉ sc') /\
  forall f answer, deleteNode (S f) answer sc' n = Returned sc'.
Proof.
  intros Hdel.
  assert (INode n ∉ sc') as Hn.
  { revert Hdel. unfold deleteNode.
    destruct (getAllChildNodes fuel sc n) as [ds|]; [|done].
    destruct (in_scene sc n) eqn:Hin.
    - intros [= <-]. intros [_ H]%elem_of_remove_node. done.
    - intros [= <-]. intros H%in_scene_elem. congruence. }
  split; [done|]. intros f answer. unfold deleteNode.
  assert (in_scene sc' n = false) as Hin.
  { destruct (in_scene sc' n) eqn:Hin; [|done]. by apply in_scene_elem in Hin. }
  destruct answer; try done. simpl. by rewrite Hin.
Qed.

End GraphMore.

(** The diamond: node 0 has grandchildren. *)
Lemma descendants_longer_than_children_witness :
  length (Graph.get_child_nodes Graph.diamond 0) <= length [1; 3; 2; 3] /\
  (length (Graph.get_child_nodes Graph.diamond 0) < length [1; 3; 2; 3] <->
   exists c, c ∈ Graph.get_child_nodes Graph.diamond 0 /\
             Graph.get_child_nodes Graph.diamond c <> []).
Proof.
  apply (descendants_longer_than_children 4 Graph.diamond 0 [1; 3; 2; 3]).
  reflexivity.
Defined.

(** Node 1 of the diamond, deleted twice. *)
Lemma deleteNode_again_witness :
  (INode 1 ∉ [INode 0; INode 2; IConn (mkConn 11 0 2 "#e6a173" 2 true)]) /\
  forall f answer,
    Graph.deleteNode (S f) answer
      [INode 0; INode 2; IConn (mkConn 11 0 2 "#e6a173" 2 true)] 1
    = Returned [INode 0; INode 2; IConn (mkConn 11 0 2 "#e6a173" 2 true)].
Proof.
  apply (deleteNode_again 5 Graph.diamond 1). reflexivity.
Defined.

(** ** More on folding *)

Section FoldMoreFacts.
Import Fold FoldMore.

Lemma dict_set_fresh k v d :
  k ∉ d.*1 -> dict_set k v d = d ++ [(k, v)].
Proof.
  induction d as [|[k' v'] d IH]; intros Hk; [done|]. simpl in *.
  apply not_elem_of_cons in Hk as [Hne Hk].
  rewrite decide_False by done. by rewrite IH.
Qed.

(** Showing or hiding connections leaves the graph as it is. *)
Lemma in_scene_set_conn_visible n c b sc m :
  in_scene (set_conn_visible n c b sc) m = in_scene sc m.
Proof.
  unfold in_scene, set_conn_visible. induction sc as [|it sc IH]; [done|].
  simpl. rewrite IH. f_equal. destruct it as [k|k|]; try done.
  by destruct (decide (start_node k = n /\ end_node k = c)).
Qed.

Lemma omap_map_ext {A B C} (f : B -> option C) (g : A -> B)
    (f' : A -> option C) (l : list A) :
  (forall x, f (g x) = f' x) -> omap f (map g l) = omap f' l.
Proof.
  intros Hfg. induction l as [|x l IH]; [done|].
  change (omap f (map g (x :: l)))
    with (match f (g x) with Some y => y :: omap f (map g l) | None => omap f (map g l) end).
  change (omap f' (x :: l))
    with (match f' x with Some y => y :: omap f' l | None => omap f' l end).
  by rewrite Hfg, IH.
Qed.

Lemma get_child_nodes_set_conn_visible n c b sc m :
  Graph.get_child_nodes (set_conn_visible n c b sc) m = Graph.get_child_nodes sc m.
Proof.
  unfold Graph.get_child_nodes. rewrite in_scene_set_conn_visible.
  destruct (in_scene sc m); [|done]. unfold set_conn_visible.
  apply omap_map_ext. intros [k|k|]; try done.
  by destruct (decide (start_node k = n /\ end_node k = c)).
Qed.

Lemma get_child_nodes_hide_all n b cs sc m :
  Graph.get_child_nodes (foldl (fun s c => set_conn_visible n c b s) sc cs) m
  = Graph.get_child_nodes sc m.
Proof.
  revert sc. induction cs as [|c cs IH]; intros sc; [done|].
  simpl. by rewrite IH, get_child_nodes_set_conn_visible.
Qed.

(** What the loop of [_collapse_node] does to the node objects and to the
    scene. *)
Lemma collapse_children n cs (h : store) (sc : scene) d0 :
  children_visibility (h n) = Some d0 ->
  let w := foldl (collapse_child n) (h, sc) cs in
  (forall m, visible (w.1 m) = if bool_decide (m ∈ cs) then false else visible (h m)) /\
  (forall m, is_folded (w.1 m) = is_folded (h m)) /\
  (NoDup cs -> (forall c, c ∈ cs -> c ∉ d0.*1) ->
   children_visibility (w.1 n) = Some (d0 ++ map (fun c => (c, visible (h c))) cs)) /\
  w.2 = foldl (fun s c => set_conn_visible n c false s) sc cs.
Proof.
  revert h sc d0. induction cs as [|c cs IH]; intros h sc d0 Hd; simpl.
  - repeat split; try done. intros _ _. by rewrite app_nil_r.
  - set (h1 := set_attr h n (set_children_visibility
                               (dict_set c (visible (h c)) (default [] (children_visibility (h n))))
                               (h n))).
    set (h2 := set_attr h1 c (set_visible false (h1 c))).
    assert (forall m, visible (h2 m) = if decide (m = c) then false else visible (h m))
      as Hv2.
    { intros m. unfold h2, h1, set_attr.
      destruct (decide (m = c)) as [->|]; [done|].
      by destruct (decide (m = n)) as [->|]. }
    assert (forall m, is_folded (h2 m) = is_folded (h m)) as Hf2.
    { intros m. unfold h2, h1, set_attr.
      destruct (decide (m = c)) as [->|]; simpl;
        by destruct (decide (_ = n)) as [->|]. }
    assert (children_visibility (h2 n)
            = Some (dict_set c (visible (h c)) d0)) as Hd2.
    { unfold h2, h1, set_attr. rewrite Hd. simpl.
      destruct (decide (n = c)) as [->|]; simpl; by rewrite decide_True. }
    destruct (IH h2 (set_conn_visible n c false sc) _ Hd2) as (IHv & IHf & IHd & IHs).
    split; [|split; [|split]].
    + intros m. rewrite IHv, Hv2. destruct (decide (m = c)) as [->|Hne].
      * rewrite (bool_decide_eq_true_2 (c ∈ c :: cs)) by apply list_elem_of_here.
        by destruct (bool_decide (c ∈ cs)).
      * destruct (decide (m ∈ cs)) as [Hin|Hnin].
        -- rewrite !bool_decide_eq_true_2; [done|by apply list_elem_of_further|done].
        -- rewrite !bool_decide_eq_false_2; [done| |done].
           intros [->|?]%elem_of_cons; done.
    + intros m. by rewrite IHf, Hf2.
    + intros Hnd Hfresh. apply NoDup_cons in Hnd as [Hc Hnd].
      assert (c ∉ d0.*1) as Hc0 by apply Hfresh, list_elem_of_here.
      etrans; [apply IHd; [done|]|].
      * intros c' Hc'. rewrite (dict_set_fresh _ _ _ Hc0), fmap_app.
        simpl. rewrite elem_of_app, list_elem_of_singleton. intros [H | ->].
        -- by apply (Hfresh c'); [apply list_elem_of_further|].
        -- done.
      * rewrite (dict_set_fresh _ _ _ Hc0), <- app_assoc. simpl. do 3 f_equal.
        apply map_ext_in. intros c' Hc'%list_elem_of_In. rewrite Hv2.
        rewrite decide_False; [done|]. by intros ->.
    + exact IHs.
Qed.

(** What the loop of [_expand_node] does. *)
Lemma expand_children n (v : node -> bool) cs (h : store) (sc : scene) :
  let w := foldl (expand_child n) (h, sc) (map (fun c => (c, v c)) cs) in
  (forall m, visible (w.1 m) = if bool_decide (m ∈ cs) then v m else visible (h m)) /\
  (forall m, is_folded (w.1 m) = is_folded (h m)) /\
  (forall m, children_visibility (w.1 m) = children_visibility (h m)) /\
  w.2 = foldl (fun s c => set_conn_visible n c true s) sc cs.
Proof.
  revert h sc. induction cs as [|c cs IH]; intros h sc; simpl; [done|].
  set (h1 := set_attr h c (set_visible (v c) (h c))).
  destruct (IH h1 (set_conn_visible n c true sc)) as (IHv & IHf & IHd & IHs).
  split; [|split; [|split]]; [| | |exact IHs].
  - intros m. rewrite IHv. unfold h1, set_attr.
    destruct (decide (m = c)) as [->|Hne].
    + rewrite (bool_decide_eq_true_2 (c ∈ c :: cs)) by apply list_elem_of_here.
      by destruct (bool_decide (c ∈ cs)).
    + destruct (decide (m ∈ cs)) as [Hin|Hnin].
      * rewrite !bool_decide_eq_true_2; [done|by apply list_elem_of_further|done].
      * rewrite !bool_decide_eq_false_2; [done| |done].
        intros [->|?]%elem_of_cons; done.
  - intros m. rewrite IHf. unfold h1, set_attr. by destruct (decide (m = c)) as [->|].
  - intros m. rewrite IHd. unfold h1, set_attr. by destruct (decide (m = c)) as [->|].
Qed.

(** [_collapse_node]: the children are hidden, their visibility is
    recorded on the node, the node is marked folded. *)
Lemma _collapse_node_effect sb n cs (h : store) (sc : scene) :
  let w1 := (_collapse_node sb n cs (h, sc)).1 in
  (forall m, visible (w1.1 m) = if bool_decide (m ∈ cs) then false else visible (h m)) /\
  is_folded (w1.1 n) = Some true /\
  (forall m, m <> n -> is_folded (w1.1 m) = is_folded (h m)) /\
  (NoDup cs ->
   children_visibility (w1.1 n) = Some (map (fun c => (c, visible (h c))) cs)) /\
  w1.2 = foldl (fun s c => set_conn_visible n c false s) sc cs.
Proof.
  unfold _collapse_node. cbv zeta.
  set (h0 := set_attr h n (set_children_visibility [] (h n))).
  assert (children_visibility (h0 n) = Some []) as Hd0.
  { unfold h0, set_attr. by rewrite decide_True. }
  assert (forall m, visible (h0 m) = visible (h m)) as Hv0.
  { intros m. unfold h0, set_attr. by destruct (decide (m = n)) as [->|]. }
  assert (forall m, is_folded (h0 m) = is_folded (h m)) as Hf0.
  { intros m. unfold h0, set_attr. by destruct (decide (m = n)) as [->|]. }
  clearbody h0.
  destruct (collapse_children n cs h0 sc [] Hd0) as (Hv & Hf & Hd & Hs).
  destruct (foldl (collapse_child n) (h0, sc) cs) as [h1 sc1]. simpl in *.
  split; [|split; [|split; [|split]]].
  - intros m. unfold set_attr. rewrite <- Hv0, <- Hv.
    by destruct (decide (m = n)) as [->|].
  - unfold set_attr. by rewrite decide_True.
  - intros m Hm. unfold set_attr. rewrite decide_False by done.
    by rewrite Hf, Hf0.
  - intros Hnd. unfold set_attr. rewrite decide_True by done. simpl.
    rewrite Hd; [|done|by intros c _ ?%elem_of_nil]. f_equal.
    apply map_ext_in. intros c _. by rewrite Hv0.
  - done.
Qed.

(** [_expand_node]: the recorded visibility is put back. *)
Lemma _expand_node_effect sb n child_nodes (v : node -> bool) cs
    (h : store) (sc : scene) :
  children_visibility (h n) = Some (map (fun c => (c, v c)) cs) ->
  let w1 := (_expand_node sb n child_nodes (h, sc)).1 in
  (forall m, visible (w1.1 m) = if bool_decide (m ∈ cs) then v m else visible (h m)) /\
  is_folded (w1.1 n) = Some false /\
  (forall m, m <> n -> is_folded (w1.1 m) = is_folded (h m)) /\
  w1.2 = foldl (fun s c => set_conn_visible n c true s) sc cs.
Proof.
  intros Hd. unfold _expand_node. cbn [fst]. rewrite Hd.
  destruct (expand_children n v cs h sc) as (Hv & Hf & _ & Hs).
  destruct (foldl (expand_child n) (h, sc) (map (fun c => (c, v c)) cs))
    as [h1 sc1]. simpl in *.
  split; [|split; [|split]].
  - intros m. unfold set_attr. rewrite <- Hv.
    by destruct (decide (m = n)) as [->|].
  - unfold set_attr. by rewrite decide_True.
  - intros m Hm. unfold set_attr. rewrite decide_False by done. by rewrite Hf.
  - done.
Qed.

(** X3: on a node that is not folded and has no two connections to the
    same child, Ctrl and double click hides every direct child, and a
    second Ctrl and double click gives every node the visibility it had
    before the first; the graph is the same throughout. *)
Theorem double_click_twice_restores_visibility sb n (w : world) :
  is_folded (w.1 n) <> Some true ->
  NoDup (Graph.get_child_nodes w.2 n) ->
  let w1 := (extend_node_mouse_double_click_event sb n w).1 in
  let w2 := (extend_node_mouse_double_click_event sb n w1).1 in
  (forall c, c ∈ Graph.get_child_nodes w.2 n -> visible (w1.1 c) = false) /\
  (forall m, visible (w2.1 m) = visible (w.1 m)) /\
  (forall m, Graph.get_child_nodes w2.2 m = Graph.get_child_nodes w.2 m).
Proof.
  destruct w as [h sc]. intros Hfold Hnd w1 w2. cbn [fst snd] in Hfold, Hnd |- *.
  assert (forall w : world,
            extend_node_mouse_double_click_event sb n w
            = match Graph.get_child_nodes w.2 n with
              | [] => (w, Returned tt)
              | c :: cs =>
                  if default false (is_folded (w.1 n))
                  then _expand_node sb n (c :: cs) w
                  else _collapse_node sb n (c :: cs) w
              end) as Hone by reflexivity.
  destruct (Graph.get_child_nodes sc n) as [|c0 cs0] eqn:Hcs.
  { assert (w1 = (h, sc)) as Hw1.
    { unfold w1. rewrite Hone. cbn [fst snd]. by rewrite Hcs. }
    assert (w2 = (h, sc)) as Hw2.
    { unfold w2. rewrite Hw1, Hone. cbn [fst snd]. by rewrite Hcs. }
    rewrite Hw1, Hw2. cbn [fst snd]. repeat split; try done.
    intros c Hc. by apply elem_of_nil in Hc. }
  set (cs := c0 :: cs0) in *.
  assert (default false (is_folded (h n)) = false) as Hnot.
  { destruct (is_folded (h n)) as [[]|]; done. }
  assert (w1 = (_collapse_node sb n cs (h, sc)).1) as Hw1.
  { unfold w1. rewrite Hone. cbn [fst snd]. by rewrite Hcs, Hnot. }
  destruct (_collapse_node_effect sb n cs h sc) as (Hv1 & Hf1 & _ & Hd1 & Hs1).
  clearbody w1. subst w1.
  destruct ((_collapse_node sb n cs (h, sc)).1) as [h1 sc1]. cbn [fst snd] in *.
  assert (Graph.get_child_nodes sc1 n = cs) as Hcs1.
  { by rewrite Hs1, get_child_nodes_hide_all. }
  assert (w2 = (_expand_node sb n cs (h1, sc1)).1) as Hw2.
  { unfold w2. rewrite Hone. cbn [fst snd]. rewrite Hcs1. unfold cs at 1.
    by rewrite Hf1. }
  destruct (_expand_node_effect sb n cs (fun c => visible (h c)) cs h1 sc1 (Hd1 Hnd))
    as (Hv2 & _ & _ & Hs2).
  clearbody w2. subst w2.
  destruct ((_expand_node sb n cs (h1, sc1)).1) as [h2 sc2]. cbn [fst snd] in *.
  split; [|split].
  - intros c Hc. rewrite Hv1. by rewrite bool_decide_eq_true_2.
  - intros m. rewrite Hv2, Hv1. by destruct (bool_decide (m ∈ cs)).
  - intros m. by rewrite Hs2, get_child_nodes_hide_all, Hs1, get_child_nodes_hide_all.
Qed.

Lemma show_descendants ds (h : store) :
  let h' := foldl show_descendant h ds in
  (forall m, visible (h' m) = if bool_decide (m ∈ ds) then true else visible (h m)).
Proof.
  revert h. induction ds as [|d ds IH]; intros h; simpl; [done|].
  intros m. rewrite IH.
  assert (visible (show_descendant h d m)
          = if decide (m = d) then true else visible (h m)) as ->.
  { unfold show_descendant, set_attr. rewrite decide_True by done. simpl.
    destruct (is_folded (h d)) as [[]|]; simpl;
      destruct (decide (m = d)) as [->|]; done. }
  destruct (decide (m = d)) as [->|Hne].
  - rewrite (bool_decide_eq_true_2 (d ∈ d :: ds)) by apply list_elem_of_here.
    by destruct (bool_decide (d ∈ ds)).
  - destruct (decide (m ∈ ds)) as [Hin|Hnin].
    + rewrite !bool_decide_eq_true_2; [done|by apply list_elem_of_further|done].
    + rewrite !bool_decide_eq_false_2; [done| |done].
      intros [->|?]%elem_of_cons; done.
Qed.

Lemma mark_folded_visible sc cs (h : store) m :
  visible (foldl (mark_folded sc) h cs m) = visible (h m).
Proof.
  revert h. induction cs as [|c cs IH]; intros h; simpl; [done|].
  rewrite IH. unfold mark_folded.
  destruct (Graph.get_child_nodes sc c); [done|].
  unfold set_attr. by destruct (decide (m = c)) as [->|].
Qed.

(** X5: when the traversal returns, [_fold_all_levels] leaves every
    direct child hidden and every other descendant visible, whether
    [setBrush] returns or raises; the nodes that are no descendants keep
    their visibility. *)
Theorem fold_all_levels_hides_first_level_only sb fuel n (w : world) ds :
  Graph.getAllChildNodes fuel w.2 n = Some ds ->
  let w1 := (_fold_all_levels sb fuel n w).1 in
  (forall c, c ∈ Graph.get_child_nodes w.2 n -> visible (w1.1 c) = false) /\
  (forall m, m ∈ ds -> m ∉ Graph.get_child_nodes w.2 n -> visible (w1.1 m) = true) /\
  (forall m, m ∉ ds -> m ∉ Graph.get_child_nodes w.2 n ->
             visible (w1.1 m) = visible (w.1 m)).
Proof.
  destruct w as [h sc]. cbn [fst snd]. intros Hds.
  unfold _fold_all_levels. rewrite Hds.
  set (cs := Graph.get_child_nodes sc n).
  set (h1 := foldl show_descendant h ds).
  pose proof (show_descendants ds h) as Hshow. fold h1 in Hshow. simpl in Hshow.
  destruct (_collapse_node_effect sb n cs h1 sc) as (Hv & _).
  assert (_collapse_node sb n cs (h1, sc)
          = ((_collapse_node sb n cs (h1, sc)).1, sb)) as Hsb.
  { unfold _collapse_node. by destruct (foldl _ _ _). }
  rewrite Hsb. destruct ((_collapse_node sb n cs (h1, sc)).1) as [h2 sc2].
  cbn [fst snd] in *.
  assert (forall m, visible ((match sb with
                              | Returned _ =>
                                  ((foldl (mark_folded sc2) h2 cs, sc2), Returned tt)
                              | Raised e => ((h2, sc2), Raised e)
                              end).1.1 m) = visible (h2 m)) as Hfin.
  { intros m. destruct sb; cbn [fst]; [apply mark_folded_visible|done]. }
  split; [|split].
  - intros c Hc. rewrite Hfin, Hv. by rewrite bool_decide_eq_true_2.
  - intros m Hm Hnc. rewrite Hfin, Hv, bool_decide_eq_false_2 by done.
    rewrite Hshow. by rewrite bool_decide_eq_true_2.
  - intros m Hm Hnc. rewrite Hfin, Hv, bool_decide_eq_false_2 by done.
    rewrite Hshow. by rewrite bool_decide_eq_false_2.
Qed.

Lemma expand_descendants ds (h : store) :
  let h' := foldl expand_descendant h ds in
  (forall m, visible (h' m) = if bool_decide (m ∈ ds) then true else visible (h m)) /\
  (forall m, m ∈ ds -> is_folded (h' m) <> Some true) /\
  (forall m, m ∉ ds -> is_folded (h' m) = is_folded (h m)).
Proof.
  revert h. induction ds as [|d ds IH]; intros h; simpl.
  { split; [done|]. split; [|done]. intros m Hm. by apply elem_of_nil in Hm. }
  destruct (IH (expand_descendant h d)) as (IHv & IHf & IHn).
  assert (forall m, visible (expand_descendant h d m)
                    = if decide (m = d) then true else visible (h m)) as Hv.
  { intros m. unfold expand_descendant, set_attr. rewrite decide_True by done. simpl.
    destruct (is_folded (h d)); simpl; destruct (decide (m = d)) as [->|]; done. }
  assert (forall m, m <> d -> is_folded (expand_descendant h d m) = is_folded (h m))
    as Hf.
  { intros m Hm. unfold expand_descendant, set_attr. rewrite decide_True by done.
    simpl. destruct (is_folded (h d)); simpl; by rewrite ?decide_False by done. }
  assert (is_folded (expand_descendant h d d) <> Some true) as Hfd.
  { unfold expand_descendant, set_attr. rewrite decide_True by done. simpl.
    destruct (is_folded (h d)) eqn:Hd; simpl; rewrite decide_True by done;
      simpl; [done|by rewrite Hd]. }
  split; [|split].
  - intros m. rewrite IHv, Hv. destruct (decide (m = d)) as [->|Hne].
    + rewrite (bool_decide_eq_true_2 (d ∈ d :: ds)) by apply list_elem_of_here.
      by destruct (bool_decide (d ∈ ds)).
    + destruct (decide (m ∈ ds)) as [Hin|Hnin].
      * rewrite !bool_decide_eq_true_2; [done|by apply list_elem_of_further|done].
      * rewrite !bool_decide_eq_false_2; [done| |done].
        intros [->|?]%elem_of_cons; done.
  - intros m Hm. destruct (decide (m ∈ ds)) as [Hin|Hnin]; [by apply IHf|].
    rewrite IHn by done. apply elem_of_cons in Hm as [->|?]; done.
  - intros m Hm. apply not_elem_of_cons in Hm as [Hne Hm].
    by rewrite IHn, Hf.
Qed.

(** X6: when the traversal returns, [expandAllLevels] makes every
    descendant visible and leaves none of them, nor the node, marked
    folded; it changes no item of the scene, so a connection that a fold
    has hidden stays hidden. *)
Theorem expandAllLevels_leaves_connections fuel n e ds :
  Graph.getAllChildNodes fuel (Editor.items e) n = Some ds ->
  let e' := (expandAllLevels fuel n e).1 in
  Editor.items e' = Editor.items e /\
  (forall m, m ∈ ds -> visible (Editor.nodes e' m) = true /\
                       is_folded (Editor.nodes e' m) <> Some true) /\
  is_folded (Editor.nodes e' n) = Some false /\
  (forall m, m ∉ ds -> visible (Editor.nodes e' m) = visible (Editor.nodes e m)).
Proof.
  intros Hds. unfold expandAllLevels. rewrite Hds.
  destruct (expand_descendants ds (Editor.nodes e)) as (Hv & Hf & Hn).
  set (h1 := foldl expand_descendant (Editor.nodes e) ds) in *.
  assert (forall m, visible (set_attr h1 n (set_is_folded false (h1 n)) m)
                    = visible (h1 m)) as Hvn.
  { intros m. unfold set_attr. by destruct (decide (m = n)) as [->|]. }
  destruct (in_scene (Editor.items e) n); cbn [fst]; simpl;
    (split; [done|]; split; [|split]).
  all: try (unfold set_attr; by rewrite decide_True).
  all: try (intros m Hm; rewrite Hvn, Hv; by rewrite bool_decide_eq_false_2).
  all: intros m Hm; rewrite Hvn, Hv, bool_decide_eq_true_2 by done;
    (split; [done|]); unfold set_attr;
    destruct (decide (m = n)) as [->|]; [done|by apply Hf].
Qed.

End FoldMoreFacts.

(** The scenario, with Ctrl and double click on A. *)
Lemma double_click_twice_restores_visibility_witness :
  let w1 := (FoldMore.extend_node_mouse_double_click_event (Returned tt) 0
               Fold.scenario).1 in
  let w2 := (FoldMore.extend_node_mouse_double_click_event (Returned tt) 0 w1).1 in
  (forall c, c ∈ Graph.get_child_nodes Fold.scenario.2 0 -> visible (w1.1 c) = false) /\
  (forall m, visible (w2.1 m) = visible (Fold.scenario.1 m)) /\
  (forall m, Graph.get_child_nodes w2.2 m = Graph.get_child_nodes Fold.scenario.2 m).
Proof.
  apply (double_click_twice_restores_visibility (Returned tt) 0 Fold.scenario).
  - discriminate.
  - change (NoDup [1; 2]). apply NoDup_cons. split; [|apply NoDup_singleton].
    intros H%list_elem_of_singleton. discriminate.
Defined.

(** The scenario, folded at all levels from A. *)
Lemma fold_all_levels_hides_first_level_only_witness :
  let w1 := (Fold._fold_all_levels (Returned tt) 5 0 Fold.scenario).1 in
  (forall c, c ∈ Graph.get_child_nodes Fold.scenario.2 0 -> visible (w1.1 c) = false) /\
  (forall m, m ∈ [1; 3; 2] -> m ∉ Graph.get_child_nodes Fold.scenario.2 0 ->
             visible (w1.1 m) = true) /\
  (forall m, m ∉ [1; 3; 2] -> m ∉ Graph.get_child_nodes Fold.scenario.2 0 ->
             visible (w1.1 m) = visible (Fold.scenario.1 m)).
Proof.
  apply (fold_all_levels_hides_first_level_only (Returned tt) 5 0 Fold.scenario).
  reflexivity.
Defined.

(** The two-node document, expanded from its first node. *)
Lemma expandAllLevels_leaves_connections_witness :
  let e' := (FoldMore.expandAllLevels 5 1 Persist.two_nodes).1 in
  Editor.items e' = Editor.items Persist.two_nodes /\
  (forall m, m ∈ [2] -> visible (Editor.nodes e' m) = true /\
                        is_folded (Editor.nodes e' m) <> Some true) /\
  is_folded (Editor.nodes e' 1) = Some false /\
  (forall m, m ∉ [2] -> visible (Editor.nodes e' m)
                        = visible (Editor.nodes Persist.two_nodes m)).
Proof.
  apply (expandAllLevels_leaves_connections 5 1 Persist.two_nodes [2]).
  reflexivity.
Defined.

(** ** More on saving *)

Section SaveMore.
Import Persist.

Lemma string_app_cons (x : Ascii.ascii) (a b : string) :
  String x a +:+ b = String x (a +:+ b).
Proof. reflexivity. Qed.

Lemma string_app_assoc (a b c : string) : (a +:+ b) +:+ c = a +:+ (b +:+ c).
Proof.
  induction a as [|x a IH]; [done|]. by rewrite !string_app_cons, IH.
Qed.

Lemma string_app_nil_r (a : string) : a +:+ "" = a.
Proof.
  induction a as [|x a IH]; [done|]. by rewrite string_app_cons, IH.
Qed.

Lemma string_rev_app_acc (s acc : string) :
  String.rev_app s acc = String.rev s +:+ acc.
Proof.
  revert acc. induction s as [|x s IH]; intros acc; [done|].
  unfold String.rev. simpl. rewrite (IH (String x acc)), (IH (String x "")).
  by rewrite string_app_assoc.
Qed.

Lemma string_rev_app (s t : string) :
  String.rev (s +:+ t) = String.rev t +:+ String.rev s.
Proof.
  induction s as [|x s IH]; [by rewrite string_app_nil_r|].
  rewrite string_app_cons. unfold String.rev in *. simpl.
  rewrite (string_rev_app_acc (s +:+ t)), (string_rev_app_acc s).
  unfold String.rev. by rewrite IH, string_app_assoc.
Qed.

Lemma string_rev_involutive (s : string) : String.rev (String.rev s) = s.
Proof.
  induction s as [|x s IH]; [done|].
  change (String x s) with (String x "" +:+ s) at 1.
  by rewrite string_rev_app, string_rev_app, IH.
Qed.

Lemma string_prefix_app (a b : string) :
  String.prefix a b = true <-> exists r, b = a +:+ r.
Proof.
  revert b. induction a as [|x a IH]; intros b.
  - destruct b; split; try done; by eexists.
  - destruct b as [|y b]; simpl.
    + split; [done|]. by intros [r ?].
    + destruct (Ascii.ascii_dec x y) as [->|Hne].
      * rewrite IH. split; intros [r Hr]; exists r.
        -- by rewrite string_app_cons, Hr.
        -- rewrite string_app_cons in Hr. by injection Hr.
      * split; [done|]. intros [r Hr]. rewrite string_app_cons in Hr.
        by injection Hr as ? _.
Qed.

(** [s.endswith(suffix)] holds exactly of the strings that are some
    text followed by the suffix. *)
Lemma ends_with_app (suffix s : string) :
  ends_with suffix s = true <-> exists p, s = p +:+ suffix.
Proof.
  unfold ends_with. rewrite string_prefix_app. split.
  - intros [r Hr]. exists (String.rev r).
    rewrite <- (string_rev_involutive s), Hr, string_rev_app.
    by rewrite string_rev_involutive.
  - intros [p ->]. exists (String.rev p). apply string_rev_app.
Qed.

(** X9: when the file dialog of Save As gives a name, the current file
    becomes that name, with [.flow] appended unless it ends with it
    already, before anything is written.  A write that succeeds returns
    true with the document in that file and clears the modified flag; a
    write that fails returns false after one error box and leaves the
    document modified as before, but the current file is the new name all
    the same.  The scene is not touched. *)
Theorem save_flowchart_as_names_flow_file dialog_path write e :
  dialog_path <> "" ->
  let r := save_flowchart_as dialog_path write e in
  exists path,
    current_file r.1 = Some path /\
    (exists stem, path = stem +:+ ".flow") /\
    (path = dialog_path \/
     path = dialog_path +:+ ".flow" /\
     ~ exists stem, dialog_path = stem +:+ ".flow") /\
    items r.1 = items e /\ nodes r.1 = nodes e /\
    match write with
    | Returned _ =>
        r.2 = Returned (true, Some (path, collect_data (nodes e) (items e))) /\
        is_modified r.1 = false /\ dialogs r.1 = dialogs e
    | Raised x =>
        r.2 = Returned (false, None) /\
        is_modified r.1 = is_modified e /\
        dialogs r.1 = dialogs e ++ [critical_save x]
    end.
Proof.
  intros Hne r. unfold r, save_flowchart_as.
  rewrite bool_decide_eq_false_2 by done.
  destruct (ends_with ".flow" dialog_path) eqn:Hends.
  - exists dialog_path. split; [by destruct write|].
    split; [by apply ends_with_app|]. split; [by left|].
    by destruct write.
  - exists (dialog_path +:+ ".flow"). split; [by destruct write|].
    split; [by eexists|]. split.
    + right. split; [done|]. intros Hex%ends_with_app. congruence.
    + by destruct write.
Qed.

End SaveMore.

(** Save As on the two-node document, under the name [copy]. *)
Lemma save_flowchart_as_names_flow_file_witness :
  let r := Persist.save_flowchart_as "copy" (Raised OSError) Persist.two_nodes in
  exists path,
    Editor.current_file r.1 = Some path /\
    (exists stem, path = stem +:+ ".flow") /\
    (path = "copy" \/
     path = "copy" +:+ ".flow" /\ ~ exists stem, "copy" = stem +:+ ".flow") /\
    Editor.items r.1 = Editor.items Persist.two_nodes /\
    Editor.nodes r.1 = Editor.nodes Persist.two_nodes /\
    r.2 = Returned (false, None) /\
    Editor.is_modified r.1 = Editor.is_modified Persist.two_nodes /\
    Editor.dialogs r.1 = Editor.dialogs Persist.two_nodes
                         ++ [Editor.critical_save OSError].
Proof.
  apply (save_flowchart_as_names_flow_file "copy" (Raised OSError) Persist.two_nodes).
  discriminate.
Defined.

Section SaveComplete.
Import Persist.

(** The first loop of [save_flowchart] numbers the nodes of the scene
    from the counter on, in the order of [scene.items()], and gives an
    identity to exactly the nodes it meets. *)
Lemma collect_node_all h (its : list item) k ids out :
  let r := foldl (collect_node h) (k, ids, out) its in
  r.2 = out ++ imap (fun i n => node_record (pretty (S (k + i))) (h n))
                    (omap (fun it => match it with
                                     | INode n => Some n
                                     | _ => None
                                     end) its) /\
  (forall n, is_Some (ids !! n) \/ INode n ∈ its -> is_Some (r.1.2 !! n)).
Proof.
  revert k ids out. induction its as [|it its IH]; intros k ids out; simpl.
  - split; [by rewrite app_nil_r|]. intros n [?|Hn]; [done|].
    by apply elem_of_nil in Hn.
  - destruct it as [m|c|]; simpl.
    + destruct (IH (S k) (<[m:=pretty (S k)]> ids)
                   (out ++ [node_record (pretty (S k)) (h m)])) as [IH1 IH2].
      split.
      * rewrite IH1, <- app_assoc. f_equal. simpl. rewrite Nat.add_0_r.
        f_equal. apply imap_ext. intros i n _. simpl.
        by rewrite Nat.add_succ_r.
      * intros n [Hn|Hn]; apply IH2.
        -- left. destruct (decide (m = n)) as [->|Hne].
           ++ by rewrite lookup_insert_eq.
           ++ by rewrite lookup_insert_ne.
        -- apply elem_of_cons in Hn as [[= ->]|Hn]; [|by right].
           left. by rewrite lookup_insert_eq.
    + destruct (IH k ids out) as [IH1 IH2]. split; [done|].
      intros n [Hn|Hn]; apply IH2; [by left|].
      apply elem_of_cons in Hn as [?|Hn]; [done|by right].
    + destruct (IH k ids out) as [IH1 IH2]. split; [done|].
      intros n [Hn|Hn]; apply IH2; [by left|].
      apply elem_of_cons in Hn as [?|Hn]; [done|by right].
Qed.

(** The second loop only appends. *)
Lemma collect_conn_keeps ids (its : list item) out r :
  r ∈ out -> r ∈ foldl (collect_conn ids) out its.
Proof.
  revert out. induction its as [|it its IH]; intros out Hr; [done|].
  simpl. apply IH. destruct it as [|c|]; simpl; try done.
  destruct (ids !! start_node c); [|done].
  destruct (ids !! end_node c); [|done].
  apply elem_of_app. by left.
Qed.

Lemma collect_conn_all ids (its : list item) out c :
  IConn c ∈ its ->
  is_Some (ids !! start_node c) -> is_Some (ids !! end_node c) ->
  exists s t, conn_record s t c ∈ foldl (collect_conn ids) out its.
Proof.
  revert out. induction its as [|it its IH]; intros out Hc [s Hs] [t Ht].
  { by apply elem_of_nil in Hc. }
  apply elem_of_cons in Hc as [<-|Hc]; [|by apply IH].
  exists s, t. simpl. rewrite Hs, Ht. apply collect_conn_keeps.
  apply elem_of_app. right. apply list_elem_of_here.
Qed.

(** X10: [save_flowchart] writes one record for every node of the
    scene, in the order of [scene.items()] and numbered from 1, and a
    record for every connection of the scene whose two ends are nodes of
    the scene. *)
Theorem save_writes_every_node_and_inner_connection h sc :
  exists cs,
    collect_data h sc
    = JObj [("nodes",
             JArr (imap (fun i n => node_record (pretty (S i)) (h n))
                        (omap (fun it => match it with
                                         | INode n => Some n
                                         | _ => None
                                         end) sc)));
            ("connections", JArr cs)] /\
    forall c, IConn c ∈ sc ->
              INode (start_node c) ∈ sc -> INode (end_node c) ∈ sc ->
              exists s t, conn_record s t c ∈ cs.
Proof.
  unfold collect_data.
  destruct (collect_node_all h sc 0 ∅ []) as [Hns Hids].
  destruct (foldl (collect_node h) (0, ∅, []) sc) as [[k ids] ns].
  simpl in Hns, Hids. subst ns.
  exists (foldl (collect_conn ids) [] sc). split; [done|].
  intros c Hc Hs Ht. apply collect_conn_all; [done| |]; apply Hids; by right.
Qed.

End SaveComplete.

(** ** What opening a file leaves in the scene *)

Section OpenMore.
Import Persist Inv.

Variable metrics_width : string -> Z.
Variable connection_color : node -> node -> string.

Lemma attached_elem sc :
  attached sc = true <->
  forall c, IConn c ∈ sc -> INode (start_node c) ∈ sc /\ INode (end_node c) ∈ sc.
Proof.
  unfold attached. rewrite forallb_forall. split.
  - intros H c Hc. apply list_elem_of_In, H in Hc.
    apply andb_true_iff in Hc as [H1 H2]. by rewrite <- !in_scene_elem.
  - intros H [n|c|] Hit; try done. apply list_elem_of_In, H in Hit as [H1 H2].
    apply andb_true_iff. by rewrite !in_scene_elem.
Qed.

Lemma attached_add_node sc n : attached sc = true -> attached (INode n :: sc) = true.
Proof.
  rewrite !attached_elem. intros H c Hc.
  apply elem_of_cons in Hc as [?|Hc]; [done|].
  destruct (H c Hc). split; by apply list_elem_of_further.
Qed.

Lemma attached_add_conn sc c :
  attached sc = true -> INode (start_node c) ∈ sc -> INode (end_node c) ∈ sc ->
  attached (IConn c :: sc) = true.
Proof.
  rewrite !attached_elem. intros H Hs Ht c' Hc.
  apply elem_of_cons in Hc as [[= ->]|Hc].
  - split; by apply list_elem_of_further.
  - destruct (H c' Hc). split; by apply list_elem_of_further.
Qed.

Lemma triple_bind {A B} P (m : M A) (k : A -> M B) Q Q' R :
  triple P m Q R -> (forall a, triple (Q a) (k a) Q' R) ->
  triple P (bind m k) Q' R.
Proof.
  intros Hm Hk e HP. unfold bind. specialize (Hm e HP).
  destruct (m e) as [e1 [a|x]]; [by apply Hk|done].
Qed.

Lemma triple_lift {A} (P R : FlowchartEditor -> Prop) (o : outcome A) :
  (forall e, P e -> R e) -> triple P (lift o) (fun _ => P) R.
Proof. intros HR e HP. unfold lift. destruct o; [done|by apply HR]. Qed.

Lemma triple_ret {A} (P : FlowchartEditor -> Prop) (Q : A -> _) R (a : A) :
  (forall e, P e -> Q a e) -> triple P (ret a) Q R.
Proof. intros HQ e HP. by apply HQ. Qed.

Lemma triple_modify (P : FlowchartEditor -> Prop) Q R f :
  (forall e, P e -> Q tt (f e)) -> triple P (modify f) Q R.
Proof. intros HQ e HP. by apply HQ. Qed.

Lemma triple_for_each {A} (P R : FlowchartEditor -> Prop) (l : list A) body :
  (forall x, triple P (body x) (fun _ => P) R) ->
  triple P (for_each l body) (fun _ => P) R.
Proof.
  intros Hb. induction l as [|x l IH]; simpl; [by intros e|].
  eapply triple_bind; [apply Hb|intros ?; apply IH].
Qed.

Lemma loaded_ok_attached loaded e : loaded_ok loaded e -> attached (items e) = true.
Proof. by intros [? _]. Qed.

Lemma dict_get_put k n loaded k' m :
  dict_get k' (dict_put k n loaded) = Some m ->
  m = n \/ dict_get k' loaded = Some m.
Proof.
  induction loaded as [|[k0 n0] loaded IH]; simpl.
  - destruct (decide (k = k')); [|done]. intros [= <-]. by left.
  - destruct (decide (k0 = k)) as [->|Hne]; simpl.
    + destruct (decide (k = k')); [intros [= <-]; by left|]. by right.
    + destruct (decide (k0 = k')); [by right|]. apply IH.
Qed.

Lemma triple_create_node loaded type text pos c :
  triple (loaded_ok loaded) (create_node metrics_width type text pos c)
         (fun n e => loaded_ok loaded e /\ INode n ∈ items e)
         (fun e => attached (items e) = true).
Proof.
  intros e [Ha Hl]. unfold create_node.
  destruct (new_FlowchartNode metrics_width type text pos); [|done].
  simpl. split; [split|].
  - by apply attached_add_node.
  - intros k n Hk. by apply list_elem_of_further, (Hl k).
  - apply list_elem_of_here.
Qed.

Ltac lift_step :=
  eapply triple_bind; [apply triple_lift, loaded_ok_attached|intros ?].

Lemma triple_add_loaded_node loaded type text x y node_data :
  triple (loaded_ok loaded)
         (add_loaded_node metrics_width type text x y node_data)
         (fun n e => loaded_ok loaded e /\ INode n ∈ items e)
         (fun e => attached (items e) = true).
Proof.
  unfold add_loaded_node. do 4 lift_step. apply triple_create_node.
Qed.

Lemma loaded_ok_put loaded k n e :
  loaded_ok loaded e -> INode n ∈ items e -> loaded_ok (dict_put k n loaded) e.
Proof.
  intros [Ha Hl] Hn. split; [done|]. intros k' m Hm.
  apply dict_get_put in Hm as [->|Hm]; [done|by apply (Hl k')].
Qed.

Lemma triple_load_node loaded node_data :
  triple (loaded_ok loaded) (load_node metrics_width loaded node_data)
         loaded_ok (fun e => attached (items e) = true).
Proof.
  unfold load_node. do 6 lift_step.
  eapply triple_bind; [apply triple_add_loaded_node|intros n].
  eapply triple_bind;
    [apply triple_lift; intros e [H _]; exact (loaded_ok_attached _ _ H)|intros ?].
  eapply triple_bind;
    [apply triple_lift; intros e [H _]; exact (loaded_ok_attached _ _ H)|intros k].
  apply triple_ret. intros e [Hok Hn]. by apply loaded_ok_put.
Qed.

Lemma triple_load_nodes l loaded :
  triple (loaded_ok loaded) (load_nodes metrics_width l loaded)
         loaded_ok (fun e => attached (items e) = true).
Proof.
  revert loaded. induction l as [|node_data l IH]; intros loaded; simpl.
  - by apply triple_ret.
  - eapply triple_bind; [apply triple_load_node|apply IH].
Qed.

Lemma lookup_loaded_ok loaded j n e :
  loaded_ok loaded e -> lookup_loaded loaded j = Returned (Some n) ->
  INode n ∈ items e.
Proof.
  intros [_ Hl]. unfold lookup_loaded. destruct (to_key j) as [k|]; [|done].
  intros [= Hk]. by apply (Hl k).
Qed.

Lemma triple_load_connection loaded conn_data :
  triple (loaded_ok loaded) (load_connection connection_color loaded conn_data)
         (fun _ => loaded_ok loaded) (fun e => attached (items e) = true).
Proof.
  intros e Hok. unfold load_connection, bind, lift, ret, modify.
  destruct (subscript conn_data "start_id") as [js|]; [|exact (loaded_ok_attached _ _ Hok)].
  destruct (lookup_loaded loaded js) as [[s|]|] eqn:Hs;
    [|done|exact (loaded_ok_attached _ _ Hok)].
  destruct (subscript conn_data "end_id") as [jt|]; [|exact (loaded_ok_attached _ _ Hok)].
  destruct (lookup_loaded loaded jt) as [[t|]|] eqn:Ht;
    [|done|exact (loaded_ok_attached _ _ Hok)].
  destruct (loaded_style connection_color s t conn_data) as [cw|];
    [|exact (loaded_ok_attached _ _ Hok)].
  pose proof (lookup_loaded_ok _ _ _ _ Hok Hs) as Hsn.
  pose proof (lookup_loaded_ok _ _ _ _ Hok Ht) as Htn.
  destruct Hok as [Ha Hl]. split.
  - by apply attached_add_conn.
  - intros k n Hk. by apply list_elem_of_further, (Hl k).
Qed.

Lemma triple_open_body file_path contents :
  triple (fun _ => True)
         (open_body metrics_width connection_color file_path contents)
         (fun _ e => attached (items e) = true)
         (fun e => attached (items e) = true).
Proof.
  unfold open_body, and_then.
  eapply (triple_bind _ _ _ (fun _ => loaded_ok []));
    [by apply triple_modify|intros ?].
  lift_step.
  eapply (triple_bind _ _ _ (fun _ => loaded_ok []));
    [apply triple_modify; by intros e [? ?]|intros ?].
  do 2 lift_step.
  eapply triple_bind; [apply triple_load_nodes|intros loaded].
  do 2 lift_step.
  eapply triple_bind;
    [apply triple_for_each; intros ?; apply triple_load_connection|intros ?].
  eapply (triple_bind _ _ _ (fun _ => loaded_ok loaded));
    [apply triple_modify; by intros e [? ?]|intros ?].
  eapply (triple_bind _ _ _ (fun _ => loaded_ok loaded));
    [apply triple_modify; by intros e [? ?]|intros ?].
  eapply (triple_bind _ _ _ (fun _ => loaded_ok loaded));
    [apply triple_modify; by intros e [? ?]|intros ?].
  apply triple_modify. by intros e [? ?].
Qed.

(** X11: whatever the file holds, [FlowchartEditor.openFlowchart]
    leaves no connection hanging loose: when every connection of the
    scene joined two nodes of the scene before, the same holds after,
    whether the file was loaded, the load failed half way, or the dialog
    was cancelled. *)
Theorem openFlowchart_leaves_no_loose_connection confirm file_path contents e :
  attached (items e) = true ->
  attached (items (openFlowchart metrics_width connection_color confirm
                                 file_path contents e).1) = true.
Proof.
  intros Ha. unfold openFlowchart.
  repeat (match goal with |- context [if ?b then _ else _] => destruct b end);
    try done.
  unfold try_except.
  pose proof (triple_open_body file_path contents e I) as Hbody.
  by destruct (open_body _ _ _ _ e) as [e1 [[]|x]].
Qed.

End OpenMore.

(** The two-node document, over which a file with a connection between
    unknown nodes is opened. *)
Lemma openFlowchart_leaves_no_loose_connection_witness :
  Inv.attached (Editor.items
    (Persist.openFlowchart Editor.text_metrics Editor.hashed_color Discard
       "map.flow"
       (Returned (Persist.JObj
          [("nodes", Persist.JArr []);
           ("connections",
            Persist.JArr [Persist.JObj [("start_id", Persist.JStr "1");
                                        ("end_id", Persist.JStr "2")]])]))
       Persist.two_nodes).1) = true.
Proof.
  apply (openFlowchart_leaves_no_loose_connection Editor.text_metrics
           Editor.hashed_color).
  reflexivity.
Defined.

(** ** Undo and redo of a deleted connection *)

Section DeletionMore.
Import Inv.

Variable metrics_width : string -> Z.
Variable connection_color : node -> node -> string.
Variable reply : node -> StandardButton.
Variable fuel : nat.

Lemma in_scene_add_conns (B : list FlowchartConnection) sc n :
  in_scene (map IConn B ++ sc) n = in_scene sc n.
Proof. induction B as [|c B IH]; [done|]. simpl. exact IH. Qed.

Lemma restorable_cons sc cd its :
  restorable sc (ConnectionData cd :: its)
  = if in_scene sc (cd_start_node_id cd) && in_scene sc (cd_end_node_id cd)
    then (cd_start_node_id cd, cd_end_node_id cd, cd_color cd) :: restorable sc its
    else restorable sc its.
Proof. unfold restorable. simpl. by destruct (_ && _). Qed.

Lemma restorable_add_conns (B : list FlowchartConnection) sc its :
  restorable (map IConn B ++ sc) its = restorable sc its.
Proof.
  induction its as [|[id ty tx pos col conns|cd] its IH]; [done|exact IH|].
  by rewrite !restorable_cons, !in_scene_add_conns, IH.
Qed.

(** The connection loop of [undo] on a record of connections: each
    recorded connection whose two ends are in the scene is made anew and
    put in front. *)
Lemma restore_connections_only its restored e :
  Forall deleted_connection its ->
  exists e' B,
    restore_connections connection_color its restored e = (e', Returned tt) /\
    items e' = map IConn B ++ items e /\
    map (fun c => (start_node c, end_node c, conn_color c)) B
    = rev (restorable (items e) its).
Proof.
  intros Hits. revert e.
  induction Hits as [|[id ty tx pos col conns|cd] its Hit Hits IH]; intros e;
    [by exists e, []|done|].
  unfold restore_connections in *. cbn [for_each]. rewrite and_then_run.
  simpl in Hit. rewrite restorable_cons.
  destruct (in_scene (items e) (cd_start_node_id cd)) eqn:Hs;
    destruct (in_scene (items e) (cd_end_node_id cd)) eqn:Ht;
    cbn [andb reconnect];
    try (unfold ret; destruct (IH e) as (e' & B & Hrest & H1 & H2);
         exists e', B; by rewrite Hrest).
  rewrite decide_False by done. unfold create_connection, modify.
  set (c := mkConn (next_id e) (cd_start_node_id cd) (cd_end_node_id cd)
                   (default (connection_color (cd_start_node_id cd)
                                              (cd_end_node_id cd))
                            (Some (cd_color cd))) 2 true).
  destruct (IH (addItem (IConn c) (set_next_id (S (next_id e)) e)))
    as (e' & B & -> & H1 & H2).
  exists e', (B ++ [c]). split; [done|]. split.
  - rewrite H1, map_app, <- app_assoc. done.
  - rewrite map_app, H2.
    change (items (addItem (IConn c) (set_next_id (S (next_id e)) e)))
      with (map IConn [c] ++ items e).
    rewrite restorable_add_conns. done.
Qed.

Lemma restore_nodes_only its restored e :
  Forall deleted_connection its ->
  restore_nodes metrics_width its restored e = (e, Returned restored).
Proof.
  intros Hits. induction Hits as [|[id ty tx pos col conns|cd] its Hit Hits IH];
    [done|done|exact IH].
Qed.

(** The loop of [redo] on a record of connections. *)
Lemma redo_connections_only its e :
  Forall deleted_connection its ->
  exists e',
    redo_record metrics_width connection_color reply fuel (delete_items its) e
    = (e', Returned tt) /\
    items e'
    = foldl (fun sc it => match it with
                          | ConnectionData cd =>
                              remove_first_connection (cd_start_node_id cd)
                                                      (cd_end_node_id cd) sc
                          | NodeData _ _ _ _ _ _ => sc
                          end) (items e) its.
Proof.
  intros Hits. revert e. cbn [redo_record].
  induction Hits as [|[id ty tx pos col conns|cd] its Hit Hits IH]; intros e;
    [by exists e|done|].
  cbn [for_each foldl]. rewrite and_then_run. unfold modify at 1.
  destruct (IH (set_items (remove_first_connection (cd_start_node_id cd)
                             (cd_end_node_id cd) (items e)) e)) as (e' & -> & H).
  by exists e'.
Qed.

(** Taking out the first connection from [s] to [t] when one of those
    put in front is such a connection. *)
Lemma remove_first_front s t (B : list FlowchartConnection) sc :
  (s, t) ∈ map (fun c => (start_node c, end_node c)) B ->
  exists B',
    remove_first_connection s t (map IConn B ++ sc) = map IConn B' ++ sc /\
    Permutation ((s, t) :: map (fun c => (start_node c, end_node c)) B')
                (map (fun c => (start_node c, end_node c)) B).
Proof.
  induction B as [|c B IH]; intros Hin; [by apply elem_of_nil in Hin|].
  simpl. destruct (decide (start_node c = s /\ end_node c = t)) as [[<- <-]|Hne].
  - by exists B.
  - simpl in Hin. apply elem_of_cons in Hin as [[= Hs Ht]|Hin];
      [by destruct Hne|].
    destruct (IH Hin) as (B' & -> & Hperm). exists (c :: B'). split; [done|].
    simpl. rewrite Permutation_swap. by constructor.
Qed.

Lemma remove_first_absent s t sc :
  (forall c, IConn c ∈ sc -> ~ (start_node c = s /\ end_node c = t)) ->
  remove_first_connection s t sc = sc.
Proof.
  induction sc as [|[n|c|] sc IH]; intros Hno; simpl; [done| | |].
  - rewrite IH; [done|]. intros c Hc. by apply Hno, list_elem_of_further.
  - rewrite decide_False by (apply Hno, list_elem_of_here).
    rewrite IH; [done|]. intros c' Hc. by apply Hno, list_elem_of_further.
  - rewrite IH; [done|]. intros c Hc. by apply Hno, list_elem_of_further.
Qed.

(** [redo] takes out exactly the connections that [undo] put in. *)
Lemma redo_undoes_front its sc :
  Forall deleted_connection its -> attached sc = true ->
  forall B : list FlowchartConnection,
    Permutation (map (fun c => (start_node c, end_node c)) B)
                (map (fun p => (p.1.1, p.1.2)) (restorable sc its)) ->
    foldl (fun sc it => match it with
                        | ConnectionData cd =>
                            remove_first_connection (cd_start_node_id cd)
                                                    (cd_end_node_id cd) sc
                        | NodeData _ _ _ _ _ _ => sc
                        end) (map IConn B ++ sc) its = sc.
Proof.
  intros Hits Hatt.
  induction Hits as [|[id ty tx pos col conns|cd] its Hit Hits IH]; intros B Hperm;
    [|done|].
  { apply Permutation_nil_r in Hperm. by destruct B. }
  cbn [foldl]. rewrite restorable_cons in Hperm.
  destruct (in_scene sc (cd_start_node_id cd) && in_scene sc (cd_end_node_id cd))
    eqn:Hadd.
  - cbn [map fst snd] in Hperm.
    destruct (remove_first_front (cd_start_node_id cd) (cd_end_node_id cd) B sc)
      as (B' & -> & Hperm').
    { eapply elem_of_Permutation_proper; [exact Hperm|]. apply list_elem_of_here. }
    apply IH. rewrite <- Hperm' in Hperm. by apply Permutation_cons_inv in Hperm.
  - rewrite remove_first_absent; [by apply IH|].
    intros c Hc [Hs Ht]. apply elem_of_app in Hc as [Hc|Hc].
    + apply list_elem_of_fmap in Hc as (c' & [= <-] & Hc').
      assert ((start_node c, end_node c)
              ∈ map (fun p => (p.1.1, p.1.2)) (restorable sc its)) as Hp.
      { eapply elem_of_Permutation_proper; [symmetry; exact Hperm|].
        by apply (list_elem_of_fmap_2 (fun c => (start_node c, end_node c))). }
      apply list_elem_of_fmap in Hp as ([[s t] col] & [= Hs' Ht'] & Hp).
      unfold restorable in Hp. apply list_elem_of_omap in Hp as (it & _ & Hit').
      destruct it as [|cd']; [done|].
      destruct (in_scene sc (cd_start_node_id cd')
                && in_scene sc (cd_end_node_id cd')) eqn:Hadd'; [|done].
      injection Hit' as <- <- _. cbn [fst snd] in Hs', Ht'.
      rewrite <- Hs, <- Ht, Hs', Ht' in Hadd. congruence.
    + destruct (proj1 (attached_elem sc) Hatt c Hc) as [H1 H2].
      apply in_scene_elem in H1, H2. rewrite <- Hs, <- Ht, H1, H2 in Hadd. done.
Qed.

(** X12: for a deletion record that holds only connections (each was
    selected and deleted by itself), in a scene where no connection hangs
    loose: [undo] returns, having made anew, in front of the scene, each
    recorded connection whose two end nodes are in the scene, with the
    recorded colour; [redo] right afterwards returns with the scene as it
    was before [undo], and the log index back on the deletion. *)
Theorem redo_after_undone_connection_deletion e its :
  (0 <= history_index e)%Z ->
  history e !! Z.to_nat (history_index e) = Some (delete_items its) ->
  Forall deleted_connection its ->
  attached (items e) = true ->
  exists e1 B e2,
    undo metrics_width connection_color reply fuel e = (e1, Returned tt) /\
    items e1 = map IConn B ++ items e /\
    map (fun c => (start_node c, end_node c, conn_color c)) B
    = rev (restorable (items e) its) /\
    redo metrics_width connection_color reply fuel e1 = (e2, Returned tt) /\
    items e2 = items e /\
    history_index e2 = history_index e.
Proof.
  intros Hidx Hrec Hits Hatt.
  pose proof (lookup_lt_Some _ _ _ Hrec) as Hlt.
  destruct (keeps_log_undo_record metrics_width connection_color reply fuel
              (delete_items its) e) as [Hh Hi].
  destruct (restore_connections_only its ∅ e Hits) as (e' & B & Hrc & HB & Htr).
  assert (undo_record metrics_width connection_color reply fuel (delete_items its) e
          = (e', Returned tt)) as Hur.
  { cbn [undo_record]. unfold bind. by rewrite (restore_nodes_only its ∅ e Hits). }
  rewrite Hur in Hh, Hi. cbn [fst] in Hh, Hi.
  set (e1 := showMessage msg_undone
               (setModified true (set_history_index (history_index e' - 1) e'))).
  assert (undo metrics_width connection_color reply fuel e = (e1, Returned tt))
    as Hundo.
  { unfold undo. rewrite bool_decide_eq_false_2 by lia.
    by rewrite (getitem_lookup _ _ _ Hidx Hrec), and_then_run, Hur. }
  assert (history e1 = history e) as He1h by exact Hh.
  assert (history_index e1 = (history_index e - 1)%Z) as He1i.
  { unfold e1. cbn [history_index showMessage setModified set_history_index].
    by rewrite Hi. }
  set (e0 := set_history_index (history_index e1 + 1) e1).
  destruct (redo_connections_only its e0 Hits) as (e2' & Hrr & Hit2).
  assert (items e2' = items e) as Hback.
  { rewrite Hit2. change (items e0) with (items e'). rewrite HB.
    apply redo_undoes_front; [done|done|].
    assert (map (fun c => (start_node c, end_node c)) B
            = map (fun p : nat * nat * string => (p.1.1, p.1.2))
                  (rev (restorable (items e) its))) as ->.
    { rewrite <- Htr, map_map. done. }
    rewrite map_rev. symmetry. apply Permutation_rev. }
  destruct (keeps_log_redo_record metrics_width connection_color reply fuel
              (delete_items its) e0) as [Hh2 Hi2].
  rewrite Hrr in Hh2, Hi2. cbn [fst] in Hh2, Hi2.
  exists e1, B, (showMessage msg_redone (setModified true e2')).
  split; [exact Hundo|]. split; [exact HB|]. split; [exact Htr|]. split.
  - unfold redo. fold e0. rewrite He1h, He1i.
    rewrite bool_decide_eq_false_2 by lia.
    change (history e0) with (history e1). change (history_index e0)
      with (history_index e1 + 1)%Z. rewrite He1h, He1i.
    replace (history_index e - 1 + 1)%Z with (history_index e) by lia.
    rewrite (getitem_lookup _ _ _ Hidx Hrec), and_then_run.
    by rewrite Hrr.
  - split; [exact Hback|]. cbn [history_index showMessage setModified].
    rewrite Hi2. change (history_index e0) with (history_index e1 + 1)%Z.
    rewrite He1i. lia.
Qed.

End DeletionMore.

(** The deleted connection of the two-node document, undone and
    redone. *)
Lemma redo_after_undone_connection_deletion_witness :
  exists e1 B e2,
    Editor.undo Editor.text_metrics Editor.hashed_color (fun _ => Yes) 8 Inv.unlinked
    = (e1, Returned tt) /\
    Editor.items e1 = map IConn B ++ Editor.items Inv.unlinked /\
    map (fun c => (start_node c, end_node c, conn_color c)) B
    = rev (Inv.restorable (Editor.items Inv.unlinked)
             [Editor.ConnectionData (Editor.mkConnData 1 2 "#e6a173")]) /\
    Editor.redo Editor.text_metrics Editor.hashed_color (fun _ => Yes) 8 e1
    = (e2, Returned tt) /\
    Editor.items e2 = Editor.items Inv.unlinked /\
    Editor.history_index e2 = Editor.history_index Inv.unlinked.
Proof.
  apply (redo_after_undone_connection_deletion Editor.text_metrics
           Editor.hashed_color (fun _ => Yes) 8 Inv.unlinked).
  - simpl. lia.
  - reflexivity.
  - constructor; [|constructor]. simpl. lia.
  - reflexivity.
Defined.

(** ** The fold shortcut and Ctrl with double click *)

Section ToggleMore.
Import Fold FoldMore.

Lemma getAllChildNodes_leaves fuel sc n ds :
  Graph.getAllChildNodes fuel sc n = Some ds ->
  (forall c, c ∈ Graph.get_child_nodes sc n -> Graph.get_child_nodes sc c = []) ->
  length ds = length (Graph.get_child_nodes sc n).
Proof.
  intros Hg. destruct (getAllChildNodes_children _ _ _ _ Hg) as (subs & Hsubs & ->).
  clear Hg. induction Hsubs as [|c sub cs subs [f Hc] Hrest IH]; intros Hleaf; [done|].
  simpl. rewrite length_app, IH.
  - assert (sub = []) as ->; [|done].
    apply (getAllChildNodes_nil _ _ _ _ Hc), Hleaf, list_elem_of_here.
  - intros c' Hc'. by apply Hleaf, list_elem_of_further.
Qed.

(** X4: on a node that is folded, or whose children have no children,
    the fold shortcut asks nothing: whatever would be answered, it does
    what Ctrl with double click does (when the traversal returns). *)
Theorem toggle_fold_without_question sb fuel reply n (w : world) ds :
  Graph.getAllChildNodes fuel w.2 n = Some ds ->
  is_folded (w.1 n) = Some true \/
  (forall c, c ∈ Graph.get_child_nodes w.2 n -> Graph.get_child_nodes w.2 c = []) ->
  _toggle_fold_node sb fuel reply n w
  = extend_node_mouse_double_click_event sb n w.
Proof.
  destruct w as [h sc]. cbn [fst snd]. intros Hg Hcase.
  unfold _toggle_fold_node, extend_node_mouse_double_click_event. cbn [fst snd].
  destruct (Graph.get_child_nodes sc n) as [|c0 cs0] eqn:Hcs; [done|].
  rewrite Hg.
  assert (bool_decide (length (c0 :: cs0) < length ds)
          && negb (default false (is_folded (h n))) = false) as ->; [|done].
  destruct Hcase as [Hf|Hleaf].
  - rewrite Hf. simpl. apply andb_false_r.
  - rewrite <- Hcs in Hleaf. pose proof (getAllChildNodes_leaves _ _ _ _ Hg Hleaf).
    rewrite bool_decide_eq_false_2; [done|]. rewrite <- Hcs. lia.
Qed.

End ToggleMore.

(** Node B of the scenario has the one child D, which has none. *)
Lemma toggle_fold_without_question_witness :
  Fold._toggle_fold_node (Returned tt) 5 Yes 1 Fold.scenario
  = FoldMore.extend_node_mouse_double_click_event (Returned tt) 1 Fold.scenario.
Proof.
  apply (toggle_fold_without_question (Returned tt) 5 Yes 1 Fold.scenario [3]).
  - reflexivity.
  - right. intros c Hc. change (c ∈ [3]) in Hc.
    apply list_elem_of_singleton in Hc. by subst c.
Defined.

(** ** Line style, undone and redone *)

Section StyleMore.
Import Style.

Variable metrics_width : string -> Z.
Variable connection_color : node -> node -> string.
Variable reply : node -> StandardButton.
Variable fuel : nat.

(** The record passed to [addHistory] is the one under the index
    afterwards. *)
Lemma addHistory_current data e :
  getitem (history (addHistory data e)) (history_index (addHistory data e))
  = Returned data /\
  (0 <= history_index (addHistory data e))%Z.
Proof.
  unfold addHistory.
  set (h1 := if bool_decide (history_index e < Z.of_nat (length (history e)) - 1)%Z
             then slice_to (history_index e + 1) (history e) else history e).
  cbn [history history_index set_history set_history_index].
  set (h3 := if bool_decide (max_history < length (h1 ++ [data]))
             then drop 1 (h1 ++ [data]) else h1 ++ [data]).
  assert (h3 !! (length h3 - 1) = Some data /\ 0 < length h3) as [Hl Hpos].
  { unfold h3, max_history. case_bool_decide as Hlen.
    - rewrite length_app in Hlen. simpl in Hlen.
      rewrite lookup_drop, length_drop, length_app. simpl. split; [|lia].
      replace (S (length h1 + 1 - 1 - 1)) with (length h1) by lia.
      by rewrite list_lookup_middle.
    - rewrite length_app. simpl. split; [|lia].
      replace (length h1 + 1 - 1) with (length h1) by lia.
      by rewrite list_lookup_middle. }
  split; [|lia]. apply getitem_lookup; [lia|].
  by replace (Z.to_nat (Z.of_nat (length h3) - 1)) with (length h3 - 1) by lia.
Qed.

Lemma for_each_modify {A} (l : list A) (f : A -> FlowchartEditor -> FlowchartEditor) e :
  for_each l (fun x => modify (f x)) e = (foldl (fun e x => f x e) e l, Returned tt).
Proof.
  revert e. induction l as [|x l IH]; intros e; [done|].
  simpl. rewrite and_then_run. unfold modify at 1. apply IH.
Qed.

Lemma items_restyle_loop (l : list StyleData) (gc : StyleData -> string) (gw : StyleData -> Z) e :
  items (foldl (fun e cd => set_items (restyle (connection_id cd) (gc cd) (gw cd)
                                               (items e)) e) e l)
  = foldl (fun sc cd => restyle (connection_id cd) (gc cd) (gw cd) sc) (items e) l.
Proof. revert e. induction l as [|cd l IH]; intros e; [done|]. simpl. by rewrite IH. Qed.

Lemma restyle_comm a b ca wa cb wb sc :
  a <> b ->
  restyle a ca wa (restyle b cb wb sc) = restyle b cb wb (restyle a ca wa sc).
Proof.
  intros Hab. induction sc as [|[n|k|] sc IH]; simpl; [done| | |];
    try by rewrite IH.
  destruct (decide (conn_id k = b)) as [Hb|Hb], (decide (conn_id k = a)) as [Ha|Ha];
    simpl.
  - congruence.
  - by rewrite decide_False, decide_True by done.
  - by rewrite decide_True, decide_False by done.
  - rewrite !decide_False by done. by rewrite IH.
Qed.

Lemma restyle_back cid c w sc k :
  find_connection cid sc = Some k ->
  restyle cid (conn_color k) (pen_width k) (restyle cid c w sc) = sc.
Proof.
  induction sc as [|[n|k'|] sc IH]; simpl; [done| | |];
    try (intros H; by rewrite IH).
  destruct (decide (conn_id k' = cid)) as [Hk|Hk]; simpl.
  - intros [= ->]. rewrite decide_True by done. by destruct k.
  - intros H. rewrite decide_False by done. by rewrite IH.
Qed.

Lemma find_connection_restyle cid cid' c w sc :
  is_Some (find_connection cid' sc) ->
  is_Some (find_connection cid' (restyle cid c w sc)).
Proof.
  induction sc as [|[n|k|] sc IH]; simpl; [done| | |]; try done.
  destruct (decide (conn_id k = cid)) as [Hk|Hk]; simpl; [|by destruct (decide _)].
  by destruct (decide (conn_id k = cid')).
Qed.

Lemma restyle_loop_comm cid c w (recs : list StyleData) (gc : StyleData -> string) (gw : StyleData -> Z) sc :
  Forall (fun cd => connection_id cd <> cid) recs ->
  foldl (fun sc cd => restyle (connection_id cd) (gc cd) (gw cd) sc)
        (restyle cid c w sc) recs
  = restyle cid c w
      (foldl (fun sc cd => restyle (connection_id cd) (gc cd) (gw cd) sc) sc recs).
Proof.
  intros Hrecs. revert sc. induction Hrecs as [|cd recs Hcd Hrecs IH]; intros sc; [done|].
  simpl. rewrite <- IH. f_equal. by apply restyle_comm.
Qed.

(** What the loop of [setLineStyle] records, and how the loops of undo
    and redo act on it. *)
Lemma style_loop c w selected sc recs0 :
  NoDup selected ->
  (forall cid, cid ∈ selected -> is_Some (find_connection cid sc)) ->
  exists recs,
    let st := foldl (style_one c w) (sc, recs0) selected in
    st.2 = recs0 ++ recs /\
    map connection_id recs = selected /\
    foldl (fun sc cd => restyle (connection_id cd) (old_color cd) (old_width cd) sc)
          st.1 recs = sc /\
    foldl (fun sc cd => restyle (connection_id cd) (new_color cd) (new_width cd) sc)
          sc recs = st.1.
Proof.
  intros Hnd. revert sc recs0.
  induction Hnd as [|cid selected Hcid Hnd IH]; intros sc recs0 Hsel.
  { exists []. simpl. by rewrite app_nil_r. }
  destruct (Hsel cid) as [k Hk]; [apply list_elem_of_here|].
  destruct (IH (restyle cid c w sc)
               (recs0 ++ [mkStyleData cid (conn_color k) (pen_width k) c w]))
    as (recs & H1 & H2 & H3 & H4).
  { intros cid' Hc. apply find_connection_restyle, Hsel.
    by apply list_elem_of_further. }
  exists (mkStyleData cid (conn_color k) (pen_width k) c w :: recs).
  assert (style_one c w (sc, recs0) cid
          = (restyle cid c w sc,
             recs0 ++ [mkStyleData cid (conn_color k) (pen_width k) c w])) as Hstep.
  { unfold style_one. cbn [fst snd]. by rewrite Hk. }
  cbn [foldl]. rewrite Hstep. cbv zeta in *. split; [by rewrite H1, <- app_assoc|].
  split; [simpl; by rewrite H2|].
  cbn [foldl connection_id old_color old_width new_color new_width].
  split; [|exact H4].
  assert (Forall (fun cd => connection_id cd <> cid) recs) as Hne.
  { apply Forall_forall. intros cd Hcd Heq. apply Hcid. rewrite <- H2, <- Heq.
    by apply list_elem_of_fmap_2. }
  rewrite (restyle_loop_comm cid _ _ recs old_color old_width _ Hne).
  rewrite H3. by apply restyle_back.
Qed.

(** X13: after [setLineStyle] has put a colour and a width on the
    selected connections, [undo] gives every connection the colour and the
    width it had, so that the scene is what it was, and [redo] gives the
    scene of after [setLineStyle] again. *)
Theorem undo_redo_line_style selected c w e :
  NoDup selected ->
  (forall cid, cid ∈ selected -> is_Some (find_connection cid (items e))) ->
  let e1 := apply_line_style selected c w e in
  let u := undo metrics_width connection_color reply fuel e1 in
  let r := redo metrics_width connection_color reply fuel u.1 in
  u.2 = Returned tt /\ items u.1 = items e /\
  r.2 = Returned tt /\ items r.1 = items e1.
Proof.
  intros Hnd Hsel e1 u r.
  destruct (style_loop c w selected (items e) [] Hnd Hsel)
    as (recs & H1 & _ & H3 & H4).
  cbv zeta in H1, H3, H4. simpl in H1.
  set (st := foldl (style_one c w) (items e, []) selected) in *.
  set (e0 := addHistory (change_line_style st.2) (set_items st.1 e)).
  destruct (addHistory_current (change_line_style st.2) (set_items st.1 e))
    as [Hget Hidx]. fold e0 in Hget, Hidx.
  assert (e1 = setModified true e0) as He1 by reflexivity.
  assert (u = (showMessage msg_undone (setModified true
                 (set_history_index (history_index e0 - 1)
                    (set_items (items e) e0))), Returned tt)) as Hu.
  { unfold u, undo. rewrite He1.
    cbn [history history_index setModified].
    rewrite bool_decide_eq_false_2 by lia. rewrite Hget, and_then_run.
    cbn [undo_record]. rewrite for_each_modify.
    set (e2 := foldl _ _ _).
    assert (items e2 = items e) as Hit.
    { unfold e2.
      rewrite (items_restyle_loop st.2 old_color old_width).
      rewrite H1. exact H3. }
    assert (e2 = set_items (items e) (setModified true e0)) as ->; [|done].
    revert Hit. unfold e2. generalize (setModified true e0) as x.
    clear. induction st.2 as [|cd l IH]; intros x Hx; simpl in *.
    - destruct x. simpl in *. by subst.
    - rewrite (IH _ Hx). by destruct x. }
  rewrite Hu. cbn [fst snd]. split; [done|]. split; [done|].
  unfold r. rewrite Hu. cbn [fst]. unfold redo.
  cbn [history history_index showMessage setModified set_history_index set_items].
  pose proof (getitem_returned _ _ _ Hidx Hget) as Hlt.
  rewrite bool_decide_eq_false_2 by lia.
  replace (history_index e0 - 1 + 1)%Z with (history_index e0) by lia.
  rewrite Hget, and_then_run. cbn [redo_record]. rewrite for_each_modify.
  set (e2 := foldl _ _ _).
  assert (items e2 = st.1) as Hit.
  { unfold e2.
    rewrite (items_restyle_loop st.2 new_color new_width).
    rewrite H1. exact H4. }
  rewrite and_then_run. cbn [modify fst snd]. split; [done|].
  cbn [items showMessage setModified]. by rewrite Hit, He1.
Qed.

End StyleMore.

(** The connection of the two-node document, made red and five wide. *)
Lemma undo_redo_line_style_witness :
  let e1 := Style.apply_line_style [3] "#ff0000" 5 Persist.two_nodes in
  let u := Editor.undo Editor.text_metrics Editor.hashed_color (fun _ => Yes) 8 e1 in
  let r := Editor.redo Editor.text_metrics Editor.hashed_color (fun _ => Yes) 8 u.1 in
  u.2 = Returned tt /\ Editor.items u.1 = Editor.items Persist.two_nodes /\
  r.2 = Returned tt /\ Editor.items r.1 = Editor.items e1.
Proof.
  apply (undo_redo_line_style Editor.text_metrics Editor.hashed_color
           (fun _ => Yes) 8 [3] "#ff0000" 5 Persist.two_nodes).
  - apply NoDup_singleton.
  - intros cid Hc. apply list_elem_of_singleton in Hc. subst cid. by eexists.
Defined.

(** ** The width computation on every graph *)

Section WidthMore.
Import Layout.

(** X14: the visited guard of [_calculate_tree_width] bounds the depth
    of the recursion by the number of nodes that have a parent: on every
    scene, with cycles or without, a call on a fresh [visited] set that
    may go two levels deeper than that returns; what it returns is the
    width of the layout, which is never less than the node's own width. *)
Theorem tree_width_returns_on_every_graph h sc n fuel :
  S (size (end_nodes sc)) < fuel ->
  exists w v,
    _calculate_tree_width fuel h sc n ∅ = Some (w, v) /\
    tree_width h sc n = Some w /\
    (width (h n) <= w)%Z.
Proof.
  intros Hfuel. destruct (_calculate_tree_width_returns h sc n) as [w Hw].
  pose proof Hw as Hcall. unfold tree_width in Hcall.
  destruct (_calculate_tree_width (S (S (size (end_nodes sc)))) h sc n ∅)
    as [[w' v]|] eqn:Hc; [|done].
  injection Hcall as ->. exists w, v.
  split; [by apply (_calculate_tree_width_mono h sc _ fuel) in Hc; [|lia]|].
  split; [done|].
  rewrite _calculate_tree_width_S in Hc.
  destruct (decide (n ∈ (∅ : gset node))); [injection Hc as <- _; lia|].
  destruct (_get_children sc n); [injection Hc as <- _; lia|].
  destruct (sum_widths _ _ _ _) as [[t v']|]; [|done].
  injection Hc as <- _. lia.
Qed.

End WidthMore.

(** Two nodes wired into a cycle. *)
Lemma tree_width_returns_on_every_graph_witness :
  exists w v,
    Layout._calculate_tree_width 4 Layout.widths Graph.cyc 0 ∅ = Some (w, v) /\
    Layout.tree_width Layout.widths Graph.cyc 0 = Some w /\
    (width (Layout.widths 0%nat) <= w)%Z.
Proof.
  apply (tree_width_returns_on_every_graph Layout.widths Graph.cyc 0 4).
  vm_compute. lia.
Defined.

(** ** The modified mark of the window title *)

Section TitleMore.
Import Persist Title.

Lemma string_length_app (a b : string) :
  String.length (a +:+ b) = String.length a + String.length b.
Proof.
  induction a as [|x a IH]; [done|]. rewrite string_app_cons. simpl. by rewrite IH.
Qed.

Lemma substring_app (a b : string) :
  String.substring 0 (String.length a) (a +:+ b) = a.
Proof.
  induction a as [|x a IH]; [by destruct b|].
  rewrite string_app_cons. simpl. by rewrite IH.
Qed.

(** X15: [setModified(True)] puts the mark [ *] at the end of a title
    that does not end with a star, and a second [setModified(True)] adds
    nothing; [setModified(False)] then gives the title back.  A title
    that ends with a star already is never marked. *)
Theorem setModified_marks_title_once title :
  (ends_with "*" title = false ->
   setModified_title true title = title +:+ " *" /\
   setModified_title false (setModified_title true title) = title) /\
  (ends_with "*" title = true -> setModified_title true title = title) /\
  setModified_title true (setModified_title true title)
  = setModified_title true title.
Proof.
  assert (forall t, ends_with "*" (t +:+ " *") = true) as Hstar.
  { intros t. apply ends_with_app. exists (t +:+ " ").
    by rewrite string_app_assoc. }
  assert (forall t, ends_with " *" (t +:+ " *") = true) as Hmark.
  { intros t. apply ends_with_app. by exists t. }
  split; [|split].
  - intros Hno. unfold setModified_title. rewrite Hno. simpl.
    split; [done|]. rewrite Hmark. simpl.
    rewrite string_length_app. simpl.
    replace (String.length title + 2 - 2) with (String.length title) by lia.
    apply substring_app.
  - intros Hyes. unfold setModified_title. by rewrite Hyes.
  - unfold setModified_title. destruct (ends_with "*" title) eqn:Hends; simpl.
    + by rewrite Hends.
    + by rewrite Hstar.
Qed.

End TitleMore.

(** ** Where the automatic layout puts the nodes *)

Section LayoutMore.
Import Layout AutoLayout.











End LayoutMore.

(** ** Undo and redo that raise *)

Section RaiseMore.

Variable metrics_width : string -> Z.
Variable connection_color : node -> node -> string.
Variable reply : node -> StandardButton.
Variable fuel : nat.

(** X17: [undo] moves the log index after the record is undone, [redo]
    before the record is redone: when [undo] raises, the log and its
    index are what they were, so that the same record is undone again next
    time; when [redo] raises, the index has moved on to the record that
    was not redone. *)
Theorem raise_moves_redo_index_only eu eu1 xu er er1 xr :
  undo metrics_width connection_color reply fuel eu = (eu1, Raised xu) ->
  redo metrics_width connection_color reply fuel er = (er1, Raised xr) ->
  (history eu1 = history eu /\ history_index eu1 = history_index eu) /\
  (history er1 = history er /\ history_index er1 = (history_index er + 1)%Z).
Proof.
  intros Hu Hr. split.
  - revert Hu. unfold undo. case_bool_decide as Hneg; [done|].
    destruct (getitem (history eu) (history_index eu)) as [data|x];
      [|by intros [= <- _]].
    rewrite and_then_run.
    destruct (keeps_log_undo_record metrics_width connection_color reply fuel
                data eu) as [H1 H2].
    destruct (undo_record _ _ _ _ data eu) as [e' [[]|x]]; [done|].
    simpl in H1, H2. by intros [= <- _].
  - revert Hr. unfold redo. case_bool_decide as Hend; [done|].
    set (e0 := set_history_index (history_index er + 1) er).
    destruct (getitem (history e0) (history_index e0)) as [data|x];
      [|by intros [= <- _]].
    rewrite and_then_run.
    destruct (keeps_log_redo_record metrics_width connection_color reply fuel
                data e0) as [H1 H2].
    destruct (redo_record _ _ _ _ data e0) as [e' [[]|x]]; [done|].
    simpl in H1, H2. by intros [= <- _].
Qed.

End RaiseMore.

(** On the cycle, undoing the addition of node 0 and redoing its
    deletion both end in the traversal that does not come back. *)
Lemma raise_moves_redo_index_only_witness :
  let eu := Inv.cyclic (Editor.add_node 0 "主要分支" "idea" (250, 250)%Z None) 0 in
  let er := Inv.cyclic (Editor.delete_items
                          [Editor.NodeData 0 "主要分支" "idea" (250, 250)%Z
                                           "#87cefa" []]) (-1) in
  (Editor.history eu = Editor.history eu /\
   Editor.history_index eu = Editor.history_index eu) /\
  (Editor.history er = Editor.history er /\
   Editor.history_index (Editor.set_history_index 0 er)
   = (Editor.history_index er + 1)%Z).
Proof.
  intros eu er.
  apply (raise_moves_redo_index_only Editor.text_metrics Editor.hashed_color
           (fun _ => Yes) 8 eu eu RecursionError er
           (Editor.set_history_index 0 er) RecursionError).
  - reflexivity.
  - reflexivity.
Defined.
